(** * Phoenix SDR controller agent: telemetry, parameter client, result store
      and optimisation driver

    A shallow embedding of the Python sources under [Controller Agent/src]:
    [waterfall_controller.py], [telemetry_listener.py] and [controller.py],
    and of the relay client [relay_controller.py].

    Conventions of the embedding.
    - A Python [float] is an exact rational ([Q]); the two places where the
      code uses [float('inf')] ([best_score], [time_to_lock]) carry an
      explicit infinity ([ext]).  NaN is not represented.
    - A Python [str] is a [string]; a [dict] is an association list kept in
      insertion order ([Dict]); a [list] is a [list].
    - Exceptions are values of [exn] threaded through [result].
    - Sockets, clocks and files are explicit components of the state or
      explicit inputs of the function that reads them. *)

From Stdlib Require Import NArith ZArith QArith Qabs Qround Qminmax.
From Stdlib Require Import List String Ascii Bool Lia Lqa.
Import ListNotations.

Local Open Scope string_scope.
Local Open Scope Q_scope.

(** ** Python dictionaries, as insertion-ordered association lists *)

Module Dict.
Section WithValue.
Context {V : Type}.

Definition t := list (string * V).

Definition empty : t := [].

(** [d.get(k)] *)
Fixpoint get (d : t) (k : string) : option V :=
  match d with
  | [] => None
  | (k', v) :: d' => if String.eqb k k' then Some v else get d' k
  end.

(** [k in d] *)
Definition mem (d : t) (k : string) : bool :=
  match get d k with Some _ => true | None => false end.

(** [d[k] = v]: an existing key keeps its position, a new one goes last. *)
Fixpoint set (d : t) (k : string) (v : V) : t :=
  match d with
  | [] => [(k, v)]
  | (k', v') :: d' =>
      if String.eqb k k' then (k', v) :: d' else (k', v') :: set d' k v
  end.

(** [dict(pairs)] and the dict comprehension over [zip]. *)
Definition of_pairs (ps : list (string * V)) : t :=
  fold_left (fun d kv => set d (fst kv) (snd kv)) ps empty.

(** truthiness of a dict *)
Definition nonempty (d : t) : bool :=
  match d with [] => false | _ => true end.
End WithValue.
Arguments t : clear implicits.
End Dict.

(** ** Remote parameter client ([waterfall_controller.py]) *)

Module Waterfall.

Record TickParameters := {
  threshold : Q; adapt_down : Q; adapt_up : Q; min_duration : Q }.

Record CorrelatorParameters := { confidence : Q; max_misses : Z }.

Record MarkerParameters := {
  m_threshold : Q; m_adapt_rate : Q; m_min_duration : Q }.

Record SyncParameters := {
  weight_tick : Q; weight_marker : Q; weight_p_marker : Q;
  weight_tick_hole : Q; weight_combined : Q;
  locked_threshold : Q; min_retain : Q; tentative_init : Q;
  decay_normal : Q; decay_recovering : Q;
  tick_tolerance : Q; marker_tolerance : Q; p_marker_tolerance : Q }.

(** The argument interpolated into a command line: a float, or the
    [int(value)] that [set_corr_max_misses] sends. *)
Inductive cmd_arg := AFloat (q : Q) | AInt (z : Z).

(** A command line [f"{name} {arg}\n"]. *)
Definition command := (string * cmd_arg)%type.

(** The controller object.  [socket] tells whether [connect] has been
    called; [wire] is what [sendto] has handed to the network, oldest
    first; [faults] are the outcomes of the coming [sendto] calls
    ([true]: the call raises [socket.error]); once exhausted, calls succeed. *)
Record controller := {
  socket : bool;
  wire : list command;
  faults : list bool;
  tick_params : TickParameters;
  corr_params : CorrelatorParameters;
  marker_params : MarkerParameters;
  sync_params : SyncParameters }.

Definition init : controller :=
  {| socket := false; wire := []; faults := [];
     tick_params := {| threshold := 0; adapt_down := 0; adapt_up := 0;
                       min_duration := 0 |};
     corr_params := {| confidence := 8 # 10; max_misses := 5 |};
     marker_params := {| m_threshold := 3; m_adapt_rate := 1 # 1000;
                         m_min_duration := 500 |};
     sync_params := {| weight_tick := 5 # 100; weight_marker := 40 # 100;
                       weight_p_marker := 15 # 100;
                       weight_tick_hole := 20 # 100;
                       weight_combined := 50 # 100;
                       locked_threshold := 70 # 100;
                       min_retain := 5 # 100; tentative_init := 30 # 100;
                       decay_normal := 9999 # 10000;
                       decay_recovering := 98 # 100;
                       tick_tolerance := 100; marker_tolerance := 500;
                       p_marker_tolerance := 200 |} |}.

Definition connect (c : controller) : controller :=
  {| socket := true; wire := wire c; faults := faults c;
     tick_params := tick_params c; corr_params := corr_params c;
     marker_params := marker_params c; sync_params := sync_params c |}.

Definition with_net (c : controller) (w : list command) (f : list bool)
  : controller :=
  {| socket := socket c; wire := w; faults := f;
     tick_params := tick_params c; corr_params := corr_params c;
     marker_params := marker_params c; sync_params := sync_params c |}.

(** [_send]: [False] without a socket or when [sendto] raises. *)
Definition _send (cmd : command) (c : controller) : bool * controller :=
  if socket c then
    match faults c with
    | true :: f => (false, with_net c (wire c) f)
    | false :: f => (true, with_net c (wire c ++ [cmd]) f)
    | [] => (true, with_net c (wire c ++ [cmd]) [])
    end
  else (false, c).

Definition with_tick (c : controller) (p : TickParameters) : controller :=
  {| socket := socket c; wire := wire c; faults := faults c;
     tick_params := p; corr_params := corr_params c;
     marker_params := marker_params c; sync_params := sync_params c |}.

Definition with_corr (c : controller) (p : CorrelatorParameters)
  : controller :=
  {| socket := socket c; wire := wire c; faults := faults c;
     tick_params := tick_params c; corr_params := p;
     marker_params := marker_params c; sync_params := sync_params c |}.

Definition with_marker (c : controller) (p : MarkerParameters)
  : controller :=
  {| socket := socket c; wire := wire c; faults := faults c;
     tick_params := tick_params c; corr_params := corr_params c;
     marker_params := p; sync_params := sync_params c |}.

Definition with_sync (c : controller) (p : SyncParameters) : controller :=
  {| socket := socket c; wire := wire c; faults := faults c;
     tick_params := tick_params c; corr_params := corr_params c;
     marker_params := marker_params c; sync_params := p |}.

(** [int(value)] of a float: truncation towards zero. *)
Definition py_int_of_float (q : Q) : Z :=
  if Qle_bool 0 q then Qfloor q else Qceiling q.

(** *** The twenty-two setters: store the value, send the command *)

Definition setter := Q -> controller -> bool * controller.

Definition set_tick_threshold : setter := fun v c =>
  let p := tick_params c in
  _send ("SET_TICK_THRESHOLD", AFloat v)
    (with_tick c {| threshold := v; adapt_down := adapt_down p;
                    adapt_up := adapt_up p;
                    min_duration := min_duration p |}).

Definition set_tick_adapt_down : setter := fun v c =>
  let p := tick_params c in
  _send ("SET_TICK_ADAPT_DOWN", AFloat v)
    (with_tick c {| threshold := threshold p; adapt_down := v;
                    adapt_up := adapt_up p;
                    min_duration := min_duration p |}).

Definition set_tick_adapt_up : setter := fun v c =>
  let p := tick_params c in
  _send ("SET_TICK_ADAPT_UP", AFloat v)
    (with_tick c {| threshold := threshold p; adapt_down := adapt_down p;
                    adapt_up := v; min_duration := min_duration p |}).

Definition set_tick_min_duration : setter := fun v c =>
  let p := tick_params c in
  _send ("SET_TICK_MIN_DURATION", AFloat v)
    (with_tick c {| threshold := threshold p; adapt_down := adapt_down p;
                    adapt_up := adapt_up p; min_duration := v |}).

Definition set_corr_confidence : setter := fun v c =>
  let p := corr_params c in
  _send ("SET_CORR_CONFIDENCE", AFloat v)
    (with_corr c {| confidence := v; max_misses := max_misses p |}).

Definition set_corr_max_misses : setter := fun v c =>
  let p := corr_params c in
  _send ("SET_CORR_MAX_MISSES", AInt (py_int_of_float v))
    (with_corr c {| confidence := confidence p;
                    max_misses := py_int_of_float v |}).

Definition set_marker_threshold : setter := fun v c =>
  let p := marker_params c in
  _send ("SET_MARKER_THRESHOLD", AFloat v)
    (with_marker c {| m_threshold := v; m_adapt_rate := m_adapt_rate p;
                      m_min_duration := m_min_duration p |}).

Definition set_marker_adapt_rate : setter := fun v c =>
  let p := marker_params c in
  _send ("SET_MARKER_ADAPT_RATE", AFloat v)
    (with_marker c {| m_threshold := m_threshold p; m_adapt_rate := v;
                      m_min_duration := m_min_duration p |}).

Definition set_marker_min_duration : setter := fun v c =>
  let p := marker_params c in
  _send ("SET_MARKER_MIN_DURATION", AFloat v)
    (with_marker c {| m_threshold := m_threshold p;
                      m_adapt_rate := m_adapt_rate p;
                      m_min_duration := v |}).

(** The thirteen sync setters differ in the field and the command name. *)
Definition sync_setter (name : string)
    (upd : Q -> SyncParameters -> SyncParameters) : setter := fun v c =>
  _send (name, AFloat v) (with_sync c (upd v (sync_params c))).

Definition upd_sync (i : nat) (v : Q) (p : SyncParameters)
  : SyncParameters :=
  let pick (j : nat) (old : Q) := if Nat.eqb i j then v else old in
  {| weight_tick := pick 0%nat (weight_tick p);
     weight_marker := pick 1%nat (weight_marker p);
     weight_p_marker := pick 2%nat (weight_p_marker p);
     weight_tick_hole := pick 3%nat (weight_tick_hole p);
     weight_combined := pick 4%nat (weight_combined p);
     locked_threshold := pick 5%nat (locked_threshold p);
     min_retain := pick 6%nat (min_retain p);
     tentative_init := pick 7%nat (tentative_init p);
     decay_normal := pick 8%nat (decay_normal p);
     decay_recovering := pick 9%nat (decay_recovering p);
     tick_tolerance := pick 10%nat (tick_tolerance p);
     marker_tolerance := pick 11%nat (marker_tolerance p);
     p_marker_tolerance := pick 12%nat (p_marker_tolerance p) |}.

Definition set_sync_weight_tick :=
  sync_setter "SET_SYNC_WEIGHT_TICK" (upd_sync 0).
Definition set_sync_weight_marker :=
  sync_setter "SET_SYNC_WEIGHT_MARKER" (upd_sync 1).
Definition set_sync_weight_p_marker :=
  sync_setter "SET_SYNC_WEIGHT_P_MARKER" (upd_sync 2).
Definition set_sync_weight_tick_hole :=
  sync_setter "SET_SYNC_WEIGHT_TICK_HOLE" (upd_sync 3).
Definition set_sync_weight_combined :=
  sync_setter "SET_SYNC_WEIGHT_COMBINED" (upd_sync 4).
Definition set_sync_locked_threshold :=
  sync_setter "SET_SYNC_LOCKED_THRESHOLD" (upd_sync 5).
Definition set_sync_min_retain :=
  sync_setter "SET_SYNC_MIN_RETAIN" (upd_sync 6).
Definition set_sync_tentative_init :=
  sync_setter "SET_SYNC_TENTATIVE_INIT" (upd_sync 7).
Definition set_sync_decay_normal :=
  sync_setter "SET_SYNC_DECAY_NORMAL" (upd_sync 8).
Definition set_sync_decay_recovering :=
  sync_setter "SET_SYNC_DECAY_RECOVERING" (upd_sync 9).
Definition set_sync_tick_tolerance :=
  sync_setter "SET_SYNC_TICK_TOLERANCE" (upd_sync 10).
Definition set_sync_marker_tolerance :=
  sync_setter "SET_SYNC_MARKER_TOLERANCE" (upd_sync 11).
Definition set_sync_p_marker_tolerance :=
  sync_setter "SET_SYNC_P_MARKER_TOLERANCE" (upd_sync 12).

(** *** Static tables *)

Definition PARAM_BOUNDS : Dict.t (Q * Q) :=
  [ ("threshold", (1, 5));
    ("adapt_down", (9 # 10, 999 # 1000));
    ("adapt_up", (1 # 1000, 1 # 10));
    ("min_duration", (1, 10));
    ("confidence", (5 # 10, 95 # 100));
    ("max_misses", (2, 10));
    ("marker_threshold", (2, 5));
    ("marker_adapt_rate", (1 # 10000, 1 # 100));
    ("marker_min_duration", (300, 700));
    ("sync_weight_tick", (1 # 100, 2 # 10));
    ("sync_weight_marker", (1 # 10, 6 # 10));
    ("sync_weight_p_marker", (5 # 100, 3 # 10));
    ("sync_weight_tick_hole", (5 # 100, 4 # 10));
    ("sync_weight_combined", (2 # 10, 8 # 10));
    ("sync_locked_threshold", (5 # 10, 9 # 10));
    ("sync_min_retain", (1 # 100, 2 # 10));
    ("sync_tentative_init", (1 # 10, 5 # 10));
    ("sync_decay_normal", (99 # 100, 9999 # 10000));
    ("sync_decay_recovering", (90 # 100, 99 # 100));
    ("sync_tick_tolerance", (50, 200));
    ("sync_marker_tolerance", (200, 800));
    ("sync_p_marker_tolerance", (100, 400)) ].

Definition tick_names : list string :=
  ["threshold"; "adapt_down"; "adapt_up"; "min_duration"].
Definition corr_names : list string := ["confidence"; "max_misses"].
Definition marker_names : list string :=
  ["marker_threshold"; "marker_adapt_rate"; "marker_min_duration"].
Definition sync_names : list string :=
  ["sync_weight_tick"; "sync_weight_marker"; "sync_weight_p_marker";
   "sync_weight_tick_hole"; "sync_weight_combined";
   "sync_locked_threshold"; "sync_min_retain"; "sync_tentative_init";
   "sync_decay_normal"; "sync_decay_recovering";
   "sync_tick_tolerance"; "sync_marker_tolerance";
   "sync_p_marker_tolerance"].

(** The literal of the [else] branches (commented ['all'] in the source). *)
Definition all_names : list string :=
  ["threshold"; "adapt_down"; "adapt_up"; "min_duration";
   "confidence"; "max_misses";
   "marker_threshold"; "marker_adapt_rate"; "marker_min_duration";
   "sync_weight_tick"; "sync_weight_marker"; "sync_weight_p_marker";
   "sync_weight_tick_hole"; "sync_weight_combined";
   "sync_locked_threshold"; "sync_min_retain"; "sync_tentative_init";
   "sync_decay_normal"; "sync_decay_recovering";
   "sync_tick_tolerance"; "sync_marker_tolerance";
   "sync_p_marker_tolerance"].

(** [get_param_names] *)
Definition get_param_names (mode : string) : list string :=
  if String.eqb mode "tick" then tick_names
  else if String.eqb mode "corr" then corr_names
  else if String.eqb mode "marker" then marker_names
  else if String.eqb mode "sync" then sync_names
  else all_names.

(** [self.PARAM_BOUNDS[name]]; every name used below is a key of the
    table, so the [KeyError] case is not reached. *)
Definition bound (name : string) : Q * Q :=
  match Dict.get PARAM_BOUNDS name with
  | Some b => b
  | None => (0, 0)
  end.

(** [get_bounds] *)
Definition get_bounds (mode : string) : list (Q * Q) :=
  if String.eqb mode "tick" then
    [bound "threshold"; bound "adapt_down"; bound "adapt_up";
     bound "min_duration"]
  else if String.eqb mode "corr" then
    [bound "confidence"; bound "max_misses"]
  else if String.eqb mode "marker" then
    [bound "marker_threshold"; bound "marker_adapt_rate";
     bound "marker_min_duration"]
  else if String.eqb mode "sync" then
    [bound "sync_weight_tick"; bound "sync_weight_marker";
     bound "sync_weight_p_marker"; bound "sync_weight_tick_hole";
     bound "sync_weight_combined"; bound "sync_locked_threshold";
     bound "sync_min_retain"; bound "sync_tentative_init";
     bound "sync_decay_normal"; bound "sync_decay_recovering";
     bound "sync_tick_tolerance"; bound "sync_marker_tolerance";
     bound "sync_p_marker_tolerance"]
  else
    [bound "threshold"; bound "adapt_down"; bound "adapt_up";
     bound "min_duration"; bound "confidence"; bound "max_misses";
     bound "marker_threshold"; bound "marker_adapt_rate";
     bound "marker_min_duration";
     bound "sync_weight_tick"; bound "sync_weight_marker";
     bound "sync_weight_p_marker"; bound "sync_weight_tick_hole";
     bound "sync_weight_combined"; bound "sync_locked_threshold";
     bound "sync_min_retain"; bound "sync_tentative_init";
     bound "sync_decay_normal"; bound "sync_decay_recovering";
     bound "sync_tick_tolerance"; bound "sync_marker_tolerance";
     bound "sync_p_marker_tolerance"].

(** The chain of [if 'k' in params: success &= self.set_k(params['k'])]
    of [set_parameters], in source order. *)
Definition dispatch : list (string * setter) :=
  [ ("threshold", set_tick_threshold);
    ("adapt_down", set_tick_adapt_down);
    ("adapt_up", set_tick_adapt_up);
    ("min_duration", set_tick_min_duration);
    ("confidence", set_corr_confidence);
    ("max_misses", set_corr_max_misses);
    ("marker_threshold", set_marker_threshold);
    ("marker_adapt_rate", set_marker_adapt_rate);
    ("marker_min_duration", set_marker_min_duration);
    ("sync_weight_tick", set_sync_weight_tick);
    ("sync_weight_marker", set_sync_weight_marker);
    ("sync_weight_p_marker", set_sync_weight_p_marker);
    ("sync_weight_tick_hole", set_sync_weight_tick_hole);
    ("sync_weight_combined", set_sync_weight_combined);
    ("sync_locked_threshold", set_sync_locked_threshold);
    ("sync_min_retain", set_sync_min_retain);
    ("sync_tentative_init", set_sync_tentative_init);
    ("sync_decay_normal", set_sync_decay_normal);
    ("sync_decay_recovering", set_sync_decay_recovering);
    ("sync_tick_tolerance", set_sync_tick_tolerance);
    ("sync_marker_tolerance", set_sync_marker_tolerance);
    ("sync_p_marker_tolerance", set_sync_p_marker_tolerance) ].

(** [set_parameters]: every present key is sent, also after a failure;
    the result is the conjunction of the sends. *)
Definition set_parameters (params : Dict.t Q) (c : controller)
  : bool * controller :=
  fold_left
    (fun (acc : bool * controller) (ks : string * setter) =>
       let '(success, c) := acc in
       match Dict.get params (fst ks) with
       | Some v => let '(ok, c') := snd ks v c in (andb success ok, c')
       | None => (success, c)
       end)
    dispatch (true, c).

(** [set_parameters_from_array] *)
Definition set_parameters_from_array (values : list Q) (mode : string)
    (c : controller) : bool * controller :=
  let param_names :=
    if String.eqb mode "tick" then tick_names
    else if String.eqb mode "corr" then corr_names
    else if String.eqb mode "marker" then marker_names
    else if String.eqb mode "sync" then sync_names
    else all_names in
  set_parameters (Dict.of_pairs (combine param_names values)) c.

End Waterfall.

(** ** Text and numbers: the Python built-ins the sources call *)

Module Py.

Inductive exn := UnicodeDecodeError | ValueError | IndexError | OSError.

Inductive result (A : Type) := Return (a : A) | Raise (e : exn).
Arguments Return {A} a.
Arguments Raise {A} e.

(** Extended floats: the finite ones and [float('inf')]. *)
Inductive ext := Fin (q : Q) | PInf.

(** [a < b] on floats one of which may be [inf]. *)
Definition ext_ltb (a b : ext) : bool :=
  match a, b with
  | Fin x, Fin y => negb (Qle_bool y x)
  | Fin _, PInf => true
  | PInf, _ => false
  end.

(** [min(a, c)] for a finite [c]. *)
Definition ext_min (a : ext) (c : Q) : Q :=
  match a with
  | Fin x => if negb (Qle_bool x c) then c else x
  | PInf => c
  end.

(** [a < b], [min], [max], [abs] on finite floats. *)
Definition ltb (a b : Q) : bool := negb (Qle_bool b a).
Definition min (a b : Q) : Q := if ltb b a then b else a.
Definition max (a b : Q) : Q := if ltb a b then b else a.
Definition abs (a : Q) : Q := Qabs a.

(** [sum(l)] *)
Definition sum (l : list Q) : Q := fold_left Qplus l 0.

(** *** Strings *)

Definition comma : ascii := ","%char.
Definition dot : ascii := "."%char.

(** White space of [str.strip()], restricted to one-byte characters:
    TAB..CR, FS..US and the space. *)
Definition is_space (c : ascii) : bool :=
  let n := N_of_ascii c in
  ((9 <=? n) && (n <=? 13) || (28 <=? n) && (n <=? 32))%N.

Fixpoint lstrip (s : string) : string :=
  match s with
  | String c s' => if is_space c then lstrip s' else s
  | EmptyString => EmptyString
  end.

(** Drops trailing white space: a character is kept when something
    non-blank follows it or when it is itself non-blank. *)
Fixpoint rstrip (s : string) : string :=
  match s with
  | EmptyString => EmptyString
  | String c s' =>
      match rstrip s' with
      | EmptyString => if is_space c then EmptyString
                       else String c EmptyString
      | r => String c r
      end
  end.

(** [s.strip()] *)
Definition strip (s : string) : string := rstrip (lstrip s).

(** [s.split(',', 1)]: the text before the first comma and, when there is
    a comma, the text after it. *)
Fixpoint split_first (s : string) : string * option string :=
  match s with
  | EmptyString => (EmptyString, None)
  | String c s' =>
      if Ascii.eqb c comma then (EmptyString, Some s')
      else let '(h, r) := split_first s' in (String c h, r)
  end.

(** [s.split(',')]: one field more than there are commas. *)
Fixpoint split (s : string) : list string :=
  match s with
  | EmptyString => [EmptyString]
  | String c s' =>
      if Ascii.eqb c comma then EmptyString :: split s'
      else match split s' with
           | f :: fs => String c f :: fs
           | [] => [String c EmptyString]
           end
  end.

(** *** [bytes.decode('utf-8')], strict: well-formed sequences only
    (no overlong forms, no surrogates, nothing above U+10FFFF).  The text is
    kept in its UTF-8 encoding. *)

Definition between (lo hi b : N) : bool := ((lo <=? b) && (b <=? hi))%N.
Definition cont (b : N) : bool := between 128 191 b.

Fixpoint utf8_ok (l : list N) : bool :=
  match l with
  | [] => true
  | b0 :: t0 =>
      if (b0 <? 128)%N then utf8_ok t0
      else if between 194 223 b0 then
        match t0 with
        | b1 :: t1 => cont b1 && utf8_ok t1
        | _ => false
        end
      else if between 224 239 b0 then
        match t0 with
        | b1 :: b2 :: t2 =>
            (if (b0 =? 224)%N then between 160 191 b1
             else if (b0 =? 237)%N then between 128 159 b1
             else cont b1)
            && cont b2 && utf8_ok t2
        | _ => false
        end
      else if between 240 244 b0 then
        match t0 with
        | b1 :: b2 :: b3 :: t3 =>
            (if (b0 =? 240)%N then between 144 191 b1
             else if (b0 =? 244)%N then between 128 143 b1
             else cont b1)
            && cont b2 && cont b3 && utf8_ok t3
        | _ => false
        end
      else false
  end.

Definition decode_utf8 (data : list Byte.byte) : result string :=
  if utf8_ok (map Byte.to_N data) then Return (string_of_list_byte data)
  else Raise UnicodeDecodeError.

(** *** [float(s)] and [int(s)] on decimal text

    The grammar covered is: optional surrounding white space, an optional
    sign, digits with at most one decimal point and at least one digit
    ([int]: digits only).  Exponents, [inf]/[nan] and digit-group
    underscores, which Python also reads, are outside it and are answered
    with [None] (the [ValueError] case). *)

Definition digit_of (c : ascii) : option N :=
  let n := N_of_ascii c in
  if between 48 57 n then Some (n - 48)%N else None.

(** Reads digits and at most one point; [m] is the number read so far,
    [k] the count of digits after the point once it was met, [seen]
    whether a digit was met. *)
Fixpoint scan (s : string) (m : N) (k : option nat) (seen : bool)
  : option (N * option nat) :=
  match s with
  | EmptyString => if seen then Some (m, k) else None
  | String c s' =>
      if Ascii.eqb c dot then
        match k with
        | None => scan s' m (Some O) seen
        | Some _ => None
        end
      else
        match digit_of c with
        | Some d => scan s' (10 * m + d)%N (option_map S k) true
        | None => None
        end
  end.

Definition split_sign (s : string) : bool * string :=
  match s with
  | String "-" s' => (true, s')
  | String "+" s' => (false, s')
  | _ => (false, s)
  end.

Definition pow10 (k : nat) : positive := Pos.pow 10 (Pos.of_nat k).

(** the positive [10^k], also for [k = 0] *)
Definition ten_to (k : option nat) : positive :=
  match k with
  | None | Some O => 1%positive
  | Some n => pow10 n
  end.

Definition py_float (s : string) : option Q :=
  let '(neg, body) := split_sign (strip s) in
  match scan body 0 None false with
  | Some (m, k) =>
      let z := Z.of_N m in
      Some (Qmake (if neg then - z else z)%Z (ten_to k))
  | None => None
  end.

Definition py_int (s : string) : option Z :=
  let '(neg, body) := split_sign (strip s) in
  match scan body 0 None false with
  | Some (m, None) => let z := Z.of_N m in Some (if neg then - z else z)%Z
  | _ => None
  end.

(** *** Formatting: [f"{x:.6f}"], [f"{x:.2f}"], [f"{int(x)}"] *)

(** Nearest integer, ties to even. *)
Definition round_half_even (q : Q) : Z :=
  let f := Qfloor q in
  match Qcompare (q - inject_Z f) (1 # 2) with
  | Lt => f
  | Gt => (f + 1)%Z
  | Eq => if Z.even f then f else (f + 1)%Z
  end.

Definition digit_char (d : N) : ascii := ascii_of_N (48 + d).

(** The last [w] decimal digits of [n], most significant first. *)
Fixpoint fixed_digits (w : nat) (n : N) : string :=
  match w with
  | O => EmptyString
  | S w' =>
      String (digit_char ((n / 10 ^ N.of_nat w') mod 10)%N)
             (fixed_digits w' n)
  end.

(** How many decimal digits [n] has ([0] for [0]). *)
Fixpoint ndigits_aux (fuel : nat) (n : N) : nat :=
  match fuel with
  | O => O
  | S fuel' => if (n =? 0)%N then O else S (ndigits_aux fuel' (n / 10)%N)
  end.

Definition ndigits (n : N) : nat := ndigits_aux (N.to_nat (N.size n)) n.

(** [str(n)] for a natural number: no leading zero, ["0"] for zero. *)
Definition dec (n : N) : string := fixed_digits (Nat.max 1 (ndigits n)) n.

(** [f"{q:.{w}f}"] for [w >= 1]: the value rounded to [w] decimals; the
    sign is that of [q], also when the digits are all zero. *)
Definition fmt_fixed (w : nat) (q : Q) : string :=
  let scale := (10 ^ N.of_nat w)%N in
  let a := Z.to_N (Z.abs (round_half_even (q * inject_Z (Z.of_N scale)))) in
  (if ltb q 0 then "-" else "")
  ++ dec (a / scale)%N ++ String dot (fixed_digits w (a mod scale)%N).

(** [f"{z}"] for an integer. *)
Definition fmt_int (z : Z) : string :=
  ((if z <? 0 then "-" else "")%Z ++ dec (Z.to_N (Z.abs z)))%string.

(** [s.lower()] on the letters A..Z. *)
Definition lower_char (c : ascii) : ascii :=
  let n := N_of_ascii c in
  if between 65 90 n then ascii_of_N (n + 32) else c.

Fixpoint lower (s : string) : string :=
  match s with
  | EmptyString => EmptyString
  | String c s' => String (lower_char c) (lower s')
  end.

(** Text without white space: [strip] leaves it as it is. *)
Fixpoint no_space (s : string) : bool :=
  match s with
  | EmptyString => true
  | String c s' => negb (is_space c) && no_space s'
  end.

(** The scaled integer that [fmt_fixed w] prints. *)
Definition scaled (w : nat) (q : Q) : Z :=
  round_half_even (q * inject_Z (Z.of_N (10 ^ N.of_nat w))).

End Py.

(** ** Telemetry ingestor and metric aggregator ([telemetry_listener.py]) *)

Module Telemetry.
Import Py.

(** The values a [parsed] dict holds. *)
Inductive pyval := VStr (s : string) | VFloat (q : Q) | VInt (z : Z).

Record TelemetryMessage := {
  channel : string;
  timestamp : Q;
  data : string;
  parsed : Dict.t pyval }.

(** *** Filling [parsed]

    The parser assigns keys one statement after the other; a statement
    that raises leaves the assignments made so far in place.  [build] is
    such a block of statements: from the dict before, the dict after and
    the exception that stopped the block, if any. *)

Definition build := Dict.t pyval -> Dict.t pyval * option exn.

Definition skip : build := fun d => (d, None).

Definition seq (p q : build) : build := fun d =>
  match p d with
  | (d', None) => q d'
  | stopped => stopped
  end.

Declare Scope build_scope.
Delimit Scope build_scope with build.
Bind Scope build_scope with build.
Notation "p ;; q" := (seq p q)
  (at level 61, right associativity) : build_scope.

(** [parsed[k] = e] *)
Definition assign (k : string) (e : result pyval) : build := fun d =>
  match e with
  | Return v => (Dict.set d k v, None)
  | Raise x => (d, Some x)
  end.

(** [parsed[k] = e(parsed)] *)
Definition assign_from (k : string) (e : Dict.t pyval -> result pyval)
  : build := fun d => assign k (e d) d.

(** [if b: p] *)
Definition when (b : bool) (p : build) : build := if b then p else skip.

(** [try: p  except (ValueError, IndexError): pass] *)
Definition try_pass (p : build) : build := fun d =>
  match p d with
  | (d', Some ValueError) | (d', Some IndexError) => (d', None)
  | other => other
  end.

Definition truthy (s : string) : bool :=
  match s with EmptyString => false | _ => true end.

(** [float(f) if f else 0.0] *)
Definition float_or_zero (f : string) : result pyval :=
  if truthy f then
    match py_float f with
    | Some q => Return (VFloat q)
    | None => Raise ValueError
    end
  else Return (VFloat 0).

(** [int(f) if f else 0] *)
Definition int_or_zero (f : string) : result pyval :=
  if truthy f then
    match py_int f with
    | Some z => Return (VInt z)
    | None => Raise ValueError
    end
  else Return (VInt 0).

(** [fields[i]]; every use is under a [len(fields) >= n] test with
    [i < n]. *)
Definition field (fields : list string) (i : nat) : string :=
  nth i fields EmptyString.

(** [abs(parsed['interval_ms'] - 1000.0)] *)
Definition interval_error (d : Dict.t pyval) : result pyval :=
  match Dict.get d "interval_ms" with
  | Some (VFloat q) => Return (VFloat (abs (q - 1000)))
  | _ => Raise ValueError
  end.

Definition corr_block (f : nat -> string) : build :=
  (assign "time_str" (Return (VStr (f 0%nat))) ;;
   assign "timestamp_ms" (float_or_zero (f 1%nat)) ;;
   assign "tick_num" (int_or_zero (f 2%nat)) ;;
   assign "expected" (Return (VStr (f 3%nat))) ;;
   assign "energy_peak" (float_or_zero (f 4%nat)) ;;
   assign "duration_ms" (float_or_zero (f 5%nat)) ;;
   assign "interval_ms" (float_or_zero (f 6%nat)) ;;
   assign "avg_interval_ms" (float_or_zero (f 7%nat)) ;;
   assign "noise_floor" (float_or_zero (f 8%nat)) ;;
   assign "corr_peak" (float_or_zero (f 9%nat)) ;;
   assign "corr_ratio" (float_or_zero (f 10%nat)) ;;
   assign "chain_id" (int_or_zero (f 11%nat)) ;;
   assign "chain_length" (int_or_zero (f 12%nat)) ;;
   assign "chain_start_ms" (float_or_zero (f 13%nat)) ;;
   assign "cumulative_drift_ms" (float_or_zero (f 14%nat)) ;;
   assign_from "interval_error_ms" interval_error)%build.

Definition mark_block (f : nat -> string) (n : nat) : build :=
  (assign "time_str" (Return (VStr (f 0%nat))) ;;
   assign "timestamp_ms" (float_or_zero (f 1%nat)) ;;
   assign "marker_num" (int_or_zero (f 2%nat)) ;;
   assign "peak_energy" (float_or_zero (f 3%nat)) ;;
   assign "duration_ms" (float_or_zero (f 4%nat)) ;;
   assign "since_last_sec" (float_or_zero (f 5%nat)) ;;
   assign "confidence"
     (Return (VStr (if (6 <? n)%nat then f 6%nat else "UNKNOWN"))))%build.

(** [_parse_channel_data]: the dict built and, for the channels whose
    conversions are not guarded (TICK, CHAN), the exception that escapes. *)
Definition _parse_channel_data (channel data : string)
  : Dict.t pyval * option exn :=
  let fields := if truthy data then split data else [] in
  let n := List.length fields in
  let f := field fields in
  let body : build :=
    if String.eqb channel "CORR" then
      try_pass (when (15 <=? n)%nat (corr_block f))
    else if String.eqb channel "TICK" then
      (when (1 <=? n)%nat (assign "tick_type" (Return (VStr (f 0%nat)))) ;;
       when (2 <=? n)%nat (assign "sample_offset" (int_or_zero (f 1%nat))))
      %build
    else if String.eqb channel "CHAN" then
      (when (1 <=? n)%nat (assign "carrier_db" (float_or_zero (f 0%nat))) ;;
       when (2 <=? n)%nat (assign "snr_db" (float_or_zero (f 1%nat))) ;;
       when (3 <=? n)%nat (assign "noise_db" (float_or_zero (f 2%nat))))
      %build
    else if String.eqb channel "RESP" then
      assign "response" (Return (VStr data))
    else if String.eqb channel "MARK" then
      try_pass (when (8 <=? n)%nat (mark_block f n))
    else if String.eqb channel "SYNC" then
      try_pass
        (when (2 <=? n)%nat
           (assign "state" (Return (VStr (f 0%nat))) ;;
            assign "confidence" (float_or_zero (f 1%nat))) ;;
         when (3 <=? n)%nat (assign "reason" (Return (VStr (f 2%nat)))))
      %build
    else skip in
  body Dict.empty.

(** The body of the [try] of [_parse_message]; [now] is what
    [time.time()] returns.  The test [len(parts) < 1] of the source never
    holds ([split] returns at least one part) and has no counterpart. *)
Definition parse_body (now : Q) (bytes : list Byte.byte)
  : result (option TelemetryMessage) :=
  match decode_utf8 bytes with
  | Raise e => Raise e
  | Return raw =>
      let text := strip raw in
      if negb (truthy text) then Return None
      else
        let '(channel, rest) := split_first text in
        let csv_data := match rest with Some r => r | None => "" end in
        match _parse_channel_data channel csv_data with
        | (_, Some e) => Raise e
        | (parsed, None) =>
            Return (Some {| channel := channel; timestamp := now;
                            data := csv_data; parsed := parsed |})
        end
  end.

(** [_parse_message]: [except Exception: return None] around the body. *)
Definition _parse_message (now : Q) (bytes : list Byte.byte)
  : result (option TelemetryMessage) :=
  match parse_body now bytes with
  | Return r => Return r
  | Raise _ => Return None
  end.

(** *** The listener's shared state and its receive loop *)

Record marker_event := { me_timestamp : Q; me_parsed : Dict.t pyval }.

Record sync_sample := {
  ss_timestamp : Q; ss_state : string; ss_confidence : Q }.

Record listener := {
  latest : Dict.t TelemetryMessage;
  marker_events : list marker_event;
  sync_states : list sync_sample;
  message_queue : list TelemetryMessage }.

Definition fresh : listener :=
  {| latest := []; marker_events := []; sync_states := [];
     message_queue := [] |}.

Definition queue_maxsize : nat := 1000.

(** [msg.parsed.get('state', 'UNKNOWN')] *)
Definition state_of (d : Dict.t pyval) : string :=
  match Dict.get d "state" with Some (VStr s) => s | _ => "UNKNOWN" end.

(** [d.get(k, default)] for a numeric entry *)
Definition num (d : Dict.t pyval) (k : string) (default : Q) : Q :=
  match Dict.get d k with
  | Some (VFloat q) => q
  | Some (VInt z) => inject_Z z
  | _ => default
  end.

(** What the loop does with a parsed message. *)
Definition store (msg : TelemetryMessage) (st : listener) : listener :=
  let live := Dict.nonempty (parsed msg) in
  {| latest := Dict.set (latest st) (channel msg) msg;
     marker_events :=
       if String.eqb (channel msg) "MARK" && live
       then marker_events st ++
            [{| me_timestamp := timestamp msg; me_parsed := parsed msg |}]
       else marker_events st;
     sync_states :=
       if String.eqb (channel msg) "SYNC" && live
       then sync_states st ++
            [{| ss_timestamp := timestamp msg;
                ss_state := state_of (parsed msg);
                ss_confidence := num (parsed msg) "confidence" 0 |}]
       else sync_states st;
     message_queue :=
       if (List.length (message_queue st) <? queue_maxsize)%nat
       then message_queue st ++ [msg] else message_queue st |}.

(** One pass of the loop body for a received datagram. *)
Definition on_datagram (now : Q) (bytes : list Byte.byte) (st : listener)
  : result listener :=
  match _parse_message now bytes with
  | Raise e => Raise e
  | Return None => Return st
  | Return (Some msg) => Return (store msg st)
  end.

(** What [recvfrom] gives in one pass: a datagram (with the clock at
    that time) or [socket.timeout]. *)
Inductive recv := Datagram (now : Q) (bytes : list Byte.byte) | Timeout.

(** [_listen_loop] over the passes made while [running] holds. *)
Fixpoint _listen_loop (passes : list recv) (st : listener)
  : result listener :=
  match passes with
  | [] => Return st
  | Timeout :: rest => _listen_loop rest st
  | Datagram now bytes :: rest =>
      match on_datagram now bytes st with
      | Return st' => _listen_loop rest st'
      | Raise e => Raise e
      end
  end.

Definition get_latest (st : listener) (ch : string)
  : option TelemetryMessage := Dict.get (latest st) ch.

(** [get_correlation_metrics] *)
Definition get_correlation_metrics (st : listener) : Dict.t pyval :=
  match get_latest st "CORR" with
  | Some msg => if Dict.nonempty (parsed msg) then parsed msg else []
  | None => []
  end.

Definition clear_marker_events (st : listener) : listener :=
  {| latest := latest st; marker_events := [];
     sync_states := sync_states st; message_queue := message_queue st |}.

Definition clear_sync_states (st : listener) : listener :=
  {| latest := latest st; marker_events := marker_events st;
     sync_states := []; message_queue := message_queue st |}.

Definition get_marker_count (st : listener) : nat :=
  List.length (marker_events st).

(** *** Metrics *)

Definition of_nat (n : nat) : Q := inject_Z (Z.of_nat n).

(** Gaps between consecutive values. *)
Fixpoint gaps (l : list Q) : list Q :=
  match l with
  | a :: (b :: _) as tl => (b - a) :: gaps tl
  | _ => []
  end.

Record marker_metrics := {
  count : nat;
  avg_duration_ms : Q;
  duration_variance : Q;
  avg_interval_sec : Q;
  interval_error_sec : Q }.

Definition get_marker_metrics (st : listener) : marker_metrics :=
  let events := marker_events st in
  match events with
  | [] => {| count := 0; avg_duration_ms := 0; duration_variance := 0;
             avg_interval_sec := 0; interval_error_sec := 60 |}
  | _ =>
      let count := List.length events in
      let durations :=
        map (fun e => num (me_parsed e) "duration_ms" 0) events in
      let avg_duration := sum durations / of_nat count in
      let duration_var :=
        if (1 <? count)%nat
        then sum (map (fun d => (d - avg_duration) * (d - avg_duration))
                      durations) / of_nat count
        else 0 in
      let intervals := gaps (map me_timestamp events) in
      let '(avg_interval, interval_error) :=
        match intervals with
        | [] => (0, 60)
        | _ => let a := sum intervals / of_nat (List.length intervals) in
               (a, abs (a - 60))
        end in
      {| count := count; avg_duration_ms := avg_duration;
         duration_variance := duration_var;
         avg_interval_sec := avg_interval;
         interval_error_sec := interval_error |}
  end.

Record sync_metrics := {
  locked_pct : Q;
  avg_confidence : Q;
  state_changes : nat;
  time_to_lock : ext }.

Definition is_inf (e : ext) : bool :=
  match e with PInf => true | Fin _ => false end.

(** The accumulators of the [for i, s in enumerate(states)] loop. *)
Record sync_acc := {
  locked_time : Q; total_time : Q; confidences : list Q; ttl : ext }.

Fixpoint sync_loop (start_time : Q) (states : list sync_sample)
    (a : sync_acc) : sync_acc :=
  match states with
  | [] => a
  | s :: rest =>
      let locked := String.eqb (ss_state s) "LOCKED" in
      let duration :=
        match rest with
        | next :: _ => ss_timestamp next - ss_timestamp s
        | [] => 1 # 10
        end in
      sync_loop start_time rest
        {| confidences := confidences a ++ [ss_confidence s];
           ttl := if locked && is_inf (ttl a)
                  then Fin (ss_timestamp s - start_time) else ttl a;
           total_time := total_time a + duration;
           locked_time := if locked then locked_time a + duration
                          else locked_time a |}
  end.

(** The second loop: adjacent samples whose states differ. *)
Fixpoint count_changes (states : list sync_sample) : nat :=
  match states with
  | a :: (b :: _) as tl =>
      (if String.eqb (ss_state b) (ss_state a) then 0 else 1)
      + count_changes tl
  | _ => 0
  end.

Definition get_sync_metrics (st : listener) : sync_metrics :=
  match sync_states st with
  | [] => {| locked_pct := 0; avg_confidence := 0; state_changes := 0;
             time_to_lock := PInf |}
  | (first :: _) as states =>
      let a := sync_loop (ss_timestamp first) states
                 {| locked_time := 0; total_time := 0;
                    confidences := []; ttl := PInf |} in
      {| locked_pct :=
           if ltb 0 (total_time a)
           then locked_time a / total_time a * 100 else 0;
         avg_confidence :=
           match confidences a with
           | [] => 0
           | cs => sum cs / of_nat (List.length cs)
           end;
         state_changes := count_changes states;
         time_to_lock := ttl a |}
  end.

End Telemetry.

(** ** Result store ([save_to_ini], [_get_existing_score], [_write_ini]) *)

Module Store.
Import Py.

(** The content of a [ConfigParser]: sections in file order, each with
    its options in order; option names are lower-cased on every access
    ([optionxform]), values are text.  The [DEFAULT] section and value
    interpolation, which the program never uses, are left out. *)
Definition options := Dict.t string.
Definition config := Dict.t options.

(** A record file: absent, or the content [config.read] finds in it.
    The text that [config.write] produces parses back to the content
    written (the option names and values the program writes hold no line
    break and no delimiter), so a file is identified with that content;
    its bytes are given by [text] below. *)
Definition file := option config.

(** [config.read(filepath)] into a fresh parser, when the file exists. *)
Definition read (f : file) : config :=
  match f with Some c => c | None => [] end.

(** [section in config] *)
Definition has_section (c : config) (s : string) : bool := Dict.mem c s.

(** [config[s]] of an existing section *)
Definition section (c : config) (s : string) : options :=
  match Dict.get c s with Some o => o | None => [] end.

(** [if s not in config: config[s] = {}] *)
Definition ensure_section (c : config) (s : string) : config :=
  if has_section c s then c else Dict.set c s [].

(** [config[s][k] = v] *)
Definition set_option (c : config) (s k v : string) : config :=
  Dict.set c s (Dict.set (section c s) (lower k) v).

(** [config[s].get(k)] *)
Definition get_option (c : config) (s k : string) : option string :=
  Dict.get (section c s) (lower k).

(** How a parameter value is formatted. *)
Inductive fmt := F6 | F2 | FInt.

Definition format (f : fmt) (q : Q) : string :=
  match f with
  | F6 => fmt_fixed 6 q
  | F2 => fmt_fixed 2 q
  | FInt => fmt_int (Waterfall.py_int_of_float q)
  end.

(** The [if name in param_dict: config[section][key] = f"{...}"] lines
    of each block, in source order: parameter name, option name, format. *)
Definition tick_keys : list (string * string * fmt) :=
  [ ("threshold", "threshold_multiplier", F6);
    ("adapt_down", "adapt_alpha_down", F6);
    ("adapt_up", "adapt_alpha_up", F6);
    ("min_duration", "min_duration_ms", F2) ].

Definition corr_keys : list (string * string * fmt) :=
  [ ("confidence", "epoch_confidence_threshold", F6);
    ("max_misses", "max_consecutive_misses", FInt) ].

Definition marker_keys : list (string * string * fmt) :=
  [ ("marker_threshold", "threshold_multiplier", F6);
    ("marker_adapt_rate", "noise_adapt_rate", F6);
    ("marker_min_duration", "min_duration_ms", F2) ].

Definition sync_keys : list (string * string * fmt) :=
  [ ("sync_weight_tick", "weight_tick", F6);
    ("sync_weight_marker", "weight_marker", F6);
    ("sync_weight_p_marker", "weight_p_marker", F6);
    ("sync_weight_tick_hole", "weight_tick_hole", F6);
    ("sync_weight_combined", "weight_combined_hole_marker", F6);
    ("sync_locked_threshold", "confidence_locked_threshold", F6);
    ("sync_min_retain", "confidence_min_retain", F6);
    ("sync_tentative_init", "confidence_tentative_init", F6);
    ("sync_decay_normal", "confidence_decay_normal", F6);
    ("sync_decay_recovering", "confidence_decay_recovering", F6);
    ("sync_tick_tolerance", "tick_phase_tolerance_ms", F2);
    ("sync_marker_tolerance", "marker_tolerance_ms", F2);
    ("sync_p_marker_tolerance", "p_marker_tolerance_ms", F2) ].

(** One [if mode == m or mode == 'all':] block. *)
Definition block (m sec : string) (keys : list (string * string * fmt))
    (mode : string) (param_dict : Dict.t Q) (c : config) : config :=
  if String.eqb mode m || String.eqb mode "all" then
    fold_left
      (fun c '(name, key, f) =>
         match Dict.get param_dict name with
         | Some v => set_option c sec key (format f v)
         | None => c
         end)
      keys (ensure_section c sec)
  else c.

Definition score_key (mode : string) : string := mode ++ "_best_score".

(** [_write_ini], up to the [open]: the content that is written.
    [now] is [time.strftime('%Y-%m-%d %H:%M:%S')]. *)
Definition _write_ini (f : file) (params : list Q)
    (param_names : list string) (mode : string) (score : Q)
    (now : string) : config :=
  let config := read f in
  let param_dict := Dict.of_pairs (combine param_names params) in
  let config := block "tick" "tick_detector" tick_keys mode param_dict config in
  let config :=
    block "corr" "tick_correlator" corr_keys mode param_dict config in
  let config :=
    block "marker" "marker_detector" marker_keys mode param_dict config in
  let config := block "sync" "sync_detector" sync_keys mode param_dict config in
  let config := ensure_section config "optimization_meta" in
  let config := set_option config "optimization_meta" "last_mode" mode in
  let config :=
    set_option config "optimization_meta" "last_score" (fmt_fixed 6 score) in
  let config := set_option config "optimization_meta" "last_run" now in
  set_option config "optimization_meta" (score_key mode) (fmt_fixed 6 score).

(** [_get_existing_score] *)
Definition _get_existing_score (f : file) (mode : string) : option ext :=
  match f with
  | None => None
  | Some config =>
      let meta := has_section config "optimization_meta" in
      let keyed :=
        if meta then
          match get_option config "optimization_meta" (score_key mode) with
          | Some v => option_map Fin (py_float v)
          | None => None
          end
        else None in
      match keyed with
      | Some s => Some s
      | None =>
          if meta then
            match get_option config "optimization_meta" "last_mode" with
            | Some m =>
                if String.eqb m mode then
                  match get_option config "optimization_meta" "last_score"
                  with
                  | Some v => option_map Fin (py_float v)
                  | None => Some PInf
                  end
                else None
            | None => None
            end
          else None
      end
  end.

(** The two record files. *)
Record disk := { last_run : file; best : file }.

(** [save_to_ini] *)
Definition save_to_ini (params : list Q) (param_names : list string)
    (mode : string) (score : Q) (now : string) (d : disk) : disk :=
  let last := _write_ini (last_run d) params param_names mode score now in
  let improves :=
    match _get_existing_score (best d) mode with
    | None => true
    | Some existing => ext_ltb (Fin score) existing
    end in
  {| last_run := Some last;
     best := if improves
             then Some (_write_ini (best d) params param_names mode score now)
             else best d |}.

(** *** The bytes of a record file *)

Definition nl : string := String (ascii_of_N 10) EmptyString.

(** The successive [fp.write] calls of [config.write(f)]. *)
Definition header (name : string) : string := "[" ++ name ++ "]" ++ nl.

Definition option_line (kv : string * string) : string :=
  fst kv ++ " = " ++ snd kv ++ nl.

Definition chunks (c : config) : list string :=
  flat_map
    (fun so : string * options =>
       header (fst so) :: List.app (map option_line (snd so)) [nl])
    c.

(** The chunks one after the other. *)
Definition join (l : list string) : string := fold_right append "" l.

Definition text (c : config) : string := join (chunks c).

(** [with open(filepath, 'w') as f: config.write(f)].

    Opening in mode ['w'] creates the file or truncates it; the chunks are
    then written one after the other.  [budget] is the number of chunks
    the medium accepts before a write raises ([None]: no failure); closing
    the file keeps what was written.  The result is the file's bytes. *)
Definition open_w (before : option string) : string := EmptyString.

Definition write_out (budget : option nat) (c : config)
    (before : option string) : string * result unit :=
  let opened := open_w before in
  match budget with
  | Some k =>
      if (k <? List.length (chunks c))%nat
      then (opened ++ join (firstn k (chunks c)), Raise OSError)
      else (opened ++ text c, Return tt)
  | None => (opened ++ text c, Return tt)
  end.

(** [_write_ini] with its effect on the bytes of the file: [f] is what
    [config.read] found, [before] the bytes the file held. *)
Definition _write_ini_bytes (budget : option nat) (before : option string)
    (f : file) (params : list Q) (param_names : list string)
    (mode : string) (score : Q) (now : string) : string * result unit :=
  write_out budget (_write_ini f params param_names mode score now) before.

(** *** Sequences of calls, and what a record file holds for a mode *)

Record call := {
  c_params : list Q;
  c_names : list string;
  c_mode : string;
  c_score : Q;
  c_now : string }.

Definition record (c : call) (d : disk) : disk :=
  save_to_ini (c_params c) (c_names c) (c_mode c) (c_score c) (c_now c) d.

Definition record_all (cs : list call) (d : disk) : disk :=
  fold_left (fun d c => record c d) cs d.

(** The text under the mode's best-score key of a record file. *)
Definition best_entry (f : file) (mode : string) : option string :=
  match f with
  | Some c => get_option c "optimization_meta" (score_key mode)
  | None => None
  end.

(** The score stored under the mode's best-score key. *)
Definition recorded_best (f : file) (mode : string) : option Q :=
  match best_entry f mode with
  | Some v => py_float v
  | None => None
  end.

(** The entry, if there is one, was written by the store: it is the
    six-decimal rendering of some score. *)
Definition store_written (f : file) (mode : string) : Prop :=
  match best_entry f mode with
  | Some v => exists q, v = fmt_fixed 6 q
  | None => True
  end.

End Store.

(** ** Optimisation driver ([controller.py]) *)

Module Agent.
Import Py.

Record agent := {
  waterfall : Waterfall.controller;
  telemetry : Telemetry.listener;
  files : Store.disk;
  optimization_running : bool;
  eval_count : nat;
  best_score : ext;
  best_params : list Q;
  _opt_mode : string }.

(** What the world does while one evaluation sleeps or polls: the passes
    the listener thread makes, the seconds elapsed when the score is
    computed ([time.time() - start_time]) and the wall-clock text a save
    would stamp. *)
Record window := {
  arrivals : list Telemetry.recv;
  elapsed : Q;
  clock : string }.

(** The listener thread over the passes of a window; a loop that died on
    an exception leaves the shared state as it was. *)
Definition listen (w : window) (t : Telemetry.listener)
  : Telemetry.listener :=
  match Telemetry._listen_loop (arrivals w) t with
  | Return t' => t'
  | Raise _ => t
  end.

Definition settle_time : Q := 2.
Definition marker_eval_time : Q := 180.
Definition marker_count_target : nat := 3.
Definition sync_eval_time : Q := 60.

Definition penalty : Q := 1000.

Definition with_eval (a : agent) (n : nat) (wf : Waterfall.controller)
    (t : Telemetry.listener) : agent :=
  {| waterfall := wf; telemetry := t; files := files a;
     optimization_running := optimization_running a;
     eval_count := n; best_score := best_score a;
     best_params := best_params a; _opt_mode := _opt_mode a |}.

(** The [# Track best] block shared by the three objective functions:
    [if score < self.best_score: ... self.save_to_ini(...)]. *)
Definition track_best (mode : string) (params : list Q) (score : Q)
    (now : string) (a : agent) : agent :=
  if ext_ltb (Fin score) (best_score a) then
    {| waterfall := waterfall a; telemetry := telemetry a;
       files := Store.save_to_ini params (Waterfall.get_param_names mode)
                  mode score now (files a);
       optimization_running := optimization_running a;
       eval_count := eval_count a;
       best_score := Fin score; best_params := params;
       _opt_mode := _opt_mode a |}
  else a.

(** The score of the tick/corr/all branch from a non-empty metrics dict. *)
Definition corr_score (metrics : Dict.t Telemetry.pyval) : Q :=
  let interval_error := Telemetry.num metrics "interval_error_ms" 1000 in
  let drift := abs (Telemetry.num metrics "cumulative_drift_ms" 0) in
  let chain_length := Telemetry.num metrics "chain_length" 0 in
  let chain_bonus := min (chain_length * (1 # 10)) 5 in
  let corr_ratio := Telemetry.num metrics "corr_ratio" 0 in
  let corr_penalty := max 0 ((1 - corr_ratio) * 2) in
  interval_error + drift * (1 # 10) - chain_bonus + corr_penalty.

(** [int(x)] of a float, as a float again *)
Definition trunc (x : Q) : Q := inject_Z (Waterfall.py_int_of_float x).

Definition marker_score (m : Telemetry.marker_metrics) (elapsed : Q) : Q :=
  let expected := trunc (elapsed / 60) + 1 in
  let detection_penalty :=
    (expected - Telemetry.of_nat (Telemetry.count m)) * 100 in
  let interval_error := Telemetry.interval_error_sec m * 10 in
  let duration_var := Telemetry.duration_variance m / 100 in
  let duration_error := abs (Telemetry.avg_duration_ms m - 800) / 10 in
  detection_penalty + interval_error + duration_var + duration_error.

Definition sync_score (m : Telemetry.sync_metrics) : Q :=
  let pct_penalty := 100 - Telemetry.locked_pct m in
  let stability_penalty :=
    Telemetry.of_nat (Telemetry.state_changes m) * 2 in
  let lock_time_penalty := ext_min (Telemetry.time_to_lock m) 60 / 6 in
  let confidence_bonus := Telemetry.avg_confidence m * 5 in
  pct_penalty + stability_penalty + lock_time_penalty - confidence_bonus.

(** [marker_objective_function].  The polling loop only decides how long
    the evaluation waits; the window gives what arrived meanwhile. *)
Definition marker_objective_function (params : list Q) (w : window)
    (a : agent) : Q * agent :=
  let mode := "marker" in
  let '(_, wf) :=
    Waterfall.set_parameters_from_array params mode (waterfall a) in
  let t := listen w (Telemetry.clear_marker_events (telemetry a)) in
  let a := with_eval a (S (eval_count a)) wf t in
  let metrics := Telemetry.get_marker_metrics t in
  if Nat.eqb (Telemetry.count metrics) 0 then (penalty, a)
  else
    let score := marker_score metrics (elapsed w) in
    (score, track_best mode params score (clock w) a).

(** [sync_objective_function] *)
Definition sync_objective_function (params : list Q) (w : window)
    (a : agent) : Q * agent :=
  let mode := "sync" in
  let '(_, wf) :=
    Waterfall.set_parameters_from_array params mode (waterfall a) in
  let t := listen w (Telemetry.clear_sync_states (telemetry a)) in
  let a := with_eval a (S (eval_count a)) wf t in
  let score := sync_score (Telemetry.get_sync_metrics t) in
  (score, track_best mode params score (clock w) a).

(** [objective_function] *)
Definition objective_function (params : list Q) (w : window) (a : agent)
  : Q * agent :=
  let mode := _opt_mode a in
  if String.eqb mode "marker" then marker_objective_function params w a
  else if String.eqb mode "sync" then sync_objective_function params w a
  else
    let '(_, wf) :=
      Waterfall.set_parameters_from_array params mode (waterfall a) in
    let t := listen w (telemetry a) in
    let a := with_eval a (S (eval_count a)) wf t in
    let metrics := Telemetry.get_correlation_metrics t in
    if negb (Dict.nonempty metrics) then (penalty, a)
    else
      let variance := corr_score metrics in
      (variance, track_best mode params variance (clock w) a).

(** *** [optimize]

    [scipy.optimize.minimize] is a black box that asks for the objective
    at points of its choice and then stops, normally or by raising. *)
Inductive minimizer :=
| Done (success : bool)
| Fails (e : exn)
| Ask (x : list Q) (next : Q -> minimizer).

(** The world during a run: the window of each evaluation, by number. *)
Definition world := nat -> window.

Fixpoint run (mz : minimizer) (env : world) (a : agent)
  : result bool * agent :=
  match mz with
  | Done s => (Return s, a)
  | Fails e => (Raise e, a)
  | Ask x next =>
      let '(y, a') := objective_function x (env (eval_count a)) a in
      run (next y) env a'
  end.

Record outcome := {
  success : bool;
  params : list Q;
  param_names : list string;
  mode : string;
  score : ext;
  iterations : nat }.

Definition with_run (a : agent) (running : bool) : agent :=
  {| waterfall := waterfall a; telemetry := telemetry a; files := files a;
     optimization_running := running; eval_count := eval_count a;
     best_score := best_score a; best_params := best_params a;
     _opt_mode := _opt_mode a |}.

(** The start of [optimize]: the mode is recorded, the seed is the given
    vector or the midpoint of each bound, the run state is reset. *)
Definition seed (initial_params : option (list Q)) (mode : string)
  : list Q :=
  match initial_params with
  | Some p => p
  | None => map (fun b => (fst b + snd b) / 2) (Waterfall.get_bounds mode)
  end.

Definition start (initial_params : option (list Q)) (mode : string)
    (a : agent) : agent :=
  {| waterfall := waterfall a; telemetry := telemetry a;
     files := files a; optimization_running := true; eval_count := 0;
     best_score := PInf; best_params := seed initial_params mode;
     _opt_mode := mode |}.

(** [minimize x0 method bounds maxiter] stands for the call
    [minimize(self.objective_function, x0, method=..., ...)]; Nelder-Mead
    is called without bounds. *)
Definition scipy :=
  list Q -> string -> option (list (Q * Q)) -> nat -> minimizer.

Definition call_minimize (minimize : scipy)
    (initial_params : option (list Q)) (method : string)
    (max_iterations : nat) (mode : string) : minimizer :=
  if String.eqb method "Nelder-Mead"
  then minimize (seed initial_params mode) method None max_iterations
  else minimize (seed initial_params mode) method
         (Some (Waterfall.get_bounds mode)) max_iterations.

(** [optimize]: the [try ... finally] only clears the running flag; an
    exception of the minimizer leaves through it. *)
Definition optimize (minimize : scipy)
    (initial_params : option (list Q)) (method : string)
    (max_iterations : nat) (mode : string) (env : world) (a : agent)
  : result outcome * agent :=
  let '(r, a) :=
    run (call_minimize minimize initial_params method max_iterations mode)
        env (start initial_params mode a) in
  let a := with_run a false in
  match r with
  | Raise e => (Raise e, a)
  | Return ok =>
      let '(_, wf) :=
        Waterfall.set_parameters_from_array (best_params a) mode
          (waterfall a) in
      (Return {| success := ok; params := best_params a;
                 param_names := Waterfall.get_param_names mode;
                 mode := mode; score := best_score a;
                 iterations := eval_count a |},
       with_eval a (eval_count a) wf (telemetry a))
  end.

(** Whether an evaluation takes one of the two [return 1000.0] exits: no
    CORR metrics in the tick/corr/all branch, no marker in marker mode.
    The sync branch has no such exit. *)
Definition penalised (w : window) (a : agent) : bool :=
  if String.eqb (_opt_mode a) "marker" then
    Nat.eqb
      (Telemetry.count
         (Telemetry.get_marker_metrics
            (listen w (Telemetry.clear_marker_events (telemetry a))))) 0
  else if String.eqb (_opt_mode a) "sync" then false
  else
    negb (Dict.nonempty
            (Telemetry.get_correlation_metrics (listen w (telemetry a)))).

End Agent.

(** ** Well-formedness of a CORR payload, as the properties below use it *)

Module Wire.
Import Py Telemetry.

(** A field that [float(f) if f else 0.0] converts without raising. *)
Definition float_field_ok (s : string) : bool :=
  negb (truthy s) || match py_float s with Some _ => true | None => false end.

(** A field that [int(f) if f else 0] converts without raising. *)
Definition int_field_ok (s : string) : bool :=
  negb (truthy s) || match py_int s with Some _ => true | None => false end.

(** Positions of the CORR fields converted with [float] and with [int]. *)
Definition corr_float_fields : list nat :=
  [1; 4; 5; 6; 7; 8; 9; 10; 13; 14]%nat.
Definition corr_int_fields : list nat := [2; 11; 12]%nat.

(** At least fifteen fields and a convertible interval field (field 6). *)
Definition interval_parseable (data : string) : bool :=
  (15 <=? List.length (split data))%nat
  && float_field_ok (field (split data) 6).

(** At least fifteen fields, every numeric one convertible. *)
Definition corr_well_formed (data : string) : bool :=
  (15 <=? List.length (split data))%nat
  && forallb (fun i => float_field_ok (field (split data) i))
             corr_float_fields
  && forallb (fun i => int_field_ok (field (split data) i)) corr_int_fields.

(** The CORR line whose tick number is not a number. *)
Definition corr_bad_tick_num : string :=
  "12:00:01,1000.5,x,Y,0.5,5.0,1003.5,1000.2,0.01,0.9,0.95,1,12,0,-2.5".

Definition corr_good : string :=
  "12:00:01,1000.5,7,Y,0.5,5.0,1003.5,1000.2,0.01,0.9,0.95,1,12,0,-2.5".

Definition datagram (s : string) : list Byte.byte := list_byte_of_string s.

End Wire.

(** ** Concrete inputs used by the examples below *)

Module Examples.
Import Telemetry.

(** The buffer (t=0, SEARCHING, 0.1), (t=10, LOCKED, 0.8),
    (t=40, LOCKED, 0.75). *)
Definition three_samples : listener :=
  {| latest := []; marker_events := []; message_queue := [];
     sync_states :=
       [ {| ss_timestamp := 0; ss_state := "SEARCHING";
            ss_confidence := 1 # 10 |};
         {| ss_timestamp := 10; ss_state := "LOCKED";
            ss_confidence := 8 # 10 |};
         {| ss_timestamp := 40; ss_state := "LOCKED";
            ss_confidence := 75 # 100 |} ] |}.

(** A connected agent at the start of a run in [mode]. *)
Definition agent0 (mode : string) : Agent.agent :=
  Agent.start None mode
    {| Agent.waterfall := Waterfall.connect Waterfall.init;
       Agent.telemetry := fresh;
       Agent.files := {| Store.last_run := None; Store.best := None |};
       Agent.optimization_running := false; Agent.eval_count := 0;
       Agent.best_score := Py.PInf; Agent.best_params := [];
       Agent._opt_mode := "tick" |}.

(** A window in which nothing arrives. *)
Definition quiet : Agent.window :=
  {| Agent.arrivals := []; Agent.elapsed := 2;
     Agent.clock := "2025-01-01 00:00:00" |}.

(** A window in which one CORR line arrives, with a 3000 ms interval. *)
Definition corr_far_off : string :=
  "CORR,12:00:01,1000.5,7,Y,0.5,5.0,3000.0,1000.2,0.01,0.9,0.95,1,12,0,-2.5".

Definition one_corr : Agent.window :=
  {| Agent.arrivals := [Datagram 1 (Wire.datagram corr_far_off)];
     Agent.elapsed := 2; Agent.clock := "2025-01-01 00:00:00" |}.

(** Minimizers: one that raises at once, one that stops at once. *)
Definition raising : Agent.scipy := fun _ _ _ _ => Agent.Fails Py.OSError.
Definition stopping : Agent.scipy := fun _ _ _ _ => Agent.Done true.

(** A window in which one CORR line arrives, 3.5 ms off the nominal
    interval. *)
Definition one_good_corr : Agent.window :=
  {| Agent.arrivals := [Datagram 1 (Wire.datagram ("CORR," ++ Wire.corr_good))];
     Agent.elapsed := 2; Agent.clock := "2025-01-01 00:00:00" |}.

Definition probe : list Q := [3; 1 # 2; 1 # 20; 5].

(** An empty store, two clock readings and calls of [save_to_ini]. *)
Definition disk0 : Store.disk :=
  {| Store.last_run := None; Store.best := None |}.

Definition clock0 : string := "2025-01-01 00:00:00".
Definition clock1 : string := "2025-01-01 00:00:05".

Definition tick_call (score : Q) (now : string) : Store.call :=
  {| Store.c_params := probe; Store.c_names := Waterfall.tick_names;
     Store.c_mode := "tick"; Store.c_score := score; Store.c_now := now |}.

Definition corr_call (score : Q) (now : string) : Store.call :=
  {| Store.c_params := [7 # 10; 4]; Store.c_names := Waterfall.corr_names;
     Store.c_mode := "corr"; Store.c_score := score; Store.c_now := now |}.

End Examples.

(** ** The command lines of the parameter client, as a table *)

Module Commands.
Import Waterfall.

(** Parameter name and the command its setter sends. *)
Definition wire_names : Dict.t string :=
  [ ("threshold", "SET_TICK_THRESHOLD");
    ("adapt_down", "SET_TICK_ADAPT_DOWN");
    ("adapt_up", "SET_TICK_ADAPT_UP");
    ("min_duration", "SET_TICK_MIN_DURATION");
    ("confidence", "SET_CORR_CONFIDENCE");
    ("max_misses", "SET_CORR_MAX_MISSES");
    ("marker_threshold", "SET_MARKER_THRESHOLD");
    ("marker_adapt_rate", "SET_MARKER_ADAPT_RATE");
    ("marker_min_duration", "SET_MARKER_MIN_DURATION");
    ("sync_weight_tick", "SET_SYNC_WEIGHT_TICK");
    ("sync_weight_marker", "SET_SYNC_WEIGHT_MARKER");
    ("sync_weight_p_marker", "SET_SYNC_WEIGHT_P_MARKER");
    ("sync_weight_tick_hole", "SET_SYNC_WEIGHT_TICK_HOLE");
    ("sync_weight_combined", "SET_SYNC_WEIGHT_COMBINED");
    ("sync_locked_threshold", "SET_SYNC_LOCKED_THRESHOLD");
    ("sync_min_retain", "SET_SYNC_MIN_RETAIN");
    ("sync_tentative_init", "SET_SYNC_TENTATIVE_INIT");
    ("sync_decay_normal", "SET_SYNC_DECAY_NORMAL");
    ("sync_decay_recovering", "SET_SYNC_DECAY_RECOVERING");
    ("sync_tick_tolerance", "SET_SYNC_TICK_TOLERANCE");
    ("sync_marker_tolerance", "SET_SYNC_MARKER_TOLERANCE");
    ("sync_p_marker_tolerance", "SET_SYNC_P_MARKER_TOLERANCE") ].

(** The command line for a parameter and a value: the value as it is,
    except for [max_misses], sent as [int(value)]. *)
Definition command_for (name : string) (v : Q) : command :=
  (match Dict.get wire_names name with Some c => c | None => EmptyString end,
   if String.eqb name "max_misses" then AInt (py_int_of_float v)
   else AFloat v).

(** The command lines for a vector of values under a list of names. *)
Definition commands_for (names : list string) (values : list Q)
  : list command :=
  map (fun nv => command_for (fst nv) (snd nv)) (combine names values).

(** The command lines [set_parameters] has to send for a dict: those of
    the keys present, in the order of its chain of tests. *)
Definition due (params : Dict.t Q) : list command :=
  flat_map
    (fun ks : string * setter =>
       match Dict.get params (fst ks) with
       | Some v => [command_for (fst ks) v]
       | None => []
       end)
    dispatch.

(** Handing command lines to the network one after the other, whatever
    the outcome of each: whether all went out, those that went out, and
    the outcomes left for later sends. *)
Fixpoint deliver (cmds : list command) (f : list bool)
  : bool * list command * list bool :=
  match cmds with
  | [] => (true, [], f)
  | c :: rest =>
      match f with
      | true :: f' =>
          let '(_, w, f'') := deliver rest f' in (false, w, f'')
      | false :: f' =>
          let '(ok, w, f'') := deliver rest f' in (ok, c :: w, f'')
      | [] =>
          let '(ok, w, f'') := deliver rest [] in (ok, c :: w, f'')
      end
  end.

(** A setter stores its value and then sends its command line: on the
    network side it is one [_send] from a state with the same socket,
    wire and pending outcomes. *)
Definition sends_own_line (ks : string * setter) : Prop :=
  forall v c,
  exists c0,
    snd ks v c = _send (command_for (fst ks) v) c0
    /\ socket c0 = socket c /\ wire c0 = wire c /\ faults c0 = faults c.

End Commands.

(** ** Vocabulary for the history buffers *)

Module Buffers.
Import Telemetry.

(** Time stamps that never go back. *)
Fixpoint ascending (l : list Q) : Prop :=
  match l with
  | a :: ((b :: _) as tl) => a <= b /\ ascending tl
  | _ => True
  end.

(** The test [s['state'] == 'LOCKED']. *)
Definition is_locked (s : sync_sample) : bool :=
  String.eqb (ss_state s) "LOCKED".

(** The accumulators [get_sync_metrics] starts its loop with. *)
Definition acc0 : sync_acc :=
  {| locked_time := 0; total_time := 0; confidences := []; ttl := Py.PInf |}.

(** [c in s] for a character. *)
Fixpoint contains (c : ascii) (s : string) : bool :=
  match s with
  | EmptyString => false
  | String x s' => Ascii.eqb x c || contains c s'
  end.

(** A block of parser statements whose only exception is [ValueError]. *)
Definition only_value_errors (p : build) : Prop :=
  forall d d' x, p d = (d', Some x) -> x = Py.ValueError.

End Buffers.

(** ** What a sequence of receive passes amounts to, message by message *)

Module Arrivals.
Import Py Telemetry.

(** The message a pass yields, if any. *)
Definition message_of (p : recv) : option TelemetryMessage :=
  match p with
  | Timeout => None
  | Datagram now bytes =>
      match _parse_message now bytes with
      | Return (Some msg) => Some msg
      | _ => None
      end
  end.

(** The messages of the passes, in arrival order. *)
Definition messages (passes : list recv) : list TelemetryMessage :=
  flat_map (fun p => match message_of p with Some m => [m] | None => [] end)
           passes.

(** The most recent message of a channel, [old] when there is none. *)
Definition last_on (ch : string) (msgs : list TelemetryMessage)
    (old : option TelemetryMessage) : option TelemetryMessage :=
  fold_left (fun acc m => if String.eqb ch (channel m) then Some m else acc)
            msgs old.

(** The marker event a message stands for: a MARK message with a
    non-empty parsed map. *)
Definition marker_of (m : TelemetryMessage) : list marker_event :=
  if String.eqb (channel m) "MARK" && Dict.nonempty (parsed m)
  then [{| me_timestamp := timestamp m; me_parsed := parsed m |}]
  else [].

(** The sync sample a message stands for: a SYNC message with a
    non-empty parsed map. *)
Definition sync_of (m : TelemetryMessage) : list sync_sample :=
  if String.eqb (channel m) "SYNC" && Dict.nonempty (parsed m)
  then [{| ss_timestamp := timestamp m;
           ss_state := state_of (parsed m);
           ss_confidence := num (parsed m) "confidence" 0 |}]
  else [].

End Arrivals.

(** ** Vocabulary for the record files *)

Module Ledger.
Import Py Store.

(** The sections a write for [mode] may touch: the mode's parameter
    section (all four for ['all']) and [optimization_meta]. *)
Definition owns (mode sec : string) : bool :=
  String.eqb sec "optimization_meta"
  || (String.eqb sec "tick_detector"
      && (String.eqb mode "tick" || String.eqb mode "all"))
  || (String.eqb sec "tick_correlator"
      && (String.eqb mode "corr" || String.eqb mode "all"))
  || (String.eqb sec "marker_detector"
      && (String.eqb mode "marker" || String.eqb mode "all"))
  || (String.eqb sec "sync_detector"
      && (String.eqb mode "sync" || String.eqb mode "all")).

(** Whether a call is stored under the same best-score key as [mode]. *)
Definition same_key (mode : string) (c : call) : bool :=
  String.eqb (lower (score_key (c_mode c))) (lower (score_key mode)).

(** The least of a list of integers, if it has one. *)
Definition least (l : list Z) : option Z :=
  match l with
  | [] => None
  | x :: r => Some (fold_left Z.min r x)
  end.

(** The scores of the calls stored under the key of [mode], in
    millionths, as [f"{score:.6f}"] rounds them. *)
Definition millionths (mode : string) (cs : list call) : list Z :=
  map (fun c => scaled 6 (c_score c)) (filter (same_key mode) cs).

(** What the all-time-best file holds for [mode] when the least score
    recorded so far under its key is [acc]: the six-decimal rendering of a
    score with those millionths; with nothing recorded, no entry, and a
    [last_mode] (if any) stored under another key. *)
Definition holds (mode : string) (f : file) (acc : option Z) : Prop :=
  match acc with
  | Some n => exists q, best_entry f mode = Some (fmt_fixed 6 q)
                        /\ scaled 6 q = n
  | None =>
      best_entry f mode = None
      /\ match f with
         | Some c =>
             forall lm,
               get_option c "optimization_meta" "last_mode" = Some lm ->
               lower (score_key lm) <> lower (score_key mode)
         | None => True
         end
  end.

Definition push (acc : option Z) (n : Z) : option Z :=
  match acc with
  | Some m => Some (Z.min m n)
  | None => Some n
  end.

End Ledger.

(** ** Vocabulary for optimisation runs *)

Module Runs.
Import Py Agent.

(** The points a run evaluates, in order. *)
Fixpoint points (mz : minimizer) (env : world) (a : agent)
  : list (list Q) :=
  match mz with
  | Ask x next =>
      x :: points (next (fst (objective_function x (env (eval_count a)) a)))
             env (snd (objective_function x (env (eval_count a)) a))
  | _ => []
  end.

(** The evaluations of a run that computed a score (those that did not
    leave by a telemetry-absence exit): point and score, in order. *)
Fixpoint scored (mz : minimizer) (env : world) (a : agent)
  : list (list Q * Q) :=
  match mz with
  | Ask x next =>
      let w := env (eval_count a) in
      let y := fst (objective_function x w a) in
      ((if penalised w a then [] else [(x, y)])
       ++ scored (next y) env (snd (objective_function x w a)))%list
  | _ => []
  end.

(** The state in which [optimize] hands over to the minimizer result. *)
Definition ended (minimize : scipy) (init : option (list Q))
    (method : string) (maxit : nat) (mode : string) (env : world)
    (a : agent) : agent :=
  snd (run (call_minimize minimize init method maxit mode) env
           (start init mode a)).

(** What the files hold for a run whose best-so-far is [best]. *)
Definition saved (mode : string) (d : Store.disk) (best : ext) : Prop :=
  (exists acc, Ledger.holds mode (Store.best d) acc
               /\ forall y, best = Fin y ->
                            exists n, acc = Some n /\ (n <= scaled 6 y)%Z)
  /\ forall y, best = Fin y ->
       let meta := Store.get_option (Store.read (Store.last_run d))
                     "optimization_meta" in
       meta "last_mode" = Some mode
       /\ meta "last_score" = Some (fmt_fixed 6 y).

End Runs.

(** ** Relay client ([relay_controller.py]) *)

Module Relay.
Import Py.

Definition TARGET_FREQ_HZ : Z := 10000000.
Definition TARGET_ANTENNA : string := "HIZ".
Definition TARGET_LNA : Z := 2.
Definition TARGET_GAIN : Z := 50.
Definition STATUS_POLL_INTERVAL : Q := 10.
Definition KEEPALIVE_INTERVAL : Q := 60.

(** One call on the socket.  [sock.recv(1)] gives a byte, the empty chunk
    of a closed connection, [socket.timeout] or another exception;
    [sock.sendall] succeeds, times out or raises something else. *)
Inductive recv1 := Got (c : ascii) | Closed | RecvTimeout | RecvError.
Inductive sendall := Sent | SendTimeout | SendError.

(** The network as the controller meets it: what the coming [recv(1)]
    calls give (once exhausted, nothing arrives and they time out), the
    outcomes of the coming [sendall] calls (once exhausted, they succeed),
    and the command lines handed over by the [sendall] calls that
    succeeded, oldest first and without their final newline. *)
Record link := {
  incoming : list recv1;
  sends : list sendall;
  outgoing : list string }.

(** The controller object; [sock] tells whether [self.sock] is a socket
    ([true]) or [None]. *)
Record controller := {
  sock : bool;
  connected : bool;
  last_status_poll : Q;
  last_keepalive : Q;
  net : link }.

(** [__init__] in front of a network. *)
Definition init (n : link) : controller :=
  {| sock := false; connected := false; last_status_poll := 0;
     last_keepalive := 0; net := n |}.

Definition with_net (c : controller) (up : bool) (n : link) : controller :=
  {| sock := sock c; connected := up;
     last_status_poll := last_status_poll c;
     last_keepalive := last_keepalive c; net := n |}.

Definition with_sock (c : controller) (s up : bool) : controller :=
  {| sock := s; connected := up;
     last_status_poll := last_status_poll c;
     last_keepalive := last_keepalive c; net := net c |}.

Definition with_timers (c : controller) (poll keepalive : Q) : controller :=
  {| sock := sock c; connected := connected c; last_status_poll := poll;
     last_keepalive := keepalive; net := net c |}.

(** How [connect] goes: through; the socket is made but one of the calls
    on it raises; [socket.socket] itself raises. *)
Inductive dial := Accepted | Refused | NoSocket.

(** [connect] *)
Definition connect (d : dial) (c : controller) : bool * controller :=
  match d with
  | Accepted => (true, with_sock c true true)
  | Refused => (false, with_sock c true (connected c))
  | NoSocket => (false, c)
  end.

Definition newline : ascii := ascii_of_N 10.

(** Whether [encode('ascii')] and [decode('ascii')] go through. *)
Fixpoint is_ascii (s : string) : bool :=
  match s with
  | EmptyString => true
  | String c s' => (N_of_ascii c <? 128)%N && is_ascii s'
  end.

(** The receive loop of [send_command]: one byte at a time until the
    bytes read hold a newline. *)
Inductive read :=
| Line (response : string) (rest : list recv1)
| TimedOut (rest : list recv1)
| Broken (rest : list recv1).

Fixpoint recv_line (wire : list recv1) : read :=
  match wire with
  | [] => TimedOut []
  | Got c :: rest =>
      if Ascii.eqb c newline then Line (String c EmptyString) rest
      else match recv_line rest with
           | Line l rest' => Line (String c l) rest'
           | other => other
           end
  | Closed :: rest => Broken rest
  | RecvTimeout :: rest => TimedOut rest
  | RecvError :: rest => Broken rest
  end.

(** [send_command]: [None] on a timeout; [None] and [connected = False]
    on any other exception. *)
Definition send_command (command : string) (c : controller)
  : option string * controller :=
  if negb (connected c) || negb (sock c) then (None, c)
  else if negb (is_ascii command) then (None, with_net c false (net c))
  else
    let n := net c in
    let '(outcome, later) :=
      match sends n with [] => (Sent, []) | o :: l => (o, l) end in
    let failed up :=
      (None, with_net c up {| incoming := incoming n; sends := later;
                              outgoing := outgoing n |}) in
    match outcome with
    | SendTimeout => failed true
    | SendError => failed false
    | Sent =>
        let heard up rest :=
          with_net c up {| incoming := rest; sends := later;
                           outgoing := outgoing n ++ [command] |} in
        match recv_line (incoming n) with
        | Line response rest =>
            if is_ascii response
            then (Some (strip response), heard true rest)
            else (None, heard false rest)
        | TimedOut rest => (None, heard true rest)
        | Broken rest => (None, heard false rest)
        end
    end.

(** [check_response] *)
Definition check_response (response : option string) : bool :=
  match response with
  | Some r => String.prefix "OK" r
  | None => false
  end.

(** [configure_sdr] *)
Definition configure_sdr (c : controller) : bool * controller :=
  let '(response, c) :=
    send_command ("SET_FREQ " ++ fmt_int TARGET_FREQ_HZ) c in
  if negb (check_response response) then (false, c) else
  let '(response, c) := send_command ("SET_ANTENNA " ++ TARGET_ANTENNA) c in
  if negb (check_response response) then (false, c) else
  let '(response, c) := send_command ("SET_LNA " ++ fmt_int TARGET_LNA) c in
  if negb (check_response response) then (false, c) else
  let '(response, c) := send_command ("SET_GAIN " ++ fmt_int TARGET_GAIN) c in
  if negb (check_response response) then (false, c) else
  (true, c).

(** [s.split()]: the maximal runs of characters that are not white
    space.  [words] gives the run the text starts in (empty when it starts
    with white space) and the runs after it. *)
Fixpoint words (s : string) : string * list string :=
  match s with
  | EmptyString => (EmptyString, [])
  | String c s' =>
      let '(w, ws) := words s' in
      if is_space c
      then (EmptyString, match w with EmptyString => ws | _ => w :: ws end)
      else (String c w, ws)
  end.

Definition str_split (s : string) : list string :=
  let '(w, ws) := words s in
  match w with EmptyString => ws | _ => w :: ws end.

(** [part.split(sep, 1)]: the text before the first separator and, when
    there is one, the text after it. *)
Fixpoint split_once (sep : ascii) (s : string) : string * option string :=
  match s with
  | EmptyString => (EmptyString, None)
  | String c s' =>
      if Ascii.eqb c sep then (EmptyString, Some s')
      else let '(h, r) := split_once sep s' in (String c h, r)
  end.

(** The [for part in parts] loop of [get_status]. *)
Fixpoint status_of (parts : list string) (status : Dict.t string)
  : Dict.t string :=
  match parts with
  | [] => status
  | part :: rest =>
      match split_once "="%char part with
      | (key, Some value) => status_of rest (Dict.set status key value)
      | (_, None) => status_of rest status
      end
  end.

(** [get_status] *)
Definition get_status (c : controller)
  : option (Dict.t string) * controller :=
  let '(response, c) := send_command "STATUS" c in
  match response with
  | Some r =>
      if String.prefix "OK" r
      then (Some (status_of (tl (str_split r)) []), c)
      else (None, c)
  | None => (None, c)
  end.

(** [maintain_connection], [now] being what [time.time()] gives. *)
Definition maintain_connection (now : Q) (c : controller)
  : bool * controller :=
  let c :=
    if Qle_bool STATUS_POLL_INTERVAL (now - last_status_poll c)
    then snd (get_status (with_timers c now (last_keepalive c)))
    else c in
  if Qle_bool KEEPALIVE_INTERVAL (now - last_keepalive c)
  then
    let '(response, c) :=
      send_command "PING" (with_timers c (last_status_poll c) now) in
    match response with
    | Some r => (String.eqb r "PONG", c)
    | None => (false, c)
    end
  else (true, c).

(** [disconnect] *)
Definition disconnect (c : controller) : controller :=
  let c :=
    if sock c
    then with_sock (snd (send_command "QUIT" c)) false (connected c)
    else c in
  with_sock c (sock c) false.

(** The [while self.connected] loop of [run].  [clock] lists what
    [time.time()] gives in the successive passes; the pass after the last
    is the one in which the user's interrupt arrives. *)
Fixpoint loop (clock : list Q) (c : controller) : controller :=
  match clock with
  | [] => c
  | now :: later =>
      if connected c then
        let '(ok, c) := maintain_connection now c in
        if ok then loop later c else c
      else c
  end.

(** [run]; [t0] and [t1] are the two clock readings that initialise the
    timers. *)
Definition run (d : dial) (t0 t1 : Q) (clock : list Q) (c : controller)
  : bool * controller :=
  let '(ok, c) := connect d c in
  if negb ok then (false, c)
  else
    let '(ok, c) := configure_sdr c in
    if negb ok then (false, disconnect c)
    else (true, disconnect (loop clock (with_timers c t0 t1))).

End Relay.

(** ** The relay's line protocol, as the properties below use it *)

Module Lines.
Import Py Relay.

(** The four commands of [configure_sdr], in the order of the source. *)
Definition plan : list string :=
  ["SET_FREQ 10000000"; "SET_ANTENNA HIZ"; "SET_LNA 2"; "SET_GAIN 50"].

(** Commands sent one after the other until one is not acknowledged. *)
Fixpoint chain (cmds : list string) (c : controller) : bool * controller :=
  match cmds with
  | [] => (true, c)
  | cmd :: rest =>
      let '(response, c) := send_command cmd c in
      if negb (check_response response) then (false, c) else chain rest c
  end.

(** The bytes of a text, arriving one by one. *)
Definition arriving (s : string) : list recv1 :=
  map Got (list_ascii_of_string s).

(** A status reply as the server words it: [OK k1=v1 k2=v2 ...]. *)
Definition status_line (pairs : list (string * string)) : string :=
  "OK" ++ Store.join (map (fun kv => " " ++ fst kv ++ "=" ++ snd kv) pairs).

(** A key is a text without white space and without [=]; a value is a
    text without white space. *)
Definition is_key (k : string) : bool :=
  no_space k && negb (Buffers.contains "="%char k).

(** One word of the status reply. *)
Definition entry (kv : string * string) : string :=
  fst kv ++ "=" ++ snd kv.

Definition well_worded (pairs : list (string * string)) : bool :=
  forallb (fun kv => is_key (fst kv) && no_space (snd kv)) pairs.

(** The invariant of the status dictionary: distinct keys, keys and values
    that are words. *)
Definition tidy (d : Dict.t string) : Prop :=
  NoDup (map fst d)
  /\ Forall (fun kv => is_key (fst kv) = true /\ no_space (snd kv) = true) d.

(** A controller with an open connection. *)
Definition online (n : link) : controller :=
  {| sock := true; connected := true; last_status_poll := 0;
     last_keepalive := 0; net := n |}.

End Lines.

(** * Properties *)

(** ** Comparisons on floats *)

Section Floats.
Import Py.

Lemma ltb_lt a b : ltb a b = true <-> a < b.
Proof.
  unfold ltb. rewrite negb_true_iff.
  split.
  - intros H. apply Qnot_le_lt. intros Hle.
    apply Qle_bool_iff in Hle. congruence.
  - intros H. destruct (Qle_bool b a) eqn:E; [|reflexivity].
    apply Qle_bool_iff in E. exfalso. apply (Qlt_not_le _ _ H E).
Qed.

Lemma ltb_ge a b : ltb a b = false <-> b <= a.
Proof.
  unfold ltb. rewrite negb_false_iff. apply Qle_bool_iff.
Qed.

Lemma min_le_r a b : min a b <= b.
Proof.
  unfold min. destruct (ltb b a) eqn:E.
  - apply Qle_refl.
  - now apply ltb_ge in E.
Qed.

Lemma min_nonneg a b : 0 <= a -> 0 <= b -> 0 <= min a b.
Proof. unfold min. destruct (ltb b a); auto. Qed.

Lemma max_zero_le x c : 0 <= c -> x <= c -> max 0 x <= c.
Proof. unfold max. destruct (ltb 0 x); auto. Qed.

End Floats.

(** ** Decimal text: what [float] reads back from a formatted number *)

Section DecimalText.
Import Py.

Lemma append_empty_r s : s ++ "" = s.
Proof. induction s as [|c s IH]; cbn; [reflexivity | now rewrite IH]. Qed.

Lemma append_assoc a b c : (a ++ b) ++ c = a ++ (b ++ c).
Proof. induction a as [|x a IH]; cbn; [reflexivity | now rewrite IH]. Qed.

Lemma length_append a b :
  String.length (a ++ b) = (String.length a + String.length b)%nat.
Proof. induction a as [|x a IH]; cbn; [reflexivity | now rewrite IH]. Qed.

Lemma no_space_app a b : no_space (a ++ b) = no_space a && no_space b.
Proof.
  induction a as [|c a IH]; simpl; [reflexivity|].
  now rewrite IH, andb_assoc.
Qed.

Lemma lstrip_no_space s : no_space s = true -> lstrip s = s.
Proof.
  destruct s as [|c s]; simpl; [reflexivity|].
  intros H. apply andb_prop in H. destruct H as [H _].
  apply negb_true_iff in H. now rewrite H.
Qed.

Lemma rstrip_no_space s : no_space s = true -> rstrip s = s.
Proof.
  induction s as [|c s IH]; simpl; [reflexivity|].
  intros H. apply andb_prop in H. destruct H as [Hc Hs].
  apply negb_true_iff in Hc. rewrite (IH Hs), Hc.
  destruct s; reflexivity.
Qed.

Lemma strip_no_space s : no_space s = true -> strip s = s.
Proof.
  intros H. unfold strip. rewrite (lstrip_no_space s H).
  now apply rstrip_no_space.
Qed.

(** The ten digit characters, by cases. *)
Ltac by_digit d H :=
  let E := fresh "E" in
  assert (E : (d = 0 \/ d = 1 \/ d = 2 \/ d = 3 \/ d = 4 \/ d = 5 \/ d = 6
               \/ d = 7 \/ d = 8 \/ d = 9)%N) by lia;
  clear H;
  repeat (destruct E as [E|E]; [subst d; reflexivity|]);
  subst d; reflexivity.

Lemma digit_of_digit_char d : (d < 10)%N -> digit_of (digit_char d) = Some d.
Proof. intros H. by_digit d H. Qed.

Lemma digit_char_not_dot d :
  (d < 10)%N -> Ascii.eqb (digit_char d) dot = false.
Proof. intros H. by_digit d H. Qed.

Lemma digit_char_not_space d :
  (d < 10)%N -> is_space (digit_char d) = false.
Proof. intros H. by_digit d H. Qed.

Lemma split_sign_digit d s :
  (d < 10)%N ->
  split_sign (String (digit_char d) s) = (false, String (digit_char d) s).
Proof. intros H. by_digit d H. Qed.

Lemma mod10_lt n : (n mod 10 < 10)%N.
Proof. apply N.mod_lt. discriminate. Qed.

Lemma fixed_digits_no_space w n : no_space (fixed_digits w n) = true.
Proof.
  induction w as [|w IH]; simpl; [reflexivity|].
  now rewrite digit_char_not_space, IH by apply mod10_lt.
Qed.

Lemma option_map_add_succ w (k : option nat) :
  option_map (Nat.add w) (option_map S k) = option_map (Nat.add (S w)) k.
Proof.
  destruct k as [x|]; simpl; [|reflexivity].
  now rewrite Nat.add_succ_r.
Qed.

Lemma scan_digit c s m k seen d :
  Ascii.eqb c dot = false -> digit_of c = Some d ->
  scan (String c s) m k seen = scan s (10 * m + d)%N (option_map S k) true.
Proof. intros Hc Hd. cbn [scan]. now rewrite Hc, Hd. Qed.

Lemma scan_dot s m seen :
  scan (String dot s) m None seen = scan s m (Some O) seen.
Proof. reflexivity. Qed.

Lemma fixed_digits_succ w n :
  fixed_digits (S w) n
  = String (digit_char ((n / 10 ^ N.of_nat w) mod 10)%N) (fixed_digits w n).
Proof. reflexivity. Qed.

(** Reading [w] fixed digits shifts the number read so far by [w] places
    and adds the value of the digits. *)
Lemma scan_fixed_digits w :
  forall n s m k seen,
    scan (fixed_digits w n ++ s) m k seen
    = scan s (m * 10 ^ N.of_nat w + n mod 10 ^ N.of_nat w)%N
        (option_map (Nat.add w) k) (seen || (0 <? w)%nat).
Proof.
  induction w as [|w IH]; intros n s m k seen.
  - cbn [fixed_digits append].
    change (10 ^ N.of_nat 0)%N with 1%N.
    rewrite N.mod_1_r, N.mul_1_r, N.add_0_r, orb_false_r.
    destruct k; reflexivity.
  - rewrite fixed_digits_succ. cbn [append].
    rewrite (scan_digit _ _ _ _ _ ((n / 10 ^ N.of_nat w) mod 10)%N)
      by (first [apply digit_char_not_dot | apply digit_of_digit_char];
          apply mod10_lt).
    rewrite IH, option_map_add_succ.
    replace (seen || (0 <? S w)%nat) with true
      by (now rewrite orb_true_r).
    cbn [orb]. f_equal.
    rewrite Nat2N.inj_succ, N.pow_succ_r'.
    rewrite (N.mul_comm 10 (10 ^ N.of_nat w)).
    rewrite (N.Div0.mod_mul_r n (10 ^ N.of_nat w) 10).
    lia.
Qed.

Lemma ndigits_aux_bound fuel :
  forall n, (n < 2 ^ N.of_nat fuel)%N ->
            (n < 10 ^ N.of_nat (ndigits_aux fuel n))%N.
Proof.
  induction fuel as [|fuel IH]; intros n Hn.
  - cbn in *. lia.
  - cbn [ndigits_aux]. destruct (n =? 0)%N eqn:E.
    + apply N.eqb_eq in E. subst n. cbn. lia.
    + rewrite Nat2N.inj_succ, N.pow_succ_r' in Hn.
      rewrite Nat2N.inj_succ, N.pow_succ_r'.
      assert (Hq : (n / 10 < 2 ^ N.of_nat fuel)%N).
      { apply N.Div0.div_lt_upper_bound. lia. }
      specialize (IH _ Hq).
      pose proof (N.Div0.div_mod n 10) as Hdm.
      pose proof (mod10_lt n). lia.
Qed.

Lemma ndigits_bound n : (n < 10 ^ N.of_nat (Nat.max 1 (ndigits n)))%N.
Proof.
  assert (H : (n < 10 ^ N.of_nat (ndigits n))%N).
  { apply ndigits_aux_bound. rewrite N2Nat.id. apply N.size_gt. }
  eapply N.lt_le_trans; [exact H|].
  apply N.pow_le_mono_r; lia.
Qed.

(** Reading [str(n)]. *)
Lemma scan_dec n s m k seen :
  scan (dec n ++ s) m k seen
  = scan s (m * 10 ^ N.of_nat (Nat.max 1 (ndigits n)) + n)%N
      (option_map (Nat.add (Nat.max 1 (ndigits n))) k) true.
Proof.
  unfold dec. rewrite scan_fixed_digits.
  rewrite (N.mod_small n) by apply ndigits_bound.
  replace (0 <? Nat.max 1 (ndigits n))%nat with true.
  - now rewrite orb_true_r.
  - symmetry. apply Nat.ltb_lt. lia.
Qed.

Lemma dec_head n :
  exists d s, (d < 10)%N /\ dec n = String (digit_char d) s.
Proof.
  unfold dec. destruct (Nat.max 1 (ndigits n)) as [|w] eqn:E; [lia|].
  simpl. eexists; eexists; split; [apply mod10_lt | reflexivity].
Qed.

(** The unsigned part of a fixed-point rendering reads back as its scaled
    integer with [w] decimals. *)
Lemma scan_fixed_point w a :
  scan (dec (a / 10 ^ N.of_nat w)
        ++ String dot (fixed_digits w (a mod 10 ^ N.of_nat w))) 0 None false
  = Some (a, Some w).
Proof.
  rewrite scan_dec. cbn [option_map]. rewrite scan_dot.
  rewrite <- (append_empty_r (fixed_digits w _)).
  rewrite scan_fixed_digits. cbn [scan option_map orb].
  rewrite Nat.add_0_r, N.Div0.mod_mod, N.mul_0_l, N.add_0_l.
  rewrite (N.mul_comm _ (10 ^ N.of_nat w)).
  now rewrite <- N.Div0.div_mod.
Qed.

End DecimalText.

(** ** Rounding and the value read back *)

Section Rounding.
Import Py.

Lemma round_half_even_bounds q :
  (Qfloor q <= round_half_even q <= Qfloor q + 1)%Z.
Proof.
  unfold round_half_even.
  destruct (Qcompare _ _); [destruct (Z.even _)| |]; lia.
Qed.

Lemma round_nonneg q : 0 <= q -> (0 <= round_half_even q)%Z.
Proof.
  intros H. pose proof (round_half_even_bounds q) as [Hlo _].
  apply Qfloor_resp_le in H. change (Qfloor 0) with 0%Z in H. lia.
Qed.

Lemma round_nonpos q : q < 0 -> (round_half_even q <= 0)%Z.
Proof.
  intros H. pose proof (round_half_even_bounds q) as [_ Hhi].
  assert (Hf : (Qfloor q < 0)%Z).
  { rewrite Zlt_Qlt. eapply Qle_lt_trans; [apply Qfloor_le | exact H]. }
  lia.
Qed.

(** A value strictly below an integer rounds to at most that integer. *)
Lemma round_below q (n : Z) : q < inject_Z n -> (round_half_even q <= n)%Z.
Proof.
  intros H. pose proof (round_half_even_bounds q) as [_ Hhi].
  assert (Hf : (Qfloor q < n)%Z).
  { rewrite Zlt_Qlt. eapply Qle_lt_trans; [apply Qfloor_le | exact H]. }
  lia.
Qed.

Lemma scale_pos w : 0 < inject_Z (Z.of_N (10 ^ N.of_nat w)).
Proof.
  rewrite <- (Zlt_Qlt 0). change 0%Z with (Z.of_N 0).
  apply N2Z.inj_lt. apply N.neq_0_lt_0. apply N.pow_nonzero. discriminate.
Qed.

Lemma fmt_fixed_no_space w q : no_space (fmt_fixed w q) = true.
Proof.
  unfold fmt_fixed, dec.
  rewrite !no_space_app. cbn [no_space].
  rewrite !fixed_digits_no_space.
  destruct (ltb q 0); reflexivity.
Qed.

(** [float] reads a fixed-point rendering back as the rounded value. *)
Lemma py_float_fmt_fixed w q :
  py_float (fmt_fixed (S w) q)
  = Some (Qmake (scaled (S w) q) (ten_to (Some (S w)))).
Proof.
  unfold py_float. rewrite strip_no_space by apply fmt_fixed_no_space.
  unfold fmt_fixed. fold (scaled (S w) q).
  set (a := Z.to_N (Z.abs (scaled (S w) q))).
  destruct (ltb q 0) eqn:Hneg.
  - change ("-" ++ ?s) with (String "-" s). cbn [split_sign].
    rewrite scan_fixed_point. f_equal. f_equal.
    apply ltb_lt in Hneg.
    assert (scaled (S w) q <= 0)%Z.
    { apply round_nonpos.
      setoid_replace 0 with (0 * inject_Z (Z.of_N (10 ^ N.of_nat (S w))))
        by ring.
      apply Qmult_lt_compat_r; [apply scale_pos | exact Hneg]. }
    subst a. rewrite Z2N.id by lia. lia.
  - change ("" ++ ?s) with s.
    destruct (dec_head (a / 10 ^ N.of_nat (S w))) as (d & s & Hd & Hs).
    rewrite Hs. cbn [append]. rewrite split_sign_digit by exact Hd.
    change (String (digit_char d) (s ++ ?t)) with (String (digit_char d) s ++ t).
    rewrite <- Hs, scan_fixed_point. f_equal. f_equal.
    apply ltb_ge in Hneg.
    assert (0 <= scaled (S w) q)%Z.
    { apply round_nonneg. apply Qmult_le_0_compat; [exact Hneg|].
      apply Qlt_le_weak, scale_pos. }
    subst a. rewrite Z2N.id by lia. lia.
Qed.

Lemma py_float_fmt6 q :
  py_float (fmt_fixed 6 q) = Some (Qmake (scaled 6 q) 1000000).
Proof. apply (py_float_fmt_fixed 5 q). Qed.

(** A score strictly below a stored six-decimal value is stored as at most
    that value. *)
Lemma scaled_below q (n : Z) :
  q < Qmake n 1000000 -> (scaled 6 q <= n)%Z.
Proof.
  intros H. apply round_below.
  change (inject_Z (Z.of_N (10 ^ N.of_nat 6))) with (inject_Z 1000000).
  destruct q as [a b]. unfold Qlt in *. cbn [Qnum Qden Qmult inject_Z] in *.
  rewrite Pos.mul_1_r. lia.
Qed.

End Rounding.

(** ** Parameter client: modes *)

Section WaterfallModes.
Import Waterfall.

Lemma all_names_by_family :
  all_names = (tick_names ++ corr_names ++ marker_names ++ sync_names)%list.
Proof. reflexivity. Qed.

Lemma all_bounds_by_name : get_bounds "all" = map bound all_names.
Proof. reflexivity. Qed.

(** A mode that is none of the four family names takes every [else]. *)
Lemma other_mode_tests (mode : string) :
  mode <> "tick" -> mode <> "corr" -> mode <> "marker" -> mode <> "sync" ->
  String.eqb mode "tick" = false /\ String.eqb mode "corr" = false /\
  String.eqb mode "marker" = false /\ String.eqb mode "sync" = false.
Proof.
  intros; repeat split; apply String.eqb_neq; assumption.
Qed.



End WaterfallModes.

(** ** Sync metrics on the three-sample buffer *)

Section SyncExample.
Import Telemetry Examples.

Lemma last_cons {A} (x : A) l d : last (x :: l) d = last l x.
Proof.
  revert x d. induction l as [|y l IH]; intros x d; [reflexivity|].
  change (last (x :: y :: l) d) with (last (y :: l) d).
  now rewrite !IH.
Qed.

(** The dwell times add up to the span of the buffer plus the fixed
    0.1 s of the last sample. *)
Lemma total_time_is_span_plus_tail start rest :
  forall first a,
    total_time (sync_loop start (first :: rest) a)
    == total_time a
       + (ss_timestamp (last rest first) - ss_timestamp first) + (1 # 10).
Proof.
  induction rest as [|next rest IH]; intros first a.
  - cbn [sync_loop total_time last]. ring.
  - change (sync_loop start (first :: next :: rest) a)
      with (sync_loop start (next :: rest)
              {| confidences := confidences a ++ [ss_confidence first];
                 ttl := if String.eqb (ss_state first) "LOCKED"
                           && is_inf (ttl a)
                        then Py.Fin (ss_timestamp first - start) else ttl a;
                 total_time := total_time a
                               + (ss_timestamp next - ss_timestamp first);
                 locked_time :=
                   if String.eqb (ss_state first) "LOCKED"
                   then locked_time a
                        + (ss_timestamp next - ss_timestamp first)
                   else locked_time a |}).
    rewrite IH, last_cons. cbn [total_time]. ring.
Qed.

(** The dwell times of the three samples are 10, 30 and the fixed 0.1. *)
Lemma three_samples_times :
  let a := sync_loop 0 (sync_states three_samples)
             {| locked_time := 0; total_time := 0; confidences := [];
                ttl := Py.PInf |} in
  total_time a == 401 # 10 /\ locked_time a == 301 # 10.
Proof. split; reflexivity. Qed.

(** C1, as stated, fails: with the final 0.1 s dwell counted, the locked
    share of the three-sample buffer is not 75. *)
Lemma three_samples_locked_pct_not_75 :
  ~ (locked_pct (get_sync_metrics three_samples) == 75
     /\ state_changes (get_sync_metrics three_samples) = 1%nat
     /\ exists t, time_to_lock (get_sync_metrics three_samples) = Py.Fin t
                  /\ t == 10).
Proof.
  intros [H _]. vm_compute in H. discriminate H.
Qed.

(** C1, amended.  On the three-sample buffer, with the dwell of each
    sample the gap to the next and 0.1 s for the last,
    [locked_pct] is 100 * 30.1 / 40.1 = 30100/401 (about 75.06),
    [state_changes] is 1 and [time_to_lock] is 10. *)
Theorem three_samples_metrics :
  locked_pct (get_sync_metrics three_samples) == 30100 # 401
  /\ state_changes (get_sync_metrics three_samples) = 1%nat
  /\ exists t, time_to_lock (get_sync_metrics three_samples) = Py.Fin t
               /\ t == 10.
Proof.
  split; [reflexivity|]. split; [reflexivity|].
  eexists; split; reflexivity.
Qed.

End SyncExample.

(** ** Ingestor: parsing never raises *)

Section Ingestor.
Import Py Telemetry.

Lemma parse_message_returns now bytes :
  exists r, _parse_message now bytes = Return r.
Proof.
  unfold _parse_message.
  destruct (parse_body now bytes) as [r|e]; eauto.
Qed.

Lemma on_datagram_returns now bytes st :
  exists st', on_datagram now bytes st = Return st'.
Proof.
  unfold on_datagram.
  destruct (parse_message_returns now bytes) as [[msg|] ->]; eauto.
Qed.

Lemma listen_loop_returns passes :
  forall st, exists st', _listen_loop passes st = Return st'.
Proof.
  induction passes as [|[now bytes|] rest IH]; intros st; simpl.
  - eauto.
  - destruct (on_datagram_returns now bytes st) as [st' ->]. apply IH.
  - apply IH.
Qed.

(** A dropped datagram leaves the listener as it was. *)
Lemma dropped_datagram_skipped now bytes :
  _parse_message now bytes = Return None ->
  forall st rest,
    _listen_loop (Datagram now bytes :: rest) st = _listen_loop rest st.
Proof.
  intros H st rest. simpl. unfold on_datagram. now rewrite H.
Qed.



End Ingestor.

(** ** CORR: the derived interval error *)

Section IntervalError.
Import Py Telemetry Wire.

Lemma float_field_converts s :
  float_field_ok s = true -> exists q, float_or_zero s = Return (VFloat q).
Proof.
  unfold float_field_ok, float_or_zero.
  destruct (truthy s); simpl; [|eauto].
  destruct (py_float s); [eauto | discriminate].
Qed.

Lemma int_field_converts s :
  int_field_ok s = true -> exists z, int_or_zero s = Return (VInt z).
Proof.
  unfold int_field_ok, int_or_zero.
  destruct (truthy s); simpl; [|eauto].
  destruct (py_int s); [eauto | discriminate].
Qed.

Lemma split_of_empty_is_short data :
  (15 <=? List.length (split data))%nat = true -> truthy data = true.
Proof.
  destruct data; [discriminate | reflexivity].
Qed.

(** When every conversion succeeds the block runs to its last statement. *)
Lemma corr_block_complete (f : nat -> string) :
  forallb (fun i => float_field_ok (f i)) corr_float_fields = true ->
  forallb (fun i => int_field_ok (f i)) corr_int_fields = true ->
  exists d x,
    corr_block f Dict.empty = (d, None)
    /\ float_or_zero (f 6%nat) = Return (VFloat x)
    /\ Dict.get d "interval_ms" = Some (VFloat x)
    /\ Dict.get d "interval_error_ms" = Some (VFloat (Qabs (x - 1000))).
Proof.
  intros Hf Hi. simpl in Hf, Hi.
  repeat match goal with
         | H : (_ && _)%bool = true |- _ =>
             apply andb_prop in H; destruct H
         end.
  repeat match goal with
         | H : float_field_ok _ = true |- _ =>
             apply float_field_converts in H; destruct H as [? H]
         | H : int_field_ok _ = true |- _ =>
             apply int_field_converts in H; destruct H as [? H]
         end.
  unfold corr_block, seq, assign_from, assign, interval_error.
  repeat match goal with
         | H : float_or_zero _ = _ |- _ => rewrite H
         | H : int_or_zero _ = _ |- _ => rewrite H
         end.
  simpl. eexists; eexists. repeat split.
Qed.


Lemma split_first_corr data :
  split_first ("CORR," ++ data) = ("CORR", Some data).
Proof. reflexivity. Qed.



End IntervalError.

(** ** Objective functions: penalty and best-tracking *)

Section Objective.
Import Py Telemetry Agent Examples.

(** The tick/corr/all score stays below the penalty for samples in range. *)
Lemma corr_score_below_penalty metrics :
  0 <= num metrics "chain_length" 0 ->
  0 <= num metrics "corr_ratio" 0 ->
  num metrics "interval_error_ms" 1000
  + Qabs (num metrics "cumulative_drift_ms" 0) * (1 # 10) < 998 ->
  corr_score metrics < penalty.
Proof.
  intros Hc Hr Hb. unfold corr_score, penalty, abs.
  set (ie := num metrics "interval_error_ms" 1000) in *.
  set (dr := Qabs (num metrics "cumulative_drift_ms" 0)) in *.
  set (cl := num metrics "chain_length" 0) in *.
  set (cr := num metrics "corr_ratio" 0) in *.
  assert (Hbonus : 0 <= min (cl * (1 # 10)) 5)
    by (apply min_nonneg; lra).
  assert (Hpen : max 0 ((1 - cr) * 2) <= 2)
    by (apply max_zero_le; lra).
  lra.
Qed.

(** The [# Track best] block, run in a state [b] that agrees with [a] on
    the best-so-far and on the files. *)
Lemma track_best_from mode p y now (b a : agent) :
  best_score b = best_score a ->
  best_params b = best_params a ->
  files b = files a ->
  if ext_ltb (Fin y) (best_score a) then
    best_score (track_best mode p y now b) = Fin y
    /\ best_params (track_best mode p y now b) = p
    /\ files (track_best mode p y now b)
       = Store.save_to_ini p (Waterfall.get_param_names mode) mode y now
           (files a)
    /\ Store.last_run (files (track_best mode p y now b)) <> None
  else
    best_score (track_best mode p y now b) = best_score a
    /\ best_params (track_best mode p y now b) = best_params a
    /\ files (track_best mode p y now b) = files a.
Proof.
  intros Hs Hp Hf. unfold track_best. rewrite Hs, Hf.
  destruct (ext_ltb (Fin y) (best_score a)); cbn.
  - repeat split. discriminate.
  - auto.
Qed.

(** C3, as stated, fails for the penalty score: on a fresh run (best score
    infinite) a tick evaluation without telemetry scores 1000, which is
    lower than the best, and neither the best nor the files change. *)
Lemma penalty_not_tracked :
  fst (objective_function probe quiet (agent0 "tick"))
  = penalty
  /\ ext_ltb (Fin penalty) (best_score (agent0 "tick")) = true
  /\ best_score
       (snd (objective_function probe quiet (agent0 "tick")))
     = PInf
  /\ files
       (snd (objective_function probe quiet (agent0 "tick")))
     = {| Store.last_run := None; Store.best := None |}.
Proof. repeat split. Qed.

(** An evaluation that does score: in tick mode, with one CORR line 3.5 ms
    off, the score 2.65 becomes the best and both record files are written. *)
Lemma scored_evaluation_tracked :
  penalised one_good_corr (agent0 "tick") = false
  /\ fst (objective_function probe one_good_corr (agent0 "tick")) == 265 # 100
  /\ best_params
       (snd (objective_function probe one_good_corr (agent0 "tick"))) = probe
  /\ Store.recorded_best
       (Store.best
          (files (snd (objective_function probe one_good_corr
                         (agent0 "tick"))))) "tick"
     = Some (2650000 # 1000000).
Proof. repeat split. Qed.

(** C3, amended.  For every evaluation in every mode: an evaluation that
    leaves by the telemetry-absence exit returns 1000 and changes neither
    the best score, nor the best parameters, nor the record files, whatever
    the current best; any other evaluation whose score is strictly lower
    than the current best makes that score and its parameter vector the
    best and hands them to the result store in the same evaluation
    ([save_to_ini] with the mode's parameter names); otherwise best score,
    best parameters and record files are unchanged. *)
Theorem best_tracked_except_on_penalty (p : list Q) (w : window) (a : agent) :
  let y := fst (objective_function p w a) in
  let a' := snd (objective_function p w a) in
  if penalised w a then
    y = penalty /\ best_score a' = best_score a
    /\ best_params a' = best_params a /\ files a' = files a
  else if ext_ltb (Fin y) (best_score a) then
    best_score a' = Fin y /\ best_params a' = p
    /\ files a'
       = Store.save_to_ini p (Waterfall.get_param_names (_opt_mode a))
           (_opt_mode a) y (clock w) (files a)
    /\ Store.last_run (files a') <> None
  else
    best_score a' = best_score a /\ best_params a' = best_params a
    /\ files a' = files a.
Proof.
  unfold penalised, objective_function.
  destruct (String.eqb (_opt_mode a) "marker") eqn:Em.
  - apply String.eqb_eq in Em. rewrite Em.
    unfold marker_objective_function.
    destruct (Waterfall.set_parameters_from_array p "marker" (waterfall a))
      as [ok wf].
    destruct (Nat.eqb _ 0); cbn [fst snd]; [auto|].
    apply track_best_from; reflexivity.
  - destruct (String.eqb (_opt_mode a) "sync") eqn:Es.
    + apply String.eqb_eq in Es. rewrite Es.
      unfold sync_objective_function.
      destruct (Waterfall.set_parameters_from_array p "sync" (waterfall a))
        as [ok wf].
      cbn [fst snd]. apply track_best_from; reflexivity.
    + destruct (Waterfall.set_parameters_from_array p (_opt_mode a)
                  (waterfall a)) as [ok wf].
      destruct (negb _); cbn [fst snd]; [auto|].
      apply track_best_from; reflexivity.
Qed.

(** C2, as stated, fails twice: a real CORR sample with a 3000 ms interval
    scores above the 1000 penalty, and sync mode has no fixed penalty (an
    empty sample buffer scores 110 through the ordinary formula). *)
Lemma penalty_not_maximal :
  penalty < fst (objective_function probe one_corr (agent0 "tick"))
  /\ Dict.nonempty (get_correlation_metrics
                      (listen one_corr (telemetry (agent0 "tick")))) = true
  /\ fst (objective_function probe quiet (agent0 "sync")) == 110
  /\ ~ fst (objective_function probe quiet (agent0 "sync")) == penalty.
Proof.
  split; [reflexivity|]. split; [reflexivity|]. split; [reflexivity|].
  intros H. vm_compute in H. discriminate H.
Qed.

(** C2, amended.  In the tick/corr/all branch an evaluation that finds no
    CORR metrics returns the fixed score 1000, and so does a marker
    evaluation that collected no marker; a sync evaluation that collected
    no sample returns 110 (100 + 60/6), the value of the ordinary formula
    on the empty buffer.  The 1000 penalty is strictly greater than a
    tick/corr/all score computed from a CORR sample whose chain length and
    correlation ratio are not negative and whose interval error plus a
    tenth of the absolute cumulative drift is below 998; it is not a bound
    for samples outside that range. *)
Theorem absent_telemetry_score (p : list Q) (w : window) (a : agent) :
  (_opt_mode a <> "marker" -> _opt_mode a <> "sync" ->
   get_correlation_metrics (listen w (telemetry a)) = [] ->
   fst (objective_function p w a) = penalty)
  /\ (_opt_mode a = "marker" ->
      marker_events (listen w (clear_marker_events (telemetry a))) = [] ->
      fst (objective_function p w a) = penalty)
  /\ (_opt_mode a = "sync" ->
      sync_states (listen w (clear_sync_states (telemetry a))) = [] ->
      fst (objective_function p w a) == 110)
  /\ (_opt_mode a <> "marker" -> _opt_mode a <> "sync" ->
      let metrics := get_correlation_metrics (listen w (telemetry a)) in
      Dict.nonempty metrics = true ->
      0 <= num metrics "chain_length" 0 ->
      0 <= num metrics "corr_ratio" 0 ->
      num metrics "interval_error_ms" 1000
      + Qabs (num metrics "cumulative_drift_ms" 0) * (1 # 10) < 998 ->
      fst (objective_function p w a) < penalty).
Proof.
  split; [|split; [|split]].
  - intros Hm Hs Hnone. unfold objective_function.
    apply String.eqb_neq in Hm, Hs. rewrite Hm, Hs.
    destruct (Waterfall.set_parameters_from_array p (_opt_mode a)
                (waterfall a)) as [ok wf].
    cbn [telemetry with_eval]. now rewrite Hnone.
  - intros Hm Hnone. unfold objective_function.
    rewrite Hm. cbn [String.eqb Ascii.eqb Bool.eqb].
    unfold marker_objective_function.
    destruct (Waterfall.set_parameters_from_array p "marker" (waterfall a))
      as [ok wf].
    unfold get_marker_metrics. now rewrite Hnone.
  - intros Hs Hnone. unfold objective_function.
    rewrite Hs. cbn [String.eqb Ascii.eqb Bool.eqb].
    unfold sync_objective_function.
    destruct (Waterfall.set_parameters_from_array p "sync" (waterfall a))
      as [ok wf].
    cbn [fst]. unfold get_sync_metrics. rewrite Hnone. reflexivity.
  - intros Hm Hs metrics Hsome Hc Hr Hb. unfold objective_function.
    apply String.eqb_neq in Hm, Hs. rewrite Hm, Hs.
    destruct (Waterfall.set_parameters_from_array p (_opt_mode a)
                (waterfall a)) as [ok wf].
    fold metrics. rewrite Hsome. cbn [negb fst].
    now apply corr_score_below_penalty.
Qed.

Lemma absent_telemetry_score_witness :
  fst (objective_function probe quiet (agent0 "tick")) = penalty
  /\ fst (objective_function probe quiet (agent0 "marker")) = penalty
  /\ fst (objective_function probe quiet (agent0 "sync")) == 110
  /\ fst (objective_function probe one_good_corr (agent0 "tick")) < penalty.
Proof.
  destruct (absent_telemetry_score probe quiet (agent0 "tick"))
    as (Htick & _).
  destruct (absent_telemetry_score probe quiet (agent0 "marker"))
    as (_ & Hmark & _).
  destruct (absent_telemetry_score probe quiet (agent0 "sync"))
    as (_ & _ & Hsync & _).
  destruct (absent_telemetry_score probe one_good_corr (agent0 "tick"))
    as (_ & _ & _ & Hdom).
  split; [apply Htick; [discriminate | discriminate | reflexivity]|].
  split; [apply Hmark; reflexivity|].
  split; [apply Hsync; reflexivity|].
  apply Hdom; vm_compute; first [reflexivity | discriminate].
Defined.

End Objective.

(** ** [optimize]: how a run ends *)

Section Optimize.
Import Py Agent Examples.

(** The running flag is the only thing the [finally] clause touches. *)
Lemma with_run_keeps a b :
  waterfall (with_run a b) = waterfall a
  /\ best_score (with_run a b) = best_score a
  /\ best_params (with_run a b) = best_params a
  /\ eval_count (with_run a b) = eval_count a
  /\ files (with_run a b) = files a.
Proof. repeat split. Qed.

(** C8, as stated, fails when the minimizer raises: [optimize] lets the
    exception through, returns no result record and sends nothing; the
    same run ending normally sends the four tick parameters. *)
Lemma optimize_raises_with_minimizer :
  fst (optimize raising None "Nelder-Mead" 10 "tick" (fun _ => quiet)
         (agent0 "tick")) = Raise OSError
  /\ Waterfall.wire
       (waterfall
          (snd (optimize raising None "Nelder-Mead" 10 "tick"
                  (fun _ => quiet) (agent0 "tick")))) = []
  /\ List.length
       (Waterfall.wire
          (waterfall
             (snd (optimize stopping None "Nelder-Mead" 10 "tick"
                     (fun _ => quiet) (agent0 "tick"))))) = 4%nat.
Proof. repeat split. Qed.

(** C8, amended.  For every mode: when the minimizer completes normally,
    [optimize] applies the best parameters found to the remote pipeline
    through the parameter client and returns the record of success, best
    parameters, best score and evaluation count; when the minimizer raises,
    [optimize] clears the running flag and lets the exception through:
    nothing is applied and no record is returned (best score, best
    parameters and files stay as the run left them). *)
Theorem optimize_ends (minimize : scipy) (init : option (list Q))
    (method : string) (maxit : nat) (mode : string) (env : world)
    (a : agent) :
  let ended :=
    run (call_minimize minimize init method maxit mode) env
        (start init mode a) in
  let res := optimize minimize init method maxit mode env a in
  match fst ended with
  | Return ok =>
      fst res
      = Return {| success := ok; params := best_params (snd ended);
                  param_names := Waterfall.get_param_names mode;
                  mode := mode; score := best_score (snd ended);
                  iterations := eval_count (snd ended) |}
      /\ waterfall (snd res)
         = snd (Waterfall.set_parameters_from_array
                  (best_params (snd ended)) mode (waterfall (snd ended)))
      /\ optimization_running (snd res) = false
  | Raise e =>
      fst res = Raise e
      /\ waterfall (snd res) = waterfall (snd ended)
      /\ optimization_running (snd res) = false
      /\ best_score (snd res) = best_score (snd ended)
      /\ best_params (snd res) = best_params (snd ended)
      /\ files (snd res) = files (snd ended)
  end.
Proof.
  intros ended res. subst res. unfold optimize. fold ended.
  destruct ended as [[ok|e] a1]; cbn [fst snd].
  - destruct (with_run_keeps a1 false) as (Hw & Hs & Hp & Hn & _).
    rewrite Hw, Hs, Hp, Hn.
    destruct (Waterfall.set_parameters_from_array (best_params a1) mode
                (waterfall a1)) as [sent wf].
    repeat split.
  - repeat split.
Qed.

End Optimize.

(** ** Dictionaries *)

Section DictFacts.
Context {V : Type}.

Lemma get_set_same (d : Dict.t V) k v : Dict.get (Dict.set d k v) k = Some v.
Proof.
  induction d as [|[k' v'] d IH]; cbn.
  - now rewrite String.eqb_refl.
  - destruct (String.eqb k k') eqn:E; cbn; rewrite E; auto.
Qed.

Lemma get_set_other (d : Dict.t V) k k' v :
  k' <> k -> Dict.get (Dict.set d k v) k' = Dict.get d k'.
Proof.
  intros Hne. apply String.eqb_neq in Hne.
  induction d as [|[k0 v0] d IH]; cbn.
  - now rewrite Hne.
  - destruct (String.eqb k k0) eqn:E; cbn.
    + apply String.eqb_eq in E. subst k0. now rewrite Hne.
    + now rewrite IH.
Qed.

Lemma get_set (d : Dict.t V) k k' v :
  Dict.get (Dict.set d k v) k'
  = if String.eqb k' k then Some v else Dict.get d k'.
Proof.
  destruct (String.eqb_spec k' k) as [->|Hne].
  - apply get_set_same.
  - now apply get_set_other.
Qed.

End DictFacts.

(** ** Result store: what a write changes *)

Section StoreFacts.
Import Py Store.

Lemma section_set c s o s' :
  section (Dict.set c s o) s' = if String.eqb s' s then o else section c s'.
Proof. unfold section. rewrite get_set. now destruct (String.eqb s' s). Qed.

Lemma get_option_set_option c s k v s' k' :
  get_option (set_option c s k v) s' k'
  = if String.eqb s' s && String.eqb (lower k') (lower k) then Some v
    else get_option c s' k'.
Proof.
  unfold get_option, set_option. rewrite section_set.
  destruct (String.eqb_spec s' s) as [->|Hs]; cbn; [|reflexivity].
  apply get_set.
Qed.

Lemma has_section_set_option c s k v s' :
  has_section (set_option c s k v) s' = String.eqb s' s || has_section c s'.
Proof.
  unfold has_section, set_option, Dict.mem. rewrite get_set.
  now destruct (String.eqb s' s).
Qed.

Lemma get_option_ensure_section c s s' k :
  get_option (ensure_section c s) s' k = get_option c s' k.
Proof.
  unfold ensure_section. destruct (has_section c s) eqn:E; [reflexivity|].
  unfold get_option. rewrite section_set.
  destruct (String.eqb_spec s' s) as [->|Hs]; [|reflexivity].
  unfold has_section, Dict.mem in E. unfold section.
  destruct (Dict.get c s); [discriminate | reflexivity].
Qed.

Lemma has_section_ensure_section c s s' :
  has_section (ensure_section c s) s'
  = String.eqb s' s || has_section c s'.
Proof.
  unfold ensure_section. destruct (has_section c s) eqn:E.
  - destruct (String.eqb_spec s' s) as [->|Hs]; [now rewrite E | reflexivity].
  - unfold has_section, Dict.mem. rewrite get_set.
    now destruct (String.eqb s' s).
Qed.

(** A parameter block leaves the other sections' options alone. *)
Lemma get_option_block m sec keys mode pd c s' k :
  s' <> sec ->
  get_option (block m sec keys mode pd c) s' k = get_option c s' k.
Proof.
  intros Hs. apply String.eqb_neq in Hs. unfold block.
  destruct (String.eqb mode m || String.eqb mode "all"); [|reflexivity].
  rewrite <- (get_option_ensure_section c sec s' k).
  generalize (ensure_section c sec). clear c.
  induction keys as [|[[name key] f] keys IH]; intros c; cbn [fold_left].
  - reflexivity.
  - rewrite IH. destruct (Dict.get pd name); [|reflexivity].
    rewrite get_option_set_option. now rewrite Hs.
Qed.

(** The options of [optimization_meta] after [_write_ini]. *)
Lemma meta_after_write f p names mode score now k :
  get_option (_write_ini f p names mode score now) "optimization_meta" k
  = if String.eqb (lower k) (lower (score_key mode))
    then Some (fmt_fixed 6 score)
    else if String.eqb (lower k) "last_run" then Some now
    else if String.eqb (lower k) "last_score" then Some (fmt_fixed 6 score)
    else if String.eqb (lower k) "last_mode" then Some mode
    else get_option (read f) "optimization_meta" k.
Proof.
  unfold _write_ini.
  rewrite !get_option_set_option, get_option_ensure_section.
  rewrite !get_option_block by discriminate.
  rewrite String.eqb_refl. cbn [andb].
  reflexivity.
Qed.

Lemma meta_section_after_write f p names mode score now :
  has_section (_write_ini f p names mode score now) "optimization_meta"
  = true.
Proof.
  unfold _write_ini. rewrite !has_section_set_option.
  now rewrite String.eqb_refl.
Qed.

Lemma lower_length s : String.length (lower s) = String.length s.
Proof. induction s as [|c s IH]; cbn; [reflexivity | now rewrite IH]. Qed.

(** A best-score key is none of the three fixed keys of the section. *)
Lemma score_key_not_fixed mode :
  String.eqb (lower (score_key mode)) "last_run" = false
  /\ String.eqb (lower (score_key mode)) "last_score" = false
  /\ String.eqb (lower (score_key mode)) "last_mode" = false.
Proof.
  assert (H : (11 <= String.length (lower (score_key mode)))%nat).
  { rewrite lower_length. unfold score_key. rewrite length_append. cbn. lia. }
  repeat split; apply String.eqb_neq; intros E; rewrite E in H; cbn in H; lia.
Qed.

End StoreFacts.

(** ** Result store: the all-time best of a mode never goes up *)

Section Monotone.
Import Py Store Examples.

Lemma get_option_same_key c s k k' :
  lower k = lower k' -> get_option c s k = get_option c s k'.
Proof. unfold get_option. now intros ->. Qed.

Lemma entry_has_section c k v :
  get_option c "optimization_meta" k = Some v ->
  has_section c "optimization_meta" = true.
Proof.
  unfold get_option, section, has_section, Dict.mem.
  destruct (Dict.get c "optimization_meta"); [reflexivity | discriminate].
Qed.

(** With a readable entry under the mode's key, that entry is the
    existing score. *)
Lemma existing_of_entry c mode v x :
  get_option c "optimization_meta" (score_key mode) = Some v ->
  py_float v = Some x ->
  _get_existing_score (Some c) mode = Some (Fin x).
Proof.
  intros Hv Hx. unfold _get_existing_score.
  now rewrite (entry_has_section _ _ _ Hv), Hv, Hx.
Qed.

(** The entry of [mode] after a write for [mode']. *)
Lemma entry_after_write f p names mode' score now mode :
  best_entry (Some (_write_ini f p names mode' score now)) mode
  = if String.eqb (lower (score_key mode)) (lower (score_key mode'))
    then Some (fmt_fixed 6 score)
    else best_entry f mode.
Proof.
  unfold best_entry. rewrite meta_after_write.
  destruct (String.eqb _ (lower (score_key mode'))); [reflexivity|].
  destruct (score_key_not_fixed mode) as (-> & -> & ->).
  destruct f; reflexivity.
Qed.

(** The existing score of a mode just written. *)
Lemma existing_after_write f p names mode score now :
  _get_existing_score (Some (_write_ini f p names mode score now)) mode
  = Some (Fin (Qmake (scaled 6 score) 1000000)).
Proof.
  apply existing_of_entry with (v := fmt_fixed 6 score);
    [|apply py_float_fmt6].
  change (get_option ?c "optimization_meta" (score_key mode))
    with (best_entry (Some c) mode).
  rewrite entry_after_write. now rewrite String.eqb_refl.
Qed.

Lemma record_step mode (c : call) (d : disk) :
  store_written (best d) mode ->
  store_written (best (record c d)) mode
  /\ forall v, recorded_best (best d) mode = Some v ->
               exists v', recorded_best (best (record c d)) mode = Some v'
                          /\ v' <= v.
Proof.
  intros Hw. unfold record, save_to_ini. cbn [best].
  destruct (match _get_existing_score (best d) (c_mode c) with
            | Some existing => ext_ltb (Fin (c_score c)) existing
            | None => true
            end) eqn:Himp.
  2:{ split; [exact Hw|]. intros v Hv. exists v. split; [exact Hv|].
      apply Qle_refl. }
  unfold store_written, recorded_best in *.
  rewrite entry_after_write.
  destruct (String.eqb (lower (score_key mode)) (lower (score_key (c_mode c))))
    eqn:Ek.
  2:{ split; [exact Hw|]. intros v Hv. exists v. split; [exact Hv|].
      apply Qle_refl. }
  apply String.eqb_eq in Ek.
  split; [eexists; reflexivity|].
  intros v Hv. rewrite py_float_fmt6. eexists. split; [reflexivity|].
  destruct (best d) as [cfg|]; [|discriminate].
  cbn [best_entry] in *.
  destruct (get_option cfg "optimization_meta" (score_key mode))
    as [str|] eqn:Hentry; [|discriminate].
  destruct Hw as [q ->].
  rewrite py_float_fmt6 in Hv. injection Hv as <-.
  rewrite (get_option_same_key _ _ _ _ Ek) in Hentry.
  rewrite (existing_of_entry _ _ _ _ Hentry (py_float_fmt6 q)) in Himp.
  cbn [ext_ltb] in Himp. apply ltb_lt in Himp.
  apply scaled_below in Himp.
  unfold Qle. cbn [Qnum Qden]. lia.
Qed.

Lemma record_all_app cs1 cs2 d :
  record_all (cs1 ++ cs2) d = record_all cs2 (record_all cs1 d).
Proof. apply fold_left_app. Qed.

Lemma record_all_written mode cs :
  forall d, store_written (best d) mode ->
            store_written (best (record_all cs d)) mode.
Proof.
  induction cs as [|c cs IH]; intros d Hw; cbn [record_all fold_left].
  - exact Hw.
  - apply IH. now apply record_step.
Qed.

Lemma record_all_non_increasing mode cs :
  forall d v,
    store_written (best d) mode ->
    recorded_best (best d) mode = Some v ->
    exists v', recorded_best (best (record_all cs d)) mode = Some v'
               /\ v' <= v.
Proof.
  induction cs as [|c cs IH]; intros d v Hw Hv; cbn [record_all fold_left].
  - exists v. split; [exact Hv | apply Qle_refl].
  - destruct (record_step mode c d Hw) as [Hw' Hstep].
    destruct (Hstep v Hv) as (v1 & Hv1 & Hle1).
    destruct (IH _ v1 Hw' Hv1) as (v2 & Hv2 & Hle2).
    exists v2. split; [exact Hv2|]. eapply Qle_trans; eassumption.
Qed.



End Monotone.

(** ** Result store: saving the same result twice *)

Section Resave.
Import Py Store Examples.

(** C6 does not hold on the code: a score that the six-decimal rendering
    rounds up (0.0000007, stored as 0.000001) is strictly below its own
    stored value, so the second of two identical calls rewrites the
    all-time-best record; with the clock five seconds on, its bytes differ
    from those left by the first call. *)
Theorem resave_of_rounded_up_score_rewrites :
  let first := record (tick_call (7 # 10000000) clock0) disk0 in
  let second := record (tick_call (7 # 10000000) clock1) first in
  _get_existing_score (best first) "tick" = Some (Fin (1 # 1000000))
  /\ ext_ltb (Fin (7 # 10000000)) (Fin (1 # 1000000)) = true
  /\ option_map text (best second) <> option_map text (best first).
Proof.
  cbv zeta. split; [reflexivity|]. split; [reflexivity|].
  intros H. vm_compute in H. discriminate H.
Qed.

(** After a call, the record holds an existing score for the mode, and
    the call's score can only be below it by rounding. *)
Lemma existing_after_save p names mode score now d :
  exists e,
    _get_existing_score (best (save_to_ini p names mode score now d)) mode
    = Some e
    /\ (ext_ltb (Fin score) e = true ->
        score < Qmake (scaled 6 score) 1000000).
Proof.
  unfold save_to_ini. cbn [best].
  destruct (_get_existing_score (best d) mode) as [old|] eqn:Hold.
  - destruct (ext_ltb (Fin score) old) eqn:Hlt.
    + eexists. split; [apply existing_after_write|].
      cbn [ext_ltb]. apply ltb_lt.
    + exists old. split; [exact Hold|]. congruence.
  - eexists. split; [apply existing_after_write|].
    cbn [ext_ltb]. apply ltb_lt.
Qed.

(** When the rendering does not round the score up, the second of two
    calls with the same arguments leaves the all-time-best record as the
    first left it, whatever the clock. *)
Lemma resave_keeps_best_unless_rounded_up p names mode score now now' d :
  Qmake (scaled 6 score) 1000000 <= score ->
  best (save_to_ini p names mode score now'
          (save_to_ini p names mode score now d))
  = best (save_to_ini p names mode score now d).
Proof.
  intros Hround.
  destruct (existing_after_save p names mode score now d) as (e & He & Hlt).
  unfold save_to_ini at 1. cbn [best]. rewrite He.
  destruct (ext_ltb (Fin score) e); [|reflexivity].
  exfalso. apply (Qlt_not_le _ _ (Hlt eq_refl) Hround).
Qed.

End Resave.

(** ** Result store: an interrupted write *)

Section TornWrite.
Import Py Store Examples.

Lemma join_app a b : join (a ++ b) = join a ++ join b.
Proof.
  unfold join. induction a as [|x a IH]; cbn; [reflexivity|].
  now rewrite IH, append_assoc.
Qed.

Lemma join_firstn_skipn k l : join (firstn k l) ++ join (skipn k l) = join l.
Proof. now rewrite <- join_app, firstn_skipn. Qed.



End TornWrite.

(** ** Parameter client: what a batch sends *)

Section Batches.
Import Waterfall Commands.

Lemma dispatch_sends_own_lines : Forall sends_own_line dispatch.
Proof.
  unfold dispatch.
  repeat (apply Forall_cons;
          [intros v c; eexists; split; [reflexivity | repeat split]|]).
  apply Forall_nil.
Qed.

Lemma send_connected cmd c :
  socket c = true ->
  let r := _send cmd c in
  let d := deliver [cmd] (faults c) in
  fst r = fst (fst d)
  /\ wire (snd r) = (wire c ++ snd (fst d))%list
  /\ faults (snd r) = snd d
  /\ socket (snd r) = true.
Proof.
  intros Hs. unfold _send. rewrite Hs.
  destruct (faults c) as [|[|] f]; cbn; rewrite ?app_nil_r; auto.
Qed.

Lemma deliver_cons cmd rest f :
  deliver (cmd :: rest) f
  = let d1 := deliver [cmd] f in
    let d2 := deliver rest (snd d1) in
    (fst (fst d1) && fst (fst d2),
     (snd (fst d1) ++ snd (fst d2))%list, snd d2).
Proof.
  destruct f as [|[|] f]; cbn;
    destruct (deliver rest _) as [[ok w] f'']; reflexivity.
Qed.

(** The chain of tests of [set_parameters], over any list of setters
    that send their own line. *)
Lemma chain_delivers (params : Dict.t Q) (l : list (string * setter)) :
  Forall sends_own_line l ->
  forall acc c,
    socket c = true ->
    let r :=
      fold_left
        (fun (acc : bool * controller) (ks : string * setter) =>
           let '(success, c) := acc in
           match Dict.get params (fst ks) with
           | Some v => let '(ok, c') := snd ks v c in (andb success ok, c')
           | None => (success, c)
           end) l (acc, c) in
    let d :=
      deliver
        (flat_map
           (fun ks : string * setter =>
              match Dict.get params (fst ks) with
              | Some v => [command_for (fst ks) v]
              | None => []
              end) l) (faults c) in
    fst r = acc && fst (fst d)
    /\ wire (snd r) = (wire c ++ snd (fst d))%list
    /\ faults (snd r) = snd d
    /\ socket (snd r) = true.
Proof.
  induction 1 as [|ks l Hks Hl IH]; intros acc c Hs.
  - cbn. rewrite andb_true_r, app_nil_r. auto.
  - cbn [fold_left flat_map].
    destruct (Dict.get params (fst ks)) as [v|].
    + destruct (Hks v c) as (c0 & Hrun & Hs0 & Hw0 & Hf0).
      rewrite Hrun.
      assert (Hs0' : socket c0 = true) by congruence.
      pose proof (send_connected (command_for (fst ks) v) c0 Hs0')
        as (Hok & Hw & Hf & Hs1). cbv zeta in *.
      destruct (_send (command_for (fst ks) v) c0) as [ok c1].
      cbn [fst snd] in *.
      specialize (IH (acc && ok) c1 Hs1). cbv zeta in IH.
      destruct IH as (IH1 & IH2 & IH3 & IH4).
      rewrite IH1, IH2, IH3, IH4.
      change ([command_for (fst ks) v] ++ ?x)%list
        with (command_for (fst ks) v :: x).
      rewrite deliver_cons. cbv zeta. cbn [fst snd].
      rewrite Hok, Hw, Hf, Hw0, Hf0.
      repeat split.
      * now rewrite andb_assoc.
      * now rewrite app_assoc.
    + cbn [app]. now apply IH.
Qed.

(** [set_parameters] on a connected client hands the due command lines
    to the network one after the other. *)
Lemma set_parameters_delivers params c :
  socket c = true ->
  fst (set_parameters params c) = fst (fst (deliver (due params) (faults c)))
  /\ wire (snd (set_parameters params c))
     = (wire c ++ snd (fst (deliver (due params) (faults c))))%list
  /\ faults (snd (set_parameters params c))
     = snd (deliver (due params) (faults c))
  /\ socket (snd (set_parameters params c)) = true.
Proof.
  intros Hs.
  exact (chain_delivers params dispatch dispatch_sends_own_lines true c Hs).
Qed.

(** For each mode the due lines of a vector are the lines of its values
    under the mode's names, in that order; values beyond the names are
    ignored. *)
Lemma due_of_vector mode values :
  due (Dict.of_pairs (combine (get_param_names mode) values))
  = commands_for (get_param_names mode) values.
Proof.
  unfold get_param_names.
  destruct (String.eqb mode "tick");
    [|destruct (String.eqb mode "corr");
      [|destruct (String.eqb mode "marker");
        [|destruct (String.eqb mode "sync")]]];
    repeat first [reflexivity | destruct values as [|? values]].
Qed.

Lemma from_array_is_set_parameters values mode c :
  set_parameters_from_array values mode c
  = set_parameters (Dict.of_pairs (combine (get_param_names mode) values)) c.
Proof. reflexivity. Qed.

Lemma deliver_no_faults cmds : deliver cmds [] = (true, cmds, []).
Proof.
  induction cmds as [|c cmds IH]; [reflexivity|].
  cbn. now rewrite IH.
Qed.

Lemma deliver_spec cmds :
  forall f,
    fst (fst (deliver cmds f)) = forallb negb (firstn (List.length cmds) f)
    /\ snd (deliver cmds f) = skipn (List.length cmds) f
    /\ (List.length (snd (fst (deliver cmds f)))
        + List.length (filter (fun b : bool => b)
                         (firstn (List.length cmds) f))
        = List.length cmds)%nat.
Proof.
  induction cmds as [|c cmds IH]; intros f.
  - cbn. auto.
  - destruct f as [|[|] f]; cbn [deliver].
    + rewrite deliver_no_faults. cbn. auto with arith.
    + destruct (IH f) as (H1 & H2 & H3).
      destruct (deliver cmds f) as [[ok w] f'']. cbn in *.
      repeat split; [assumption | lia].
    + destruct (IH f) as (H1 & H2 & H3).
      destruct (deliver cmds f) as [[ok w] f'']. cbn in *.
      repeat split; [assumption | assumption | lia].
Qed.

(** X1.  One send per parameter.  On a connected client whose sends all
    succeed, [set_parameters_from_array] returns [True] and has sent, after
    what was sent before, exactly the command lines of the values under the
    mode's names, in name order. *)
Theorem vector_sent_in_name_order (values : list Q) (mode : string)
    (c : controller) :
  socket c = true -> faults c = [] ->
  fst (set_parameters_from_array values mode c) = true
  /\ wire (snd (set_parameters_from_array values mode c))
     = (wire c ++ commands_for (get_param_names mode) values)%list.
Proof.
  intros Hs Hf. rewrite from_array_is_set_parameters.
  destruct (set_parameters_delivers
              (Dict.of_pairs (combine (get_param_names mode) values)) c Hs)
    as (H1 & H2 & _).
  rewrite H1, H2, Hf, due_of_vector, deliver_no_faults. auto.
Qed.

Lemma vector_sent_in_name_order_witness :
  wire (snd (set_parameters_from_array [7 # 10; 4] "corr" (connect init)))
  = [("SET_CORR_CONFIDENCE", AFloat (7 # 10)); ("SET_CORR_MAX_MISSES", AInt 4)].
Proof.
  destruct (vector_sent_in_name_order [7 # 10; 4] "corr" (connect init))
    as [_ H]; [reflexivity | reflexivity |].
  exact H.
Defined.

(** X2.  A failed send does not stop the batch.  On a connected client,
    whatever the outcomes of the sends, [set_parameters_from_array] attempts
    one send per value that has a name (it uses up that many outcomes), and
    returns [True] exactly when none of those sends failed. *)
Theorem every_parameter_attempted (values : list Q) (mode : string)
    (c : controller) :
  socket c = true ->
  let n := Nat.min (List.length (get_param_names mode)) (List.length values) in
  faults (snd (set_parameters_from_array values mode c))
  = skipn n (faults c)
  /\ fst (set_parameters_from_array values mode c)
     = forallb negb (firstn n (faults c))
  /\ (List.length (wire (snd (set_parameters_from_array values mode c)))
      = List.length (wire c) + n
        - List.length (filter (fun b : bool => b) (firstn n (faults c))))%nat.
Proof.
  intros Hs n. rewrite from_array_is_set_parameters.
  destruct (set_parameters_delivers
              (Dict.of_pairs (combine (get_param_names mode) values)) c Hs)
    as (H1 & H2 & H3 & _).
  rewrite H1, H2, H3, due_of_vector.
  assert (Hn : List.length (commands_for (get_param_names mode) values) = n).
  { unfold commands_for. now rewrite length_map, length_combine. }
  destruct (deliver_spec (commands_for (get_param_names mode) values)
              (faults c)) as (D1 & D2 & D3).
  rewrite Hn in D1, D2, D3. rewrite D1, D2, length_app.
  repeat split. lia.
Qed.

Lemma every_parameter_attempted_witness :
  let c := with_net (connect init) [] [true; false] in
  fst (set_parameters_from_array [3; 1 # 2; 1 # 20; 5] "tick" c) = false
  /\ List.length
       (wire (snd (set_parameters_from_array [3; 1 # 2; 1 # 20; 5] "tick" c)))
     = 3%nat.
Proof.
  intros c.
  destruct (every_parameter_attempted [3; 1 # 2; 1 # 20; 5] "tick" c)
    as (_ & Hok & Hlen); [reflexivity|].
  split; [exact Hok | exact Hlen].
Defined.

Lemma send_disconnected cmd c :
  socket c = false -> _send cmd c = (false, c).
Proof. intros Hs. unfold _send. now rewrite Hs. Qed.

Lemma chain_disconnected (params : Dict.t Q) (l : list (string * setter)) :
  Forall sends_own_line l ->
  forall acc c,
    socket c = false ->
    let r :=
      fold_left
        (fun (acc : bool * controller) (ks : string * setter) =>
           let '(success, c) := acc in
           match Dict.get params (fst ks) with
           | Some v => let '(ok, c') := snd ks v c in (andb success ok, c')
           | None => (success, c)
           end) l (acc, c) in
    fst r
    = acc && match flat_map
                     (fun ks : string * setter =>
                        match Dict.get params (fst ks) with
                        | Some v => [command_for (fst ks) v]
                        | None => []
                        end) l
             with [] => true | _ => false end
    /\ wire (snd r) = wire c /\ faults (snd r) = faults c
    /\ socket (snd r) = false.
Proof.
  induction 1 as [|ks l Hks Hl IH]; intros acc c Hs.
  - cbn. rewrite andb_true_r. auto.
  - cbn [fold_left flat_map].
    destruct (Dict.get params (fst ks)) as [v|].
    + destruct (Hks v c) as (c0 & Hrun & Hs0 & Hw0 & Hf0).
      rewrite Hrun, send_disconnected by congruence.
      assert (Hs0' : socket c0 = false) by congruence.
      specialize (IH (acc && false) c0 Hs0'). cbv zeta in IH.
      destruct IH as (IH1 & IH2 & IH3 & IH4).
      rewrite IH1, IH2, IH3, IH4, Hw0, Hf0.
      cbn [app]. rewrite !andb_false_r. auto.
    + cbn [app]. now apply IH.
Qed.

(** X3.  Without a socket nothing goes out.  On a client that was never
    connected, [set_parameters_from_array] sends nothing and returns
    [False] as soon as one value has a name ([True] for no value). *)
Theorem nothing_sent_without_socket (values : list Q) (mode : string)
    (c : controller) :
  socket c = false ->
  wire (snd (set_parameters_from_array values mode c)) = wire c
  /\ fst (set_parameters_from_array values mode c)
     = match values with [] => true | _ => false end.
Proof.
  intros Hs. rewrite from_array_is_set_parameters.
  destruct (chain_disconnected
              (Dict.of_pairs (combine (get_param_names mode) values))
              dispatch dispatch_sends_own_lines true c Hs)
    as (H1 & H2 & _).
  split; [exact H2|].
  unfold set_parameters. rewrite H1.
  change (flat_map _ dispatch)
    with (due (Dict.of_pairs (combine (get_param_names mode) values))).
  rewrite due_of_vector. unfold commands_for.
  destruct values as [|v values]; [now rewrite combine_nil|].
  unfold get_param_names.
  destruct (String.eqb mode "tick");
    [|destruct (String.eqb mode "corr");
      [|destruct (String.eqb mode "marker");
        [|destruct (String.eqb mode "sync")]]]; reflexivity.
Qed.

Lemma nothing_sent_without_socket_witness :
  wire (snd (set_parameters_from_array [3; 1 # 2] "tick" init)) = []
  /\ fst (set_parameters_from_array [3; 1 # 2] "tick" init) = false
  /\ threshold (tick_params
                  (snd (set_parameters_from_array [3; 1 # 2] "tick" init)))
     = 3.
Proof.
  destruct (nothing_sent_without_socket [3; 1 # 2] "tick" init)
    as [Hw Hok]; [reflexivity|].
  split; [exact Hw|]. split; [exact Hok | reflexivity].
Defined.

(** ** Parameter client: the static tables *)

Lemma bounds_follow_names mode :
  get_bounds mode = map bound (get_param_names mode).
Proof.
  unfold get_bounds, get_param_names.
  destruct (String.eqb mode "tick");
    [|destruct (String.eqb mode "corr");
      [|destruct (String.eqb mode "marker");
        [|destruct (String.eqb mode "sync")]]]; reflexivity.
Qed.

Lemma names_are_known mode :
  Forall (fun n => In n all_names) (get_param_names mode).
Proof.
  unfold get_param_names.
  destruct (String.eqb mode "tick");
    [|destruct (String.eqb mode "corr");
      [|destruct (String.eqb mode "marker");
        [|destruct (String.eqb mode "sync")]]];
    repeat (apply Forall_cons; [cbn; tauto|]); apply Forall_nil.
Qed.

Lemma known_bound_ordered n :
  In n all_names ->
  Dict.get PARAM_BOUNDS n = Some (bound n) /\ fst (bound n) < snd (bound n).
Proof.
  cbn. intros H.
  repeat (destruct H as [<-|H]; [split; reflexivity|]).
  contradiction.
Qed.

(** X4.  For every mode string, the bounds are those of the mode's names, one
    per name and in the same order; each name is a key of [PARAM_BOUNDS]
    and each bound has its minimum strictly below its maximum. *)
Theorem bounds_aligned_and_ordered (mode : string) :
  get_bounds mode = map bound (get_param_names mode)
  /\ List.length (get_bounds mode) = List.length (get_param_names mode)
  /\ Forall (fun n => Dict.get PARAM_BOUNDS n = Some (bound n))
            (get_param_names mode)
  /\ Forall (fun b => fst b < snd b) (get_bounds mode).
Proof.
  rewrite bounds_follow_names, length_map.
  split; [reflexivity|]. split; [reflexivity|].
  pose proof (names_are_known mode) as Hk.
  split.
  - eapply Forall_impl; [|exact Hk].
    intros n Hn. now apply known_bound_ordered.
  - apply Forall_map. eapply Forall_impl; [|exact Hk].
    intros n Hn. now apply known_bound_ordered.
Qed.

End Batches.

(** ** Sync metrics over any buffer *)

Section SyncMetrics.
Import Py Telemetry Buffers.

Lemma sync_loop_cons start s rest a :
  sync_loop start (s :: rest) a
  = sync_loop start rest
      {| confidences := confidences a ++ [ss_confidence s];
         ttl := if is_locked s && is_inf (ttl a)
                then Fin (ss_timestamp s - start) else ttl a;
         total_time :=
           total_time a
           + match rest with
             | next :: _ => ss_timestamp next - ss_timestamp s
             | [] => 1 # 10
             end;
         locked_time :=
           if is_locked s
           then locked_time a
                + match rest with
                  | next :: _ => ss_timestamp next - ss_timestamp s
                  | [] => 1 # 10
                  end
           else locked_time a |}.
Proof. reflexivity. Qed.

(** With time stamps that never go back, the locked time stays between
    zero and the total time, and the total time ends above zero. *)
Lemma sync_loop_times start states :
  forall a,
    ascending (map ss_timestamp states) ->
    0 <= locked_time a -> locked_time a <= total_time a ->
    0 <= locked_time (sync_loop start states a)
    /\ locked_time (sync_loop start states a)
       <= total_time (sync_loop start states a)
    /\ (states <> [] ->
        total_time a + (1 # 10) <= total_time (sync_loop start states a)).
Proof.
  induction states as [|s rest IH]; intros a Hasc H0 Hle.
  - cbn. repeat split; try assumption. congruence.
  - rewrite sync_loop_cons.
    set (dwell := match rest with
                  | next :: _ => ss_timestamp next - ss_timestamp s
                  | [] => 1 # 10
                  end).
    assert (Hd : 0 <= dwell /\ (rest = [] -> dwell == 1 # 10)).
    { subst dwell. destruct rest as [|next rest'].
      - split; [discriminate | reflexivity].
      - cbn in Hasc. split; [lra | discriminate]. }
    destruct Hd as [Hd Hlast].
    assert (Hrest : ascending (map ss_timestamp rest)).
    { destruct rest as [|next rest']; [exact I | apply Hasc]. }
    match goal with
    | |- context [sync_loop start rest ?b] =>
        specialize (IH b Hrest); cbn [locked_time total_time] in IH
    end.
    destruct (is_locked s).
    + destruct IH as (I1 & I2 & I3); [lra | lra |].
      repeat split; try assumption. intros _.
      destruct rest as [|next rest'].
      * cbn [sync_loop total_time]. specialize (Hlast eq_refl). lra.
      * assert (Hne : next :: rest' <> []) by discriminate.
        specialize (I3 Hne). lra.
    + destruct IH as (I1 & I2 & I3); [lra | lra |].
      repeat split; try assumption. intros _.
      destruct rest as [|next rest'].
      * cbn [sync_loop total_time]. specialize (Hlast eq_refl). lra.
      * assert (Hne : next :: rest' <> []) by discriminate.
        specialize (I3 Hne). lra.
Qed.

Lemma sync_loop_confidences start states :
  forall a,
    confidences (sync_loop start states a)
    = (confidences a ++ map ss_confidence states)%list.
Proof.
  induction states as [|s rest IH]; intros a.
  - cbn. now rewrite app_nil_r.
  - rewrite sync_loop_cons, IH. cbn [confidences].
    now rewrite <- app_assoc.
Qed.

Lemma fold_plus_shift l : forall a, fold_left Qplus l a == a + sum l.
Proof.
  unfold sum. induction l as [|x l IH]; intros a; cbn [fold_left].
  - ring.
  - rewrite IH, (IH (0 + x)). ring.
Qed.

Lemma sum_cons x l : sum (x :: l) == x + sum l.
Proof. unfold sum at 1. cbn [fold_left]. rewrite fold_plus_shift. ring. Qed.

Lemma sum_between lo hi l :
  Forall (fun x => lo <= x /\ x <= hi) l ->
  lo * of_nat (List.length l) <= sum l
  /\ sum l <= hi * of_nat (List.length l).
Proof.
  unfold of_nat.
  induction 1 as [|x l [Hlo Hhi] Hl [IH1 IH2]].
  - cbn. split; ring_simplify; apply Qle_refl.
  - rewrite sum_cons. cbn [List.length].
    rewrite Nat2Z.inj_succ, <- Z.add_1_r, inject_Z_plus.
    split; ring_simplify; [ring_simplify in IH1 | ring_simplify in IH2]; lra.
Qed.

Lemma of_nat_pos n : (0 < n)%nat -> 0 < of_nat n.
Proof.
  intros H. unfold of_nat. rewrite <- (Zlt_Qlt 0). lia.
Qed.



Lemma sync_loop_ttl start states :
  forall a,
    ttl (sync_loop start states a)
    = if is_inf (ttl a) then
        match find is_locked states with
        | Some s => Fin (ss_timestamp s - start)
        | None => ttl a
        end
      else ttl a.
Proof.
  induction states as [|s rest IH]; intros a.
  - cbn. now destruct (is_inf (ttl a)).
  - rewrite sync_loop_cons, IH. cbn [ttl find].
    destruct (is_locked s), (is_inf (ttl a)) eqn:E; cbn [andb is_inf];
      try reflexivity; now rewrite E.
Qed.

Lemma sync_loop_unlocked start states :
  forall a,
    forallb (fun s => negb (is_locked s)) states = true ->
    locked_time (sync_loop start states a) = locked_time a.
Proof.
  induction states as [|s rest IH]; intros a H; [reflexivity|].
  cbn [forallb] in H. apply andb_prop in H. destruct H as [Hs Hrest].
  apply negb_true_iff in Hs.
  rewrite sync_loop_cons, IH by exact Hrest. cbn [locked_time].
  now rewrite Hs.
Qed.

Lemma sync_loop_all_locked start states :
  forall a,
    forallb is_locked states = true ->
    locked_time a == total_time a ->
    locked_time (sync_loop start states a)
    == total_time (sync_loop start states a).
Proof.
  induction states as [|s rest IH]; intros a H Heq; [exact Heq|].
  cbn [forallb] in H. apply andb_prop in H. destruct H as [Hs Hrest].
  rewrite sync_loop_cons. apply IH; [exact Hrest|].
  cbn [locked_time total_time]. rewrite Hs, Heq. reflexivity.
Qed.

(** X6.  Time to lock.  For every buffer, [time_to_lock] is the time stamp of
    the first LOCKED sample minus that of the first sample, and infinite
    when no sample is LOCKED; with no LOCKED sample [locked_pct] is 0. *)
Theorem time_to_lock_is_first_locked (st : listener) :
  time_to_lock (get_sync_metrics st)
  = match sync_states st, find is_locked (sync_states st) with
    | first :: _, Some s => Fin (ss_timestamp s - ss_timestamp first)
    | _, _ => PInf
    end
  /\ (find is_locked (sync_states st) = None ->
      locked_pct (get_sync_metrics st) == 0).
Proof.
  unfold get_sync_metrics.
  destruct (sync_states st) as [|first rest]; [split; reflexivity|].
  cbn [time_to_lock locked_pct]. fold acc0.
  rewrite sync_loop_ttl. cbn [acc0 ttl is_inf].
  split; [now destruct (find is_locked (first :: rest))|].
  intros Hnone.
  assert (Hall : forallb (fun s => negb (is_locked s)) (first :: rest) = true).
  { apply forallb_forall. intros s Hin.
    apply negb_true_iff. destruct (is_locked s) eqn:E; [|reflexivity].
    exfalso. apply (find_none _ _ Hnone) in Hin. congruence. }
  rewrite (sync_loop_unlocked _ _ acc0 Hall). cbn [acc0 locked_time].
  destruct (ltb 0 _); [|reflexivity].
  unfold Qdiv. ring.
Qed.

(** X7.  A buffer that is LOCKED throughout.  When every sample is LOCKED and
    the time stamps never go back, [locked_pct] is 100, [time_to_lock] is 0
    and there is no state change. *)
Theorem always_locked_scores_full (st : listener) :
  sync_states st <> [] ->
  forallb is_locked (sync_states st) = true ->
  ascending (map ss_timestamp (sync_states st)) ->
  locked_pct (get_sync_metrics st) == 100
  /\ (exists t, time_to_lock (get_sync_metrics st) = Fin t /\ t == 0)
  /\ state_changes (get_sync_metrics st) = 0%nat.
Proof.
  intros Hne Hall Hasc. unfold get_sync_metrics.
  destruct (sync_states st) as [|first rest]; [congruence|].
  cbn [locked_pct time_to_lock state_changes]. fold acc0.
  destruct (sync_loop_times (ss_timestamp first) (first :: rest) acc0 Hasc)
    as (_ & _ & Hpos); [apply Qle_refl | apply Qle_refl |].
  specialize (Hpos Hne). cbn [acc0 total_time] in Hpos.
  pose proof (sync_loop_all_locked (ss_timestamp first) (first :: rest) acc0
                Hall (Qeq_refl 0)) as Heq.
  rewrite sync_loop_ttl. cbn [acc0 ttl is_inf find].
  cbn [forallb] in Hall. apply andb_prop in Hall. destruct Hall as [Hf Hr].
  rewrite Hf.
  set (a := sync_loop (ss_timestamp first) (first :: rest) acc0) in *.
  assert (Ht : 0 < total_time a) by lra.
  apply ltb_lt in Ht as Hb. rewrite Hb.
  split; [|split].
  - rewrite Heq. field. lra.
  - eexists. split; [reflexivity | ring].
  - clear - Hf Hr. revert first Hf Hr.
    induction rest as [|b rest IH]; intros first Hf Hr; [reflexivity|].
    cbn [forallb] in Hr. apply andb_prop in Hr. destruct Hr as [Hb Hr].
    change (count_changes (first :: b :: rest))
      with ((if String.eqb (ss_state b) (ss_state first) then 0 else 1)
            + count_changes (b :: rest))%nat.
    rewrite (IH b Hb Hr).
    unfold is_locked in Hf, Hb.
    apply String.eqb_eq in Hf, Hb. rewrite Hf, Hb.
    now rewrite String.eqb_refl.
Qed.

Lemma always_locked_scores_full_witness :
  let st := {| latest := []; marker_events := []; message_queue := [];
               sync_states :=
                 [ {| ss_timestamp := 5; ss_state := "LOCKED";
                      ss_confidence := 9 # 10 |};
                   {| ss_timestamp := 8; ss_state := "LOCKED";
                      ss_confidence := 8 # 10 |} ] |} in
  locked_pct (get_sync_metrics st) == 100
  /\ state_changes (get_sync_metrics st) = 0%nat.
Proof.
  intros st.
  destruct (always_locked_scores_full st) as (H1 & _ & H3).
  - discriminate.
  - reflexivity.
  - cbn. repeat split; discriminate.
  - split; assumption.
Defined.

End SyncMetrics.

(** ** Marker metrics over any buffer *)

Section MarkerMetrics.
Import Py Telemetry Buffers.

Lemma sum_nonneg l : Forall (fun x => 0 <= x) l -> 0 <= sum l.
Proof.
  induction 1 as [|x l Hx Hl IH]; [discriminate|].
  rewrite sum_cons. lra.
Qed.

Lemma square_nonneg x : 0 <= x * x.
Proof.
  destruct (Qlt_le_dec x 0) as [H|H].
  - setoid_replace (x * x) with ((- x) * (- x)) by ring.
    apply Qmult_le_0_compat; lra.
  - now apply Qmult_le_0_compat.
Qed.

(** The gaps of a non-empty list add up to its last value minus its
    first. *)
Lemma sum_gaps first rest :
  sum (gaps (first :: rest)) == last rest first - first.
Proof.
  revert first. induction rest as [|b rest IH]; intros first.
  - cbn. ring.
  - change (gaps (first :: b :: rest)) with ((b - first) :: gaps (b :: rest)).
    rewrite sum_cons, IH, last_cons. ring.
Qed.

Lemma gaps_length first rest :
  List.length (gaps (first :: rest)) = List.length rest.
Proof.
  revert first. induction rest as [|b rest IH]; intros first; [reflexivity|].
  change (gaps (first :: b :: rest)) with ((b - first) :: gaps (b :: rest)).
  cbn [List.length]. now rewrite IH.
Qed.

(** The metrics of a non-empty buffer, field by field. *)
Lemma marker_metrics_cons st e rest :
  marker_events st = e :: rest ->
  let events := e :: rest in
  let durations := map (fun e => num (me_parsed e) "duration_ms" 0) events in
  let avg := sum durations / of_nat (List.length events) in
  let intervals := gaps (map me_timestamp events) in
  get_marker_metrics st
  = {| count := List.length events;
       avg_duration_ms := avg;
       duration_variance :=
         if (1 <? List.length events)%nat
         then sum (map (fun d => (d - avg) * (d - avg)) durations)
              / of_nat (List.length events)
         else 0;
       avg_interval_sec :=
         match intervals with
         | [] => 0
         | _ => sum intervals / of_nat (List.length intervals)
         end;
       interval_error_sec :=
         match intervals with
         | [] => 60
         | _ => abs (sum intervals / of_nat (List.length intervals) - 60)
         end |}.
Proof.
  intros E. unfold get_marker_metrics. rewrite E. cbv zeta.
  destruct (gaps (map me_timestamp (e :: rest))); reflexivity.
Qed.

(** X8.  Marker metrics never go negative, and count what is buffered.  For
    every buffer, [count] is the number of buffered events and both
    [duration_variance] and [interval_error_sec] are at least 0; with fewer
    than two events the average interval is 0, the interval error the full
    60 and the variance 0. *)
Theorem marker_metrics_basics (st : listener) :
  count (get_marker_metrics st) = List.length (marker_events st)
  /\ 0 <= duration_variance (get_marker_metrics st)
  /\ 0 <= interval_error_sec (get_marker_metrics st)
  /\ ((List.length (marker_events st) < 2)%nat ->
      avg_interval_sec (get_marker_metrics st) = 0
      /\ interval_error_sec (get_marker_metrics st) = 60
      /\ duration_variance (get_marker_metrics st) = 0).
Proof.
  destruct (marker_events st) as [|e rest] eqn:E.
  - unfold get_marker_metrics. rewrite E. cbn. repeat split; discriminate.
  - rewrite (marker_metrics_cons st e rest E). cbv zeta.
    cbn [count duration_variance interval_error_sec avg_interval_sec].
    split; [reflexivity|]. split; [|split].
    + destruct (1 <? List.length (e :: rest))%nat eqn:Hn; [|apply Qle_refl].
      apply Qle_shift_div_l.
      * apply of_nat_pos. cbn. lia.
      * rewrite Qmult_0_l. apply sum_nonneg. apply Forall_map.
        apply Forall_forall. intros d _. apply square_nonneg.
    + destruct (gaps (map me_timestamp (e :: rest))).
      * discriminate.
      * apply Qabs_nonneg.
    + intros Hlen. destruct rest; [|cbn in Hlen; lia].
      repeat split.
Qed.

(** X9.  The average interval is the span over the number of gaps.  With at
    least two buffered events, [avg_interval_sec] is the last time stamp
    minus the first, divided by the number of events minus one; so markers
    that span exactly 60 s per gap have interval error 0. *)
Theorem marker_average_interval_is_span (st : listener)
    (first : marker_event) (rest : list marker_event) :
  marker_events st = first :: rest ->
  rest <> [] ->
  avg_interval_sec (get_marker_metrics st)
  == (me_timestamp (last rest first) - me_timestamp first)
     / of_nat (List.length rest)
  /\ (me_timestamp (last rest first) - me_timestamp first
      == 60 * of_nat (List.length rest) ->
      interval_error_sec (get_marker_metrics st) == 0).
Proof.
  intros E Hne. rewrite (marker_metrics_cons st first rest E). cbv zeta.
  cbn [map avg_interval_sec interval_error_sec].
  pose proof (sum_gaps (me_timestamp first) (map me_timestamp rest)) as Hsum.
  pose proof (gaps_length (me_timestamp first) (map me_timestamp rest))
    as Hlen.
  rewrite length_map in Hlen.
  assert (Hlast : last (map me_timestamp rest) (me_timestamp first)
                  = me_timestamp (last rest first)).
  { clear. revert first. induction rest as [|b rest IH]; intros first;
      [reflexivity|].
    cbn [map]. now rewrite !last_cons, IH. }
  rewrite Hlast in Hsum.
  destruct (gaps (me_timestamp first :: map me_timestamp rest))
    as [|g gs] eqn:G.
  { destruct rest; [congruence | discriminate]. }
  rewrite Hlen, Hsum.
  split; [reflexivity|].
  intros Hspan. rewrite Hspan.
  assert (Hpos : 0 < of_nat (List.length rest)).
  { apply of_nat_pos. destruct rest; [congruence | cbn; lia]. }
  unfold abs.
  setoid_replace (60 * of_nat (List.length rest) / of_nat (List.length rest)
                  - 60) with 0.
  - reflexivity.
  - field. lra.
Qed.

Lemma marker_average_interval_is_span_witness :
  let ev t := {| me_timestamp := t; me_parsed := [] |} in
  let st := {| latest := []; marker_events := [ev 10; ev 70; ev 130];
               sync_states := []; message_queue := [] |} in
  interval_error_sec (get_marker_metrics st) == 0.
Proof.
  intros ev st.
  destruct (marker_average_interval_is_span st (ev 10) [ev 70; ev 130])
    as [_ H]; [reflexivity | discriminate |].
  apply H. reflexivity.
Defined.

End MarkerMetrics.

(** ** Ingestor: what the receive loop keeps *)

Section Ingest.
Import Py Telemetry Buffers Arrivals.

Lemma on_datagram_is_store now bytes st :
  on_datagram now bytes st
  = Return (match message_of (Datagram now bytes) with
            | Some m => store m st
            | None => st
            end).
Proof.
  unfold on_datagram, message_of.
  destruct (parse_message_returns now bytes) as [[m|] ->]; reflexivity.
Qed.

(** The loop stores the messages of its passes one after the other. *)
Lemma listen_loop_is_fold passes :
  forall st,
    _listen_loop passes st
    = Return (fold_left (fun st m => store m st) (messages passes) st).
Proof.
  induction passes as [|[now bytes|] rest IH]; intros st.
  - reflexivity.
  - cbn [_listen_loop]. rewrite on_datagram_is_store.
    unfold messages. cbn [flat_map]. rewrite fold_left_app.
    fold (messages rest). rewrite IH.
    destruct (message_of (Datagram now bytes)); reflexivity.
  - cbn [_listen_loop]. rewrite IH. reflexivity.
Qed.

Lemma fold_store_latest ch msgs :
  forall st,
    get_latest (fold_left (fun st m => store m st) msgs st) ch
    = last_on ch msgs (get_latest st ch).
Proof.
  unfold last_on.
  induction msgs as [|m msgs IH]; intros st; [reflexivity|].
  cbn [fold_left]. rewrite IH. f_equal.
  unfold get_latest, store. cbn [latest]. apply get_set.
Qed.

Lemma fold_store_buffers msgs :
  forall st,
    marker_events (fold_left (fun st m => store m st) msgs st)
    = (marker_events st ++ flat_map marker_of msgs)%list
    /\ sync_states (fold_left (fun st m => store m st) msgs st)
       = (sync_states st ++ flat_map sync_of msgs)%list.
Proof.
  induction msgs as [|m msgs IH]; intros st.
  - cbn. now rewrite !app_nil_r.
  - cbn [fold_left flat_map]. destruct (IH (store m st)) as [-> ->].
    unfold store, marker_of, sync_of. cbn [marker_events sync_states].
    destruct (String.eqb (channel m) "MARK" && Dict.nonempty (parsed m));
      destruct (String.eqb (channel m) "SYNC" && Dict.nonempty (parsed m));
      cbn [app]; rewrite <- ?app_assoc; cbn [app]; rewrite ?app_nil_r;
      split; reflexivity.
Qed.

Lemma fold_store_queue msgs :
  forall st,
    (List.length (message_queue st) <= queue_maxsize)%nat ->
    (List.length
       (message_queue (fold_left (fun st m => store m st) msgs st))
     <= queue_maxsize)%nat
    /\ exists more,
         message_queue (fold_left (fun st m => store m st) msgs st)
         = (message_queue st ++ more)%list.
Proof.
  induction msgs as [|m msgs IH]; intros st Hq.
  - split; [exact Hq|]. exists []. now rewrite app_nil_r.
  - cbn [fold_left].
    assert (Hstep :
      (List.length (message_queue (store m st)) <= queue_maxsize)%nat
      /\ exists one, message_queue (store m st)
                     = (message_queue st ++ one)%list).
    { unfold store. cbn [message_queue].
      destruct (List.length (message_queue st) <? queue_maxsize)%nat eqn:E.
      - apply Nat.ltb_lt in E. split; [|eexists; reflexivity].
        rewrite length_app. cbn. lia.
      - split; [exact Hq|]. exists []. now rewrite app_nil_r. }
    destruct Hstep as [Hlen [one Hone]].
    destruct (IH (store m st) Hlen) as [Hbound [more Hmore]].
    split; [exact Hbound|].
    exists (one ++ more)%list. now rewrite Hmore, Hone, app_assoc.
Qed.



(** X12.  The inspection queue is bounded and never loses what it holds.  If
    the queue holds at most 1000 messages, then after any sequence of
    receive passes it still holds at most 1000, and what it held is still
    there, at the front. *)
Theorem queue_stays_bounded (passes : list recv) (st : listener) :
  (List.length (message_queue st) <= queue_maxsize)%nat ->
  exists st',
    _listen_loop passes st = Return st'
    /\ (List.length (message_queue st') <= queue_maxsize)%nat
    /\ exists more, message_queue st' = (message_queue st ++ more)%list.
Proof.
  intros Hq. eexists. split; [apply listen_loop_is_fold|].
  now apply fold_store_queue.
Qed.

Lemma queue_stays_bounded_witness :
  exists st',
    _listen_loop [Datagram 1 (Wire.datagram "SYNC,LOCKED,0.9"); Timeout]
      fresh = Return st'
    /\ (List.length (message_queue st') <= queue_maxsize)%nat.
Proof.
  destruct (queue_stays_bounded
              [Datagram 1 (Wire.datagram "SYNC,LOCKED,0.9"); Timeout] fresh)
    as (st' & Hrun & Hlen & _).
  - cbn. unfold queue_maxsize. lia.
  - exists st'. split; assumption.
Defined.

End Ingest.

(** ** Ingestor: what a parsed message holds *)

Section Messages.
Import Py Telemetry Buffers.

Lemma split_first_spec s :
  contains comma (fst (split_first s)) = false
  /\ match snd (split_first s) with
     | Some r => s = fst (split_first s) ++ String comma r
     | None => s = fst (split_first s)
     end.
Proof.
  induction s as [|c s [IH1 IH2]]; [split; reflexivity|].
  cbn [split_first]. destruct (Ascii.eqb c comma) eqn:E.
  - apply Ascii.eqb_eq in E. subst c. split; reflexivity.
  - destruct (split_first s) as [h r]. cbn [fst snd contains append] in *.
    rewrite E, IH1. split; [reflexivity|].
    destruct r; now rewrite <- IH2.
Qed.



Lemma float_or_zero_raises s x :
  float_or_zero s = Raise x -> x = ValueError.
Proof.
  unfold float_or_zero. destruct (truthy s); [|discriminate].
  destruct (py_float s); [discriminate | congruence].
Qed.

Lemma int_or_zero_raises s x : int_or_zero s = Raise x -> x = ValueError.
Proof.
  unfold int_or_zero. destruct (truthy s); [|discriminate].
  destruct (py_int s); [discriminate | congruence].
Qed.

Lemma assign_float_tame k s : only_value_errors (assign k (float_or_zero s)).
Proof.
  intros d d' x. unfold assign.
  destruct (float_or_zero s) eqn:E; [discriminate|].
  intros H. injection H as _ <-. now apply float_or_zero_raises in E.
Qed.

Lemma assign_int_tame k s : only_value_errors (assign k (int_or_zero s)).
Proof.
  intros d d' x. unfold assign.
  destruct (int_or_zero s) eqn:E; [discriminate|].
  intros H. injection H as _ <-. now apply int_or_zero_raises in E.
Qed.

Lemma assign_value_tame k v : only_value_errors (assign k (Return v)).
Proof. intros d d' x. discriminate. Qed.

Lemma interval_error_tame :
  only_value_errors (assign_from "interval_error_ms" interval_error).
Proof.
  intros d d' x. unfold assign_from, assign, interval_error.
  destruct (Dict.get d "interval_ms") as [[s|q|z]|]; try discriminate;
    intros H; now injection H as _ <-.
Qed.

Lemma seq_tame (p q : build) :
  only_value_errors p -> only_value_errors q -> only_value_errors (seq p q).
Proof.
  intros Hp Hq d d' x. unfold seq.
  destruct (p d) as [d1 [e|]] eqn:E.
  - intros H. injection H as _ <-. eapply Hp; eassumption.
  - apply Hq.
Qed.

Lemma when_tame b (p : build) :
  only_value_errors p -> only_value_errors (when b p).
Proof.
  intros Hp. destruct b; [exact Hp|]. intros d d' x. discriminate.
Qed.

Lemma try_pass_tame (p : build) d :
  only_value_errors p -> snd (try_pass p d) = None.
Proof.
  intros Hp. unfold try_pass.
  destruct (p d) as [d' [x|]] eqn:E; [|reflexivity].
  now rewrite (Hp _ _ _ E).
Qed.

Ltac tame :=
  repeat first
    [ apply seq_tame | apply when_tame | apply assign_float_tame
    | apply assign_int_tame | apply assign_value_tame
    | apply interval_error_tame ].

Lemma corr_block_tame f : only_value_errors (corr_block f).
Proof. unfold corr_block. tame. Qed.

Lemma mark_block_tame f n : only_value_errors (mark_block f n).
Proof. unfold mark_block. tame. Qed.

(** Outside TICK and CHAN no conversion error escapes the field parser. *)
Lemma guarded_channels_return ch csv :
  ch <> "TICK" -> ch <> "CHAN" ->
  snd (_parse_channel_data ch csv) = None.
Proof.
  intros Ht Hc. apply String.eqb_neq in Ht, Hc.
  unfold _parse_channel_data. rewrite Ht, Hc.
  destruct (String.eqb ch "CORR").
  { apply try_pass_tame. apply when_tame, corr_block_tame. }
  destruct (String.eqb ch "RESP"); [reflexivity|].
  destruct (String.eqb ch "MARK").
  { apply try_pass_tame. apply when_tame, mark_block_tame. }
  destruct (String.eqb ch "SYNC"); [|reflexivity].
  apply try_pass_tame. tame.
Qed.



(** X15.  Short field lists.  A CORR payload with fewer than 15 fields, a MARK
    payload with fewer than 8 and a SYNC payload with fewer than 2 give an
    empty parsed map and no error. *)
Theorem short_payload_parses_empty (csv : string) :
  ((List.length (split csv) < 15)%nat ->
   _parse_channel_data "CORR" csv = ([], None))
  /\ ((List.length (split csv) < 8)%nat ->
      _parse_channel_data "MARK" csv = ([], None))
  /\ ((List.length (split csv) < 2)%nat ->
      _parse_channel_data "SYNC" csv = ([], None)).
Proof.
  unfold _parse_channel_data.
  change (String.eqb "CORR" "CORR") with true.
  change (String.eqb "MARK" "CORR") with false.
  change (String.eqb "MARK" "TICK") with false.
  change (String.eqb "MARK" "CHAN") with false.
  change (String.eqb "MARK" "RESP") with false.
  change (String.eqb "MARK" "MARK") with true.
  change (String.eqb "SYNC" "CORR") with false.
  change (String.eqb "SYNC" "TICK") with false.
  change (String.eqb "SYNC" "CHAN") with false.
  change (String.eqb "SYNC" "RESP") with false.
  change (String.eqb "SYNC" "MARK") with false.
  change (String.eqb "SYNC" "SYNC") with true.
  cbv iota.
  destruct (truthy csv).
  - repeat split; intros H.
    + apply Nat.leb_gt in H. unfold try_pass, when. now rewrite H.
    + apply Nat.leb_gt in H. unfold try_pass, when. now rewrite H.
    + assert (H2 : (2 <=? List.length (split csv))%nat = false)
        by (apply Nat.leb_gt; lia).
      assert (H3 : (3 <=? List.length (split csv))%nat = false)
        by (apply Nat.leb_gt; lia).
      unfold try_pass, when, seq. now rewrite H2, H3.
  - repeat split; intros _; reflexivity.
Qed.

Lemma short_payload_parses_empty_witness :
  _parse_channel_data "CORR" "12:00:01,1000.5,7" = ([], None)
  /\ _parse_channel_data "SYNC" "LOCKED" = ([], None).
Proof.
  destruct (short_payload_parses_empty "12:00:01,1000.5,7") as (Hc & _ & _).
  destruct (short_payload_parses_empty "LOCKED") as (_ & _ & Hs).
  split; [apply Hc | apply Hs]; cbn; lia.
Defined.

Lemma bad_float_raises s :
  truthy s = true -> py_float s = None -> float_or_zero s = Raise ValueError.
Proof. intros Ht Hn. unfold float_or_zero. now rewrite Ht, Hn. Qed.

Lemma bad_int_raises s :
  truthy s = true -> py_int s = None -> int_or_zero s = Raise ValueError.
Proof. intros Ht Hn. unfold int_or_zero. now rewrite Ht, Hn. Qed.

Lemma truthy_field_truthy_payload csv i :
  truthy (field (split csv) i) = true -> truthy csv = true.
Proof.
  destruct csv; [|reflexivity].
  cbn. destruct i as [|[|i]]; discriminate.
Qed.

(** A CHAN payload with a bad number among its first three fields makes
    the field parser raise. *)
Lemma chan_raises csv i :
  (i < 3)%nat -> (i < List.length (split csv))%nat ->
  truthy (field (split csv) i) = true ->
  py_float (field (split csv) i) = None ->
  snd (_parse_channel_data "CHAN" csv) <> None.
Proof.
  intros Hi Hn Ht Hbad.
  pose proof (bad_float_raises _ Ht Hbad) as Hraise.
  unfold _parse_channel_data.
  rewrite (truthy_field_truthy_payload csv i Ht).
  change (String.eqb "CHAN" "CORR") with false.
  change (String.eqb "CHAN" "TICK") with false.
  change (String.eqb "CHAN" "CHAN") with true.
  cbv iota. unfold seq, when, assign.
  destruct i as [|[|[|i]]]; [| | |lia].
  - replace (1 <=? List.length (split csv))%nat with true
      by (symmetry; apply Nat.leb_le; lia).
    rewrite Hraise. discriminate.
  - replace (1 <=? List.length (split csv))%nat with true
      by (symmetry; apply Nat.leb_le; lia).
    replace (2 <=? List.length (split csv))%nat with true
      by (symmetry; apply Nat.leb_le; lia).
    destruct (float_or_zero (field (split csv) 0)); [|discriminate].
    rewrite Hraise. discriminate.
  - replace (1 <=? List.length (split csv))%nat with true
      by (symmetry; apply Nat.leb_le; lia).
    replace (2 <=? List.length (split csv))%nat with true
      by (symmetry; apply Nat.leb_le; lia).
    replace (3 <=? List.length (split csv))%nat with true
      by (symmetry; apply Nat.leb_le; lia).
    destruct (float_or_zero (field (split csv) 0)); [|discriminate].
    destruct (float_or_zero (field (split csv) 1)); [|discriminate].
    rewrite Hraise. discriminate.
Qed.

Lemma tick_raises csv :
  (1 < List.length (split csv))%nat ->
  truthy (field (split csv) 1) = true ->
  py_int (field (split csv) 1) = None ->
  snd (_parse_channel_data "TICK" csv) <> None.
Proof.
  intros Hn Ht Hbad.
  pose proof (bad_int_raises _ Ht Hbad) as Hraise.
  unfold _parse_channel_data.
  rewrite (truthy_field_truthy_payload csv 1 Ht).
  change (String.eqb "TICK" "CORR") with false.
  change (String.eqb "TICK" "TICK") with true.
  cbv iota. unfold seq, when, assign.
  replace (1 <=? List.length (split csv))%nat with true
    by (symmetry; apply Nat.leb_le; lia).
  replace (2 <=? List.length (split csv))%nat with true
    by (symmetry; apply Nat.leb_le; lia).
  rewrite Hraise. discriminate.
Qed.

Lemma raised_payload_is_dropped now bytes ch csv :
  utf8_ok (map Byte.to_N bytes) = true ->
  strip (string_of_list_byte bytes) = ch ++ String comma csv ->
  contains comma ch = false ->
  ch <> EmptyString ->
  snd (_parse_channel_data ch csv) <> None ->
  _parse_message now bytes = Return None.
Proof.
  intros Hok Htext Hch Hne Hraise.
  unfold _parse_message, parse_body, decode_utf8. rewrite Hok, Htext.
  assert (Hsplit : split_first (ch ++ String comma csv) = (ch, Some csv)).
  { clear - Hch. induction ch as [|c ch IH]; [reflexivity|].
    cbn [contains] in Hch. apply orb_false_elim in Hch.
    destruct Hch as [Hc Hch]. cbn [append split_first].
    now rewrite Hc, (IH Hch). }
  rewrite Hsplit.
  replace (truthy (ch ++ String comma csv)) with true
    by (destruct ch; [congruence | reflexivity]).
  cbn [negb].
  destruct (_parse_channel_data ch csv) as [d [e|]]; [reflexivity|].
  now contradiction Hraise.
Qed.



End Messages.

(** ** Result store: what a write touches and keeps *)

Section Writes.
Import Py Store Ledger.

Lemma block_skipped m sec keys mode pd c :
  String.eqb mode m || String.eqb mode "all" = false ->
  block m sec keys mode pd c = c.
Proof. intros H. unfold block. now rewrite H. Qed.

Lemma get_option_block_unowned m sec keys mode pd c s' k :
  String.eqb s' sec && (String.eqb mode m || String.eqb mode "all") = false ->
  get_option (block m sec keys mode pd c) s' k = get_option c s' k.
Proof.
  intros H. apply andb_false_elim in H. destruct H as [H|H].
  - apply get_option_block. now apply String.eqb_neq.
  - now rewrite block_skipped.
Qed.

(** X17.  A write stays in its own sections.  [_write_ini] for a mode leaves
    every option of every section the mode does not own as the file had
    it: a tick write does not touch the correlator, marker or sync
    sections, and a write for an unknown mode touches [optimization_meta]
    only. *)
Theorem write_stays_in_own_sections (f : file) (p : list Q)
    (names : list string) (mode : string) (score : Q) (now : string)
    (sec k : string) :
  owns mode sec = false ->
  get_option (_write_ini f p names mode score now) sec k
  = get_option (read f) sec k.
Proof.
  unfold owns. intros H.
  repeat (apply orb_false_elim in H; destruct H as [H ?]).
  unfold _write_ini.
  rewrite !get_option_set_option, H. cbn [andb].
  rewrite get_option_ensure_section.
  rewrite !get_option_block_unowned by assumption.
  reflexivity.
Qed.

Lemma write_stays_in_own_sections_witness :
  get_option
    (_write_ini
       (Some [("tick_correlator", [("epoch_confidence_threshold", "0.7")])])
       Examples.probe Waterfall.tick_names "tick" 5 Examples.clock0)
    "tick_correlator" "epoch_confidence_threshold"
  = Some "0.7".
Proof.
  rewrite write_stays_in_own_sections; reflexivity.
Defined.

Lemma set_option_keeps c s k v s' k' x :
  get_option c s' k' = Some x ->
  exists y, get_option (set_option c s k v) s' k' = Some y.
Proof.
  intros H. rewrite get_option_set_option.
  destruct (_ && _); eauto.
Qed.

Lemma block_keeps m sec keys mode pd c s' k' x :
  get_option c s' k' = Some x ->
  exists y, get_option (block m sec keys mode pd c) s' k' = Some y.
Proof.
  intros H. unfold block.
  destruct (String.eqb mode m || String.eqb mode "all"); [|eauto].
  rewrite <- (get_option_ensure_section c sec s' k') in H.
  revert x H. generalize (ensure_section c sec). clear c.
  induction keys as [|[[name key] fm] keys IH]; intros c x H;
    cbn [fold_left]; [eauto|].
  destruct (Dict.get pd name) as [v|]; [|eauto].
  destruct (set_option_keeps c sec key (format fm v) s' k' x H) as [y Hy].
  eauto.
Qed.

(** X18.  A write never deletes.  Every option the record file held is still
    there after [_write_ini], in the same section and under the same name
    (its value may have been replaced). *)
Theorem write_keeps_every_option (f : file) (p : list Q)
    (names : list string) (mode : string) (score : Q) (now : string)
    (sec k v : string) :
  get_option (read f) sec k = Some v ->
  exists v', get_option (_write_ini f p names mode score now) sec k = Some v'.
Proof.
  intros H. unfold _write_ini.
  destruct (block_keeps "tick" "tick_detector" tick_keys mode
              (Dict.of_pairs (combine names p)) _ _ _ _ H) as [v1 H1].
  destruct (block_keeps "corr" "tick_correlator" corr_keys mode
              (Dict.of_pairs (combine names p)) _ _ _ _ H1) as [v2 H2].
  destruct (block_keeps "marker" "marker_detector" marker_keys mode
              (Dict.of_pairs (combine names p)) _ _ _ _ H2) as [v3 H3].
  destruct (block_keeps "sync" "sync_detector" sync_keys mode
              (Dict.of_pairs (combine names p)) _ _ _ _ H3) as [v4 H4].
  rewrite <- (get_option_ensure_section _ "optimization_meta") in H4.
  destruct (set_option_keeps _ "optimization_meta" "last_mode" mode _ _ _ H4)
    as [v5 H5].
  destruct (set_option_keeps _ "optimization_meta" "last_score"
              (fmt_fixed 6 score) _ _ _ H5) as [v6 H6].
  destruct (set_option_keeps _ "optimization_meta" "last_run" now _ _ _ H6)
    as [v7 H7].
  exact (set_option_keeps _ "optimization_meta" (score_key mode)
           (fmt_fixed 6 score) _ _ _ H7).
Qed.

Lemma write_keeps_every_option_witness :
  exists v',
    get_option
      (_write_ini
         (Some [("tick_detector", [("threshold_multiplier", "9.9")])])
         Examples.probe Waterfall.tick_names "tick" 5 Examples.clock0)
      "tick_detector" "threshold_multiplier"
    = Some v'.
Proof.
  apply (write_keeps_every_option _ _ _ _ _ _ _ _ "9.9"). reflexivity.
Defined.

(** ** Result store: the score read back *)

Lemma round_half_even_error q :
  Qabs (inject_Z (round_half_even q) - q) <= 1 # 2.
Proof.
  unfold round_half_even.
  pose proof (Qfloor_le q) as Hlo. pose proof (Qlt_floor q) as Hhi.
  rewrite inject_Z_plus in Hhi. change (inject_Z 1) with 1 in Hhi.
  apply Qabs_Qle_condition.
  destruct (Qcompare (q - inject_Z (Qfloor q)) (1 # 2)) eqn:E.
  - apply Qeq_alt in E.
    destruct (Z.even (Qfloor q));
      rewrite ?inject_Z_plus; change (inject_Z 1) with 1; split; lra.
  - apply Qlt_alt in E. split; lra.
  - apply Qgt_alt in E.
    rewrite inject_Z_plus. change (inject_Z 1) with 1. split; lra.
Qed.


End Writes.

(** ** Result store: the all-time best is the least score recorded *)

Section Least.
Import Py Store Ledger.

Lemma existing_none_without_entry mode mode' c :
  lower (score_key mode') = lower (score_key mode) ->
  holds mode (Some c) None ->
  _get_existing_score (Some c) mode' = None.
Proof.
  intros Hk [Hentry Hlast]. unfold _get_existing_score.
  cbn [best_entry] in Hentry.
  rewrite (get_option_same_key c _ _ _ Hk), Hentry.
  destruct (has_section c "optimization_meta"); [|reflexivity].
  destruct (get_option c "optimization_meta" "last_mode") as [lm|] eqn:E;
    [|reflexivity].
  destruct (String.eqb_spec lm mode') as [->|_]; [|reflexivity].
  exfalso. exact (Hlast mode' eq_refl Hk).
Qed.

Lemma scaled_above q (n : Z) : Qmake n 1000000 <= q -> (n <= scaled 6 q)%Z.
Proof.
  intros H. unfold scaled.
  change (inject_Z (Z.of_N (10 ^ N.of_nat 6))) with (inject_Z 1000000).
  pose proof (round_half_even_bounds (q * inject_Z 1000000)) as [Hlo _].
  assert (Hn : inject_Z n <= q * inject_Z 1000000).
  { destruct q as [a b]. unfold Qle in *.
    cbn [Qnum Qden Qmult inject_Z] in *. rewrite Pos.mul_1_r. lia. }
  apply Qfloor_resp_le in Hn. rewrite Qfloor_Z in Hn. lia.
Qed.

Lemma last_mode_after_write f p names mode score now :
  get_option (_write_ini f p names mode score now) "optimization_meta"
    "last_mode" = Some mode.
Proof.
  rewrite meta_after_write.
  change (lower "last_mode") with "last_mode".
  destruct (String.eqb "last_mode" (lower (score_key mode))) eqn:E.
  - apply String.eqb_eq in E.
    destruct (score_key_not_fixed mode) as (_ & _ & H).
    rewrite <- E in H. discriminate.
  - reflexivity.
Qed.

(** One call keeps the file in step with the least score recorded. *)
Lemma record_holds mode (c : call) (d : disk) (acc : option Z) :
  holds mode (best d) acc ->
  holds mode (best (record c d))
    (if same_key mode c then push acc (scaled 6 (c_score c)) else acc).
Proof.
  intros H. unfold record, save_to_ini, same_key. cbn [best].
  destruct (String.eqb (lower (score_key (c_mode c)))
                       (lower (score_key mode))) eqn:Ek.
  - apply String.eqb_eq in Ek.
    destruct acc as [n|].
    + destruct H as (q & Hentry & Hq).
      destruct (best d) as [cfg|]; [|discriminate].
      cbn [best_entry] in Hentry.
      rewrite <- (get_option_same_key cfg _ _ _ Ek) in Hentry.
      rewrite (existing_of_entry _ _ _ _ Hentry (py_float_fmt6 q)), Hq.
      cbn [ext_ltb push].
      destruct (negb (Qle_bool (Qmake n 1000000) (c_score c))) eqn:Hlt.
      * apply ltb_lt in Hlt. apply scaled_below in Hlt.
        exists (c_score c). rewrite entry_after_write.
        rewrite (proj2 (String.eqb_eq _ _) (eq_sym Ek)).
        split; [reflexivity | lia].
      * apply ltb_ge in Hlt. apply scaled_above in Hlt.
        exists q. cbn [best_entry].
        rewrite (get_option_same_key cfg _ _ _ Ek) in Hentry.
        split; [exact Hentry | lia].
    + assert (Hnone : _get_existing_score (best d) (c_mode c) = None).
      { destruct (best d) as [cfg|]; [|reflexivity].
        now apply (existing_none_without_entry mode). }
      rewrite Hnone. cbn [push].
      exists (c_score c). rewrite entry_after_write.
      rewrite (proj2 (String.eqb_eq _ _) (eq_sym Ek)).
      split; reflexivity.
  - destruct (match _get_existing_score (best d) (c_mode c) with
              | Some existing => ext_ltb (Fin (c_score c)) existing
              | None => true
              end); [|exact H].
    assert (Ek' : String.eqb (lower (score_key mode))
                             (lower (score_key (c_mode c))) = false)
      by (now rewrite String.eqb_sym).
    destruct acc as [n|].
    + destruct H as (q & Hentry & Hq). exists q.
      rewrite entry_after_write, Ek'. split; assumption.
    + destruct H as [Hentry _]. split.
      * now rewrite entry_after_write, Ek'.
      * intros lm. rewrite last_mode_after_write.
        intros E. injection E as <-. now apply String.eqb_neq.
Qed.

Lemma record_all_holds mode cs :
  forall d acc,
    holds mode (best d) acc ->
    holds mode (best (record_all cs d))
      (fold_left push (millionths mode cs) acc).
Proof.
  unfold millionths.
  induction cs as [|c cs IH]; intros d acc H; [exact H|].
  cbn [record_all fold_left filter].
  pose proof (record_holds mode c d acc H) as Hstep.
  specialize (IH (record c d) _ Hstep).
  destruct (same_key mode c); exact IH.
Qed.

Lemma fold_push_some l :
  forall n, fold_left push l (Some n) = Some (fold_left Z.min l n).
Proof.
  induction l as [|x l IH]; intros n; [reflexivity|].
  cbn [fold_left push]. apply IH.
Qed.

Lemma fold_push_least l : fold_left push l None = least l.
Proof.
  destruct l as [|x l]; [reflexivity|].
  cbn [fold_left push least]. apply fold_push_some.
Qed.



End Least.

(** ** Optimisation runs: what the best-so-far is *)

Section RunBest.
Import Py Agent Runs.

Lemma track_best_keeps mode p y now a :
  eval_count (track_best mode p y now a) = eval_count a
  /\ _opt_mode (track_best mode p y now a) = _opt_mode a
  /\ telemetry (track_best mode p y now a) = telemetry a.
Proof.
  unfold track_best. destruct (ext_ltb _ _); repeat split.
Qed.

(** The shape of an evaluation: either the penalty exit, with the state
    untouched but for the counter, the parameters sent and the telemetry
    heard, or a score run through the track-best block. *)
Lemma evaluation_shape p w a :
  exists b,
    eval_count b = S (eval_count a) /\ _opt_mode b = _opt_mode a
    /\ best_score b = best_score a /\ best_params b = best_params a
    /\ files b = files a
    /\ if penalised w a
       then objective_function p w a = (penalty, b)
       else exists y,
              objective_function p w a
              = (y, track_best (_opt_mode a) p y (clock w) b).
Proof.
  unfold penalised, objective_function.
  destruct (String.eqb (_opt_mode a) "marker") eqn:Em.
  - apply String.eqb_eq in Em. rewrite Em.
    unfold marker_objective_function.
    destruct (Waterfall.set_parameters_from_array p "marker" (waterfall a))
      as [ok wf].
    exists (with_eval a (S (eval_count a)) wf
              (listen w (Telemetry.clear_marker_events (telemetry a)))).
    do 5 (split; [first [reflexivity | assumption]|]).
    destruct (Nat.eqb _ 0); [reflexivity|]. eexists. reflexivity.
  - destruct (String.eqb (_opt_mode a) "sync") eqn:Es.
    + apply String.eqb_eq in Es. rewrite Es.
      unfold sync_objective_function.
      destruct (Waterfall.set_parameters_from_array p "sync" (waterfall a))
        as [ok wf].
      exists (with_eval a (S (eval_count a)) wf
                (listen w (Telemetry.clear_sync_states (telemetry a)))).
      do 5 (split; [first [reflexivity | assumption]|]).
      eexists. reflexivity.
    + destruct (Waterfall.set_parameters_from_array p (_opt_mode a)
                  (waterfall a)) as [ok wf].
      exists (with_eval a (S (eval_count a)) wf (listen w (telemetry a))).
      do 5 (split; [first [reflexivity | assumption]|]).
      destruct (negb _); [reflexivity|]. eexists. reflexivity.
Qed.

Lemma ext_ltb_irrefl a : ext_ltb a a = false.
Proof.
  destruct a as [x|]; [|reflexivity]. cbn.
  apply negb_false_iff. apply Qle_bool_iff. apply Qle_refl.
Qed.

Lemma ext_ltb_asym a b : ext_ltb a b = true -> ext_ltb b a = false.
Proof.
  destruct a as [x|], b as [y|]; cbn; try discriminate; try reflexivity.
  intros H. apply ltb_lt in H. apply ltb_ge. now apply Qlt_le_weak.
Qed.

(** [a >= b >= c] gives [a >= c], a bound being "not below". *)
Lemma ext_not_below_trans a b c :
  ext_ltb a b = false -> ext_ltb b c = false -> ext_ltb a c = false.
Proof.
  destruct a as [x|], b as [y|], c as [z|]; cbn;
    try discriminate; try reflexivity.
  intros H1 H2. apply ltb_ge in H1, H2. apply ltb_ge.
  eapply Qle_trans; eassumption.
Qed.

Lemma run_ask x next env a :
  run (Ask x next) env a
  = run (next (fst (objective_function x (env (eval_count a)) a))) env
        (snd (objective_function x (env (eval_count a)) a)).
Proof.
  cbn [run]. now destruct (objective_function x (env (eval_count a)) a).
Qed.

(** Through a run the best-so-far never goes up, stays at or below every
    score computed, and is either what it was or one of those scores with
    the point that gave it. *)
Lemma run_tracks mz :
  forall env a,
    let a' := snd (run mz env a) in
    ext_ltb (best_score a) (best_score a') = false
    /\ (forall q, In q (scored mz env a) ->
                  ext_ltb (Fin (snd q)) (best_score a') = false)
    /\ ((best_score a' = best_score a /\ best_params a' = best_params a)
        \/ exists y, best_score a' = Fin y
                     /\ In (best_params a', y) (scored mz env a))
    /\ eval_count a' = (eval_count a + List.length (points mz env a))%nat
    /\ _opt_mode a' = _opt_mode a
    /\ (List.length (scored mz env a) <= List.length (points mz env a))%nat.
Proof.
  induction mz as [ok|e|x next IH]; intros env a.
  - cbn. rewrite ext_ltb_irrefl, Nat.add_0_r.
    repeat split; auto. contradiction.
  - cbn. rewrite ext_ltb_irrefl, Nat.add_0_r.
    repeat split; auto. contradiction.
  - cbv zeta. rewrite run_ask. cbn [scored points].
    set (w := env (eval_count a)).
    destruct (evaluation_shape x w a) as (b & Hn & Hm & Hs & Hp & _ & Hb).
    set (y := fst (objective_function x w a)) in *.
    set (a1 := snd (objective_function x w a)) in *.
    specialize (IH y env a1). cbv zeta in IH.
    destruct IH as (I1 & I2 & I3 & I4 & I5 & I6).
    set (a' := snd (run (next y) env a1)) in *.
    assert (Hstep :
      eval_count a1 = S (eval_count a) /\ _opt_mode a1 = _opt_mode a
      /\ ((penalised w a = true /\ best_score a1 = best_score a
           /\ best_params a1 = best_params a)
          \/ (penalised w a = false
              /\ ((ext_ltb (Fin y) (best_score a) = true
                   /\ best_score a1 = Fin y /\ best_params a1 = x)
                  \/ (ext_ltb (Fin y) (best_score a) = false
                      /\ best_score a1 = best_score a
                      /\ best_params a1 = best_params a))))).
    { subst y a1. destruct (penalised w a).
      - rewrite Hb. cbn [fst snd]. repeat split; auto.
      - destruct Hb as [y0 Hb]. rewrite Hb. cbn [fst snd].
        destruct (track_best_keeps (_opt_mode a) x y0 (clock w) b)
          as (K1 & K2 & _).
        rewrite K1, K2. split; [exact Hn|]. split; [exact Hm|]. right.
        split; [reflexivity|].
        unfold track_best. rewrite Hs.
        destruct (ext_ltb (Fin y0) (best_score a)); [left | right];
          repeat split; assumption. }
    destruct Hstep as (Hn1 & Hm1 & Hcase).
    rewrite I4, I5, Hn1, Hm1. cbn [List.length].
    destruct Hcase as [(Hpen & Hs1 & Hp1) | (Hpen & Hcase)]; rewrite Hpen.
    + cbn [app]. rewrite Hs1 in *. rewrite Hp1 in *.
      repeat split; auto; lia.
    + cbn [app List.length].
      destruct Hcase as [(Hlt & Hs1 & Hp1) | (Hge & Hs1 & Hp1)].
      * rewrite Hs1 in *. rewrite Hp1 in *.
        split; [|split; [|split; [|split; [|split]]]]; auto; try lia.
        -- eapply ext_not_below_trans; [|exact I1].
           now apply ext_ltb_asym.
        -- intros q [<-|Hq]; [exact I1 | now apply I2].
        -- right. destruct I3 as [[E1 E2] | (y' & E1 & E2)].
           ++ exists y. rewrite E2. split; [exact E1 | now left].
           ++ exists y'. split; [exact E1 | now right].
      * rewrite Hs1 in *. rewrite Hp1 in *.
        split; [|split; [|split; [|split; [|split]]]]; auto; try lia.
        -- intros q [<-|Hq]; [|now apply I2].
           eapply ext_not_below_trans; [exact Hge | exact I1].
        -- destruct I3 as [[E1 E2] | (y' & E1 & E2)].
           ++ left. split; assumption.
           ++ right. exists y'. split; [exact E1 | now right].
Qed.

Lemma optimize_reports minimize init method maxit mode env a o :
  fst (optimize minimize init method maxit mode env a) = Return o ->
  score o = best_score (ended minimize init method maxit mode env a)
  /\ params o = best_params (ended minimize init method maxit mode env a)
  /\ iterations o = eval_count (ended minimize init method maxit mode env a).
Proof.
  unfold optimize, ended.
  destruct (run _ env (start init mode a)) as [[ok|e] a1]; cbn [snd].
  - destruct (Waterfall.set_parameters_from_array _ mode _) as [sent wf].
    cbn [fst]. intros H. injection H as <-. repeat split.
  - discriminate.
Qed.


End RunBest.

(** ** Optimisation runs: what is on disk whenever the run stops *)

Section RunFiles.
Import Py Agent Runs Store Ledger.

Lemma last_score_after_write f p names mode score now :
  get_option (_write_ini f p names mode score now) "optimization_meta"
    "last_score" = Some (fmt_fixed 6 score).
Proof.
  rewrite meta_after_write.
  change (lower "last_score") with "last_score".
  destruct (String.eqb "last_score" (lower (score_key mode))); reflexivity.
Qed.

Lemma save_keeps_saved mode p names y now d best :
  saved mode d best ->
  saved mode (save_to_ini p names mode y now d) (Fin y).
Proof.
  intros [(acc & Hholds & _) _]. split.
  - pose proof (record_holds mode
                  {| c_params := p; c_names := names; c_mode := mode;
                     c_score := y; c_now := now |} d acc Hholds) as H.
    unfold same_key in H. cbn [c_mode c_score] in H.
    rewrite String.eqb_refl in H. unfold record in H. cbn in H.
    eexists. split; [exact H|].
    intros y0 E. injection E as <-.
    destruct acc as [n|]; cbn [push]; eexists; split; try reflexivity; lia.
  - intros y0 E. injection E as <-. unfold save_to_ini. cbn [last_run read].
    split; [apply last_mode_after_write | apply last_score_after_write].
Qed.

Lemma evaluation_keeps_saved p w a :
  saved (_opt_mode a) (files a) (best_score a) ->
  saved (_opt_mode a) (files (snd (objective_function p w a)))
        (best_score (snd (objective_function p w a))).
Proof.
  intros H.
  destruct (evaluation_shape p w a) as (b & _ & _ & Hs & _ & Hf & Hb).
  destruct (penalised w a).
  - rewrite Hb. cbn [snd]. now rewrite Hs, Hf.
  - destruct Hb as [y ->]. cbn [snd]. unfold track_best. rewrite Hs, Hf.
    destruct (ext_ltb (Fin y) (best_score a)); cbn [files best_score].
    + eapply save_keeps_saved. exact H.
    + now rewrite Hs, Hf.
Qed.

Lemma run_keeps_saved mz :
  forall env a,
    saved (_opt_mode a) (files a) (best_score a) ->
    saved (_opt_mode a) (files (snd (run mz env a)))
          (best_score (snd (run mz env a))).
Proof.
  induction mz as [ok|e|x next IH]; intros env a H; try exact H.
  rewrite run_ask.
  pose proof (evaluation_keeps_saved x (env (eval_count a)) a H) as H1.
  destruct (evaluation_shape x (env (eval_count a)) a)
    as (b & _ & Hm & _ & _ & _ & Hb).
  assert (Hmode : _opt_mode (snd (objective_function x (env (eval_count a)) a))
                  = _opt_mode a).
  { destruct (penalised (env (eval_count a)) a).
    - rewrite Hb. exact Hm.
    - destruct Hb as [y ->]. cbn [snd].
      destruct (track_best_keeps (_opt_mode a) x y
                  (clock (env (eval_count a))) b) as (_ & K & _).
      now rewrite K. }
  rewrite <- Hmode in H1 |- *. now apply IH.
Qed.



End RunFiles.

(** ** Optimisation runs that hear nothing *)

Section SilentRuns.
Import Py Agent Runs.

Lemma silent_evaluation p w a :
  arrivals w = [] ->
  _opt_mode a <> "sync" ->
  Telemetry.get_latest (telemetry a) "CORR" = None ->
  let r := objective_function p w a in
  fst r = penalty
  /\ files (snd r) = files a /\ best_score (snd r) = best_score a
  /\ best_params (snd r) = best_params a /\ _opt_mode (snd r) = _opt_mode a
  /\ Telemetry.get_latest (telemetry (snd r)) "CORR" = None.
Proof.
  intros Hw Hsync Hcorr. cbv zeta. unfold objective_function.
  destruct (String.eqb (_opt_mode a) "marker") eqn:Em.
  - unfold marker_objective_function.
    destruct (Waterfall.set_parameters_from_array p "marker" (waterfall a))
      as [ok wf].
    unfold listen. rewrite Hw. cbn. repeat split; assumption.
  - destruct (String.eqb (_opt_mode a) "sync") eqn:Es.
    + apply String.eqb_eq in Es. contradiction.
    + destruct (Waterfall.set_parameters_from_array p (_opt_mode a)
                  (waterfall a)) as [ok wf].
      unfold listen. rewrite Hw. cbn [Telemetry._listen_loop].
      unfold Telemetry.get_correlation_metrics. rewrite Hcorr. cbn.
      repeat split; assumption.
Qed.

Lemma silent_run mz :
  forall env a,
    (forall n, arrivals (env n) = []) ->
    _opt_mode a <> "sync" ->
    Telemetry.get_latest (telemetry a) "CORR" = None ->
    files (snd (run mz env a)) = files a
    /\ best_score (snd (run mz env a)) = best_score a
    /\ best_params (snd (run mz env a)) = best_params a
    /\ scored mz env a = [].
Proof.
  induction mz as [ok|e|x next IH]; intros env a Henv Hsync Hcorr;
    try (cbn; repeat split; reflexivity).
  rewrite run_ask. cbn [scored].
  destruct (silent_evaluation x (env (eval_count a)) a (Henv _) Hsync Hcorr)
    as (Hy & Hf & Hs & Hp & Hm & Ht).
  destruct (IH (fst (objective_function x (env (eval_count a)) a)) env
              (snd (objective_function x (env (eval_count a)) a)) Henv)
    as (I1 & I2 & I3 & I4); [now rewrite Hm | exact Ht |].
  rewrite I1, I2, I3, I4, Hf, Hs, Hp.
  assert (Hpen : penalised (env (eval_count a)) a = true).
  { unfold penalised, listen. rewrite (Henv _).
    destruct (String.eqb (_opt_mode a) "marker"); [reflexivity|].
    destruct (String.eqb (_opt_mode a) "sync") eqn:Es;
      [apply String.eqb_eq in Es; contradiction|].
    cbn [Telemetry._listen_loop].
    unfold Telemetry.get_correlation_metrics. now rewrite Hcorr. }
  rewrite Hpen. repeat split; reflexivity.
Qed.

(** X23.  A run that hears nothing saves nothing.  In every mode but sync, if
    no datagram arrives during any evaluation and no CORR message was held
    before, then however many points the minimizer asks for and however it
    ends, no evaluation computes a score, both files are left as they
    were, the best score stays infinite and the best parameters stay the
    seed; a normal end reports exactly that. *)
Theorem silent_run_saves_nothing (minimize : scipy)
    (init : option (list Q)) (method : string) (maxit : nat)
    (mode : string) (env : world) (a : agent) :
  mode <> "sync" ->
  (forall n, arrivals (env n) = []) ->
  Telemetry.get_latest (telemetry a) "CORR" = None ->
  scored (call_minimize minimize init method maxit mode) env
         (start init mode a) = []
  /\ files (snd (optimize minimize init method maxit mode env a)) = files a
  /\ best_score (snd (optimize minimize init method maxit mode env a)) = PInf
  /\ forall o,
       fst (optimize minimize init method maxit mode env a) = Return o ->
       score o = PInf /\ params o = seed init mode.
Proof.
  intros Hsync Henv Hcorr.
  destruct (silent_run (call_minimize minimize init method maxit mode) env
              (start init mode a) Henv Hsync Hcorr) as (Hf & Hs & Hp & Hsc).
  cbn [start files best_score best_params] in Hf, Hs, Hp.
  split; [exact Hsc|].
  unfold optimize.
  destruct (run _ env (start init mode a)) as [[ok|e] a1];
    cbn [snd] in Hf, Hs, Hp.
  - destruct (Waterfall.set_parameters_from_array _ mode _) as [sent wf].
    cbn [fst snd with_eval with_run files best_score best_params].
    split; [exact Hf|]. split; [exact Hs|].
    intros o H. injection H as <-. cbn [score params]. now split.
  - cbn [fst snd with_run files best_score].
    split; [exact Hf|]. split; [exact Hs|]. discriminate.
Qed.

Lemma silent_run_saves_nothing_witness :
  let mz : scipy :=
    fun _ _ _ _ => Ask Examples.probe (fun _ => Ask Examples.probe
                                                   (fun _ => Done true)) in
  files (snd (optimize mz None "Powell" 10 "marker"
                (fun _ => Examples.quiet) (Examples.agent0 "marker")))
  = files (Examples.agent0 "marker").
Proof.
  intros mz.
  destruct (silent_run_saves_nothing mz None "Powell" 10 "marker"
              (fun _ => Examples.quiet) (Examples.agent0 "marker"))
    as (_ & H & _); [discriminate | reflexivity | reflexivity | exact H].
Defined.

End SilentRuns.

(** ** Where a run starts *)

Section Seeds.
Import Py Agent Waterfall.

Lemma midpoint_inside (lo hi : Q) :
  lo < hi -> lo < (lo + hi) / 2 /\ (lo + hi) / 2 < hi.
Proof.
  intros H. unfold Qdiv.
  setoid_replace (/ 2) with (1 # 2) by reflexivity.
  split; lra.
Qed.

Lemma midpoints_inside (bs : list (Q * Q)) :
  Forall (fun b => fst b < snd b) bs ->
  Forall2 (fun x b => fst b < x /\ x < snd b)
          (map (fun b => (fst b + snd b) / 2) bs) bs.
Proof.
  induction 1 as [|b bs Hb _ IH]; cbn [map]; constructor; auto.
  now apply midpoint_inside.
Qed.

(** X24.  Without an initial vector a run starts strictly inside the search
    box: for every mode string the seed has one entry per parameter name
    of the mode, each strictly between the minimum and the maximum of that
    parameter's bound; and that seed is the vector handed to the minimizer
    as starting point, whatever the method. *)
Theorem default_seed_inside_bounds (minimize : scipy) (method : string)
    (maxit : nat) (mode : string) :
  List.length (seed None mode) = List.length (get_param_names mode)
  /\ Forall2 (fun x b => fst b < x /\ x < snd b)
             (seed None mode) (get_bounds mode)
  /\ exists bounds,
       call_minimize minimize None method maxit mode
       = minimize (seed None mode) method bounds maxit
       /\ (bounds = None <-> method = "Nelder-Mead")
       /\ (bounds <> None -> bounds = Some (get_bounds mode)).
Proof.
  split; [|split].
  - unfold seed. rewrite length_map, bounds_follow_names. apply length_map.
  - unfold seed. apply midpoints_inside.
    rewrite bounds_follow_names. apply Forall_map.
    eapply Forall_impl; [|apply names_are_known].
    intros n Hn. now apply known_bound_ordered.
  - unfold call_minimize.
    destruct (String.eqb method "Nelder-Mead") eqn:E.
    + exists None. apply String.eqb_eq in E.
      repeat split; auto. congruence.
    + exists (Some (get_bounds mode)). apply String.eqb_neq in E.
      repeat split; auto; try discriminate. intros ->. congruence.
Qed.

End Seeds.

(** ** Relay client: replies and their framing *)

Section RelayReplies.
Import Py Relay Lines.

Lemma newline_is_space : is_space newline = true.
Proof. reflexivity. Qed.

Lemma rstrip_space_end s c :
  is_space c = true -> rstrip (s ++ String c "") = rstrip s.
Proof.
  intros Hc. induction s as [|x s IH]; cbn [append rstrip].
  - now rewrite Hc.
  - now rewrite IH.
Qed.

Lemma lstrip_app_empty s t : lstrip s = "" -> lstrip (s ++ t) = lstrip t.
Proof.
  induction s as [|x s IH]; cbn [append lstrip]; [reflexivity|].
  destruct (is_space x); [exact IH | discriminate].
Qed.

Lemma lstrip_app_some s t : lstrip s <> "" -> lstrip (s ++ t) = lstrip s ++ t.
Proof.
  induction s as [|x s IH]; cbn [append lstrip]; [congruence|].
  destruct (is_space x); [exact IH | reflexivity].
Qed.

Lemma strip_space_end s c :
  is_space c = true -> strip (s ++ String c "") = strip s.
Proof.
  intros Hc. unfold strip.
  destruct (lstrip s) as [|x u] eqn:E.
  - rewrite lstrip_app_empty by exact E. cbn. now rewrite Hc.
  - rewrite lstrip_app_some by congruence. rewrite E.
    now apply rstrip_space_end.
Qed.

Lemma is_ascii_app a b : is_ascii (a ++ b) = is_ascii a && is_ascii b.
Proof.
  induction a as [|c a IH]; cbn [append is_ascii]; [reflexivity|].
  now rewrite IH, andb_assoc.
Qed.

Lemma recv_line_arriving line rest :
  Buffers.contains newline line = false ->
  recv_line (arriving line ++ Got newline :: rest)
  = Line (line ++ String newline "") rest.
Proof.
  unfold arriving.
  induction line as [|x line IH]; cbn [Buffers.contains]; intros H.
  - reflexivity.
  - apply orb_false_iff in H. destruct H as [Hx Hl].
    cbn [list_ascii_of_string map app recv_line append].
    rewrite Hx, (IH Hl). reflexivity.
Qed.

Lemma recv_line_timeout part rest :
  Buffers.contains newline part = false ->
  recv_line (arriving part ++ RecvTimeout :: rest) = TimedOut rest.
Proof.
  unfold arriving.
  induction part as [|x part IH]; cbn [Buffers.contains]; intros H.
  - reflexivity.
  - apply orb_false_iff in H. destruct H as [Hx Hl].
    cbn [list_ascii_of_string map app recv_line].
    rewrite Hx, (IH Hl). reflexivity.
Qed.

(** What a line that arrives whole is heard as. *)
Lemma line_heard line rest :
  is_ascii line = true ->
  Buffers.contains newline line = false ->
  recv_line (arriving line ++ Got newline :: rest)
  = Line (line ++ String newline "") rest
  /\ is_ascii (line ++ String newline "") = true
  /\ strip (line ++ String newline "") = strip line.
Proof.
  intros Ha Hn. split; [now apply recv_line_arriving|]. split.
  - rewrite is_ascii_app, Ha. reflexivity.
  - now apply strip_space_end.
Qed.

(** [send_command] when the command goes out and a response is read. *)
Lemma send_command_heard command response rest c :
  connected c = true -> sock c = true ->
  is_ascii command = true ->
  hd Sent (sends (net c)) = Sent ->
  recv_line (incoming (net c)) = Line response rest ->
  is_ascii response = true ->
  send_command command c
  = (Some (strip response),
     with_net c true {| incoming := rest; sends := tl (sends (net c));
                        outgoing := (outgoing (net c) ++ [command])%list |}).
Proof.
  intros Hup Hsock Hcmd Hsend Hline Hascii.
  unfold send_command. rewrite Hup, Hsock, Hcmd, Hline, Hascii.
  cbn [negb orb].
  destruct (sends (net c)) as [|o l]; [reflexivity|].
  cbn [hd] in Hsend. subst o. reflexivity.
Qed.

(** X25.  A reply is the first line that arrives.  On an open connection
    whose next [sendall] goes through, if the bytes of an ASCII text
    without newline arrive followed by a newline, then [send_command]
    returns that text stripped of surrounding white space, stays
    connected, has handed the command over, and has read the incoming
    bytes up to and including that newline and not one further. *)
Theorem reply_is_first_line (command line : string) (rest : list recv1)
    (c : controller) :
  connected c = true -> sock c = true ->
  is_ascii command = true -> is_ascii line = true ->
  Buffers.contains newline line = false ->
  hd Sent (sends (net c)) = Sent ->
  incoming (net c) = (arriving line ++ Got newline :: rest)%list ->
  send_command command c
  = (Some (strip line),
     with_net c true {| incoming := rest; sends := tl (sends (net c));
                        outgoing := (outgoing (net c) ++ [command])%list |}).
Proof.
  intros Hup Hsock Hcmd Hline Hnl Hsend Hin.
  destruct (line_heard line rest Hline Hnl) as (Hread & Hascii & Hstrip).
  rewrite <- Hin in Hread. rewrite <- Hstrip.
  now apply send_command_heard.
Qed.

Lemma reply_is_first_line_witness :
  fst (send_command "PING"
         (online {| incoming :=
                      (arriving (" PONG " ++ String newline "OK")
                       ++ [Got newline])%list;
                    sends := []; outgoing := [] |}))
  = Some "PONG".
Proof.
  rewrite (reply_is_first_line "PING" " PONG " (arriving "OK" ++ [Got newline])%list);
    reflexivity.
Defined.

(** X26.  A late reply answers the next command.  On an open connection, if
    a reply is still incomplete when [recv] times out, [send_command]
    returns [None] and stays connected, and the bytes it had read are
    dropped: when the rest of that line arrives, a second [send_command]
    returns it (stripped) as the reply to the second command. *)
Theorem late_reply_answers_next_command (first second part1 part2 : string)
    (rest : list recv1) (c : controller) :
  connected c = true -> sock c = true ->
  is_ascii first = true -> is_ascii second = true ->
  is_ascii part2 = true ->
  Buffers.contains newline part1 = false ->
  Buffers.contains newline part2 = false ->
  sends (net c) = [] ->
  incoming (net c)
  = (arriving part1 ++ RecvTimeout :: arriving part2
     ++ Got newline :: rest)%list ->
  let r1 := send_command first c in
  let r2 := send_command second (snd r1) in
  fst r1 = None /\ connected (snd r1) = true
  /\ fst r2 = Some (strip part2)
  /\ incoming (net (snd r2)) = rest
  /\ outgoing (net (snd r2)) = (outgoing (net c) ++ [first; second])%list.
Proof.
  intros Hup Hsock H1 H2 Hp2 Hn1 Hn2 Hsend Hin. cbv zeta.
  assert (E1 : send_command first c
               = (None, with_net c true
                          {| incoming :=
                               (arriving part2 ++ Got newline :: rest)%list;
                             sends := [];
                             outgoing := (outgoing (net c) ++ [first])%list
                          |})).
  { unfold send_command. rewrite Hup, Hsock, H1, Hsend, Hin.
    cbn [negb orb]. now rewrite recv_line_timeout by exact Hn1. }
  rewrite E1. cbn [fst snd].
  destruct (line_heard part2 rest Hp2 Hn2) as (Hread & Hascii & Hstrip).
  rewrite (send_command_heard second (part2 ++ String newline "") rest);
    try reflexivity; try assumption.
  rewrite Hstrip.
  cbn [fst snd with_net net incoming outgoing connected].
  rewrite <- app_assoc. repeat split; reflexivity.
Qed.

Lemma late_reply_answers_next_command_witness :
  let c := online {| incoming :=
                       (arriving "OK FREQ=" ++ RecvTimeout
                        :: arriving "10000000" ++ [Got newline])%list;
                     sends := []; outgoing := [] |} in
  fst (send_command "PING" (snd (send_command "STATUS" c)))
  = Some "10000000".
Proof.
  intros c.
  destruct (late_reply_answers_next_command "STATUS" "PING" "OK FREQ="
              "10000000" [] c) as (_ & _ & H & _);
    [reflexivity.. | exact H].
Defined.

End RelayReplies.

(** ** Relay client: what goes out, and in which order *)

Section RelayTraffic.
Import Py Relay Lines.

Ltac effect :=
  cbn;
  split; [congruence|]; split; [reflexivity|]; split; [reflexivity|];
  split; [intros; congruence|];
  split; [first [left; reflexivity | right; reflexivity]|];
  intros ? ?; first [discriminate | split; reflexivity].

(** What any [send_command] does to the controller: the socket field and
    the timers are kept, a connection is never brought up, and the command
    is handed over at most once; a reply means that it was handed over and
    that the connection is still up. *)
Lemma send_command_effect cmd c :
  let r := send_command cmd c in
  sock (snd r) = sock c
  /\ last_status_poll (snd r) = last_status_poll c
  /\ last_keepalive (snd r) = last_keepalive c
  /\ (connected (snd r) = true -> connected c = true)
  /\ (outgoing (net (snd r)) = outgoing (net c)
      \/ outgoing (net (snd r)) = (outgoing (net c) ++ [cmd])%list)
  /\ (forall x, fst r = Some x ->
        outgoing (net (snd r)) = (outgoing (net c) ++ [cmd])%list
        /\ connected (snd r) = true).
Proof.
  cbv zeta. unfold send_command.
  destruct (connected c) eqn:Hup; cbn [negb orb]; [|effect].
  destruct (sock c) eqn:Hs; cbn [negb]; [|effect].
  destruct (is_ascii cmd); cbn [negb]; [|effect].
  destruct (sends (net c)) as [|[| |] l]; try effect;
    (destruct (recv_line (incoming (net c))) as [l' r|r|r];
     [destruct (is_ascii l')| |]; effect).
Qed.

(** One step of [configure_sdr]: the command goes out or not; going on
    means that it went out. *)
Lemma step_effect cmd c :
  let r := send_command cmd c in
  (connected (snd r) = true -> connected c = true)
  /\ if check_response (fst r)
     then outgoing (net (snd r)) = (outgoing (net c) ++ [cmd])%list
          /\ connected (snd r) = true
     else exists k, (k <= 1)%nat
            /\ outgoing (net (snd r)) = (outgoing (net c) ++ firstn k [cmd])%list.
Proof.
  cbv zeta.
  destruct (send_command_effect cmd c) as (_ & _ & _ & Hup & Hout & Hsome).
  split; [exact Hup|].
  destruct (fst (send_command cmd c)) as [x|] eqn:E; cbn [check_response].
  - destruct (Hsome x eq_refl) as [H1 H2].
    destruct (String.prefix "OK" x); [now split|].
    exists 1%nat. split; [lia | exact H1].
  - destruct Hout as [H|H]; [exists 0%nat | exists 1%nat]; split; try lia.
    + cbn. now rewrite app_nil_r.
    + exact H.
Qed.

Lemma chain_effect cmds :
  forall c,
    let r := chain cmds c in
    exists k, (k <= List.length cmds)%nat
      /\ outgoing (net (snd r)) = (outgoing (net c) ++ firstn k cmds)%list
      /\ (fst r = true -> k = List.length cmds)
      /\ (connected (snd r) = true -> connected c = true).
Proof.
  induction cmds as [|cmd cmds IH]; intros c; cbv zeta; cbn [chain].
  - exists 0%nat. cbn. rewrite app_nil_r. repeat split; auto.
  - pose proof (step_effect cmd c) as S1. cbv zeta in S1.
    destruct (send_command cmd c) as [r1 c1]. cbn [fst snd] in S1.
    destruct S1 as [U1 S1].
    destruct (check_response r1); cbn [negb].
    + destruct S1 as [O1 _].
      destruct (IH c1) as (k & Hk & Ho & Hok & Hup).
      exists (S k). cbn [List.length firstn].
      split; [lia|]. split; [|split; [intros H; now rewrite (Hok H) | auto]].
      rewrite Ho, O1, <- app_assoc. reflexivity.
    + destruct S1 as (k & Hk & Ho). exists k. cbn [fst snd List.length].
      split; [lia|]. split; [|split; [discriminate | exact U1]].
      rewrite Ho. destruct k as [|[|k]]; try reflexivity; lia.
Qed.

Lemma configure_sdr_is_chain c : configure_sdr c = chain plan c.
Proof.
  unfold configure_sdr, plan. cbn [chain].
  change ("SET_FREQ " ++ fmt_int TARGET_FREQ_HZ) with "SET_FREQ 10000000".
  change ("SET_ANTENNA " ++ TARGET_ANTENNA) with "SET_ANTENNA HIZ".
  change ("SET_LNA " ++ fmt_int TARGET_LNA) with "SET_LNA 2".
  change ("SET_GAIN " ++ fmt_int TARGET_GAIN) with "SET_GAIN 50".
  destruct (send_command "SET_FREQ 10000000" c) as [r1 c1].
  destruct (check_response r1); [|reflexivity]. cbn [negb].
  destruct (send_command "SET_ANTENNA HIZ" c1) as [r2 c2].
  destruct (check_response r2); [|reflexivity]. cbn [negb].
  destruct (send_command "SET_LNA 2" c2) as [r3 c3].
  destruct (check_response r3); [|reflexivity]. cbn [negb].
  destruct (send_command "SET_GAIN 50" c3) as [r4 c4].
  destruct (check_response r4); reflexivity.
Qed.

(** A chain that goes through leaves the connection up. *)
Lemma chain_through cmds :
  forall c, connected c = true ->
    fst (chain cmds c) = true -> connected (snd (chain cmds c)) = true.
Proof.
  induction cmds as [|cmd cmds IH]; intros c Hup; cbn [chain];
    [intros _; exact Hup|].
  pose proof (step_effect cmd c) as S1. cbv zeta in S1.
  destruct (send_command cmd c) as [r1 c1]. cbn [fst snd] in S1.
  destruct S1 as [_ S1].
  destruct (check_response r1); cbn [negb]; [|discriminate].
  destruct S1 as [_ U]. now apply IH.
Qed.

(** X27.  Configuration goes out in order and stops at the first refusal.
    Whatever the network does, [configure_sdr] hands over a prefix of the
    four commands SET_FREQ 10000000, SET_ANTENNA HIZ, SET_LNA 2,
    SET_GAIN 50, in that order and nothing else; it returns [True] only
    when all four went out and the connection is still up, and it never
    brings a connection up. *)
Theorem configuration_sent_in_order (c : controller) :
  let r := configure_sdr c in
  exists k, (k <= 4)%nat
    /\ outgoing (net (snd r)) = (outgoing (net c) ++ firstn k plan)%list
    /\ (fst r = true -> k = 4%nat /\ connected (snd r) = true)
    /\ (connected (snd r) = true -> connected c = true).
Proof.
  cbv zeta. rewrite configure_sdr_is_chain.
  destruct (chain_effect plan c) as (k & Hk & Ho & Hok & Hup).
  exists k. split; [exact Hk|]. split; [exact Ho|]. split; [|exact Hup].
  intros H. split; [exact (Hok H)|].
  destruct (connected c) eqn:Hc.
  - now apply chain_through.
  - exfalso. rewrite (Hok H) in Ho. revert H Ho. cbn [chain plan].
    unfold send_command at 1. rewrite Hc. cbn. discriminate.
Qed.

Lemma get_status_effect c :
  let r := get_status c in
  sock (snd r) = sock c
  /\ last_status_poll (snd r) = last_status_poll c
  /\ last_keepalive (snd r) = last_keepalive c
  /\ (connected (snd r) = true -> connected c = true)
  /\ exists k, (k <= 1)%nat
       /\ outgoing (net (snd r))
          = (outgoing (net c) ++ firstn k ["STATUS"])%list.
Proof.
  cbv zeta. unfold get_status.
  destruct (send_command_effect "STATUS" c) as (H1 & H2 & H3 & H4 & H5 & _).
  destruct (send_command "STATUS" c) as [r c1]. cbn [fst snd] in *.
  assert (K : exists k, (k <= 1)%nat
                /\ outgoing (net c1)
                   = (outgoing (net c) ++ firstn k ["STATUS"])%list).
  { destruct H5 as [H|H]; [exists 0%nat | exists 1%nat]; split; try lia.
    - cbn. now rewrite app_nil_r.
    - exact H. }
  destruct r as [x|]; [destruct (String.prefix "OK" x)|]; cbn [snd]; auto.
Qed.

(** What one pass of the loop sends: STATUS at most once, then PING at
    most once. *)
Lemma maintain_connection_effect now c :
  let r := maintain_connection now c in
  sock (snd r) = sock c
  /\ (connected (snd r) = true -> connected c = true)
  /\ exists sent,
       outgoing (net (snd r)) = (outgoing (net c) ++ sent)%list
       /\ Forall (fun x => x = "STATUS" \/ x = "PING") sent.
Proof.
  cbv zeta. unfold maintain_connection.
  set (c1 := if Qle_bool STATUS_POLL_INTERVAL (now - last_status_poll c)
             then snd (get_status (with_timers c now (last_keepalive c)))
             else c).
  assert (H1 : sock c1 = sock c
               /\ (connected c1 = true -> connected c = true)
               /\ exists sent,
                    outgoing (net c1) = (outgoing (net c) ++ sent)%list
                    /\ Forall (fun x => x = "STATUS" \/ x = "PING") sent).
  { subst c1. destruct (Qle_bool _ _).
    - destruct (get_status_effect (with_timers c now (last_keepalive c)))
        as (A & _ & _ & B & k & Hk & E).
      split; [exact A|]. split; [exact B|].
      exists (firstn k ["STATUS"]). split; [exact E|].
      destruct k as [|[|k]]; cbn; auto.
    - split; [reflexivity|]. split; [auto|].
      exists []. split; [now rewrite app_nil_r | constructor]. }
  destruct H1 as (A1 & B1 & sent1 & E1 & F1).
  destruct (Qle_bool KEEPALIVE_INTERVAL _).
  - destruct (send_command_effect "PING"
                (with_timers c1 (last_status_poll c1) now))
      as (A & _ & _ & B & E & _).
    destruct (send_command "PING" _) as [r c2].
    cbn [fst snd with_timers sock connected net] in *.
    assert (K : sock c2 = sock c
                /\ (connected c2 = true -> connected c = true)
                /\ exists sent,
                     outgoing (net c2) = (outgoing (net c) ++ sent)%list
                     /\ Forall (fun x => x = "STATUS" \/ x = "PING") sent).
    { split; [congruence|]. split; [auto|].
      destruct E as [E|E]; rewrite E, E1.
      - exists sent1. now split.
      - exists (sent1 ++ ["PING"])%list. rewrite <- app_assoc.
        split; [reflexivity|]. apply Forall_app. split; auto. }
    destruct r; exact K.
  - cbn [snd]. split; [exact A1|]. split; [exact B1|].
    exists sent1. now split.
Qed.

Lemma loop_effect clock :
  forall c,
    sock (loop clock c) = sock c
    /\ exists sent,
         outgoing (net (loop clock c)) = (outgoing (net c) ++ sent)%list
         /\ Forall (fun x => x = "STATUS" \/ x = "PING") sent.
Proof.
  assert (Z : forall c : controller,
            sock c = sock c
            /\ exists sent,
                 outgoing (net c) = (outgoing (net c) ++ sent)%list
                 /\ Forall (fun x => x = "STATUS" \/ x = "PING") sent).
  { intros c. split; [reflexivity|]. exists [].
    split; [now rewrite app_nil_r | constructor]. }
  induction clock as [|now later IH]; intros c; cbn [loop]; [apply Z|].
  destruct (connected c); [|apply Z].
  destruct (maintain_connection_effect now c) as (A & _ & s1 & E1 & F1).
  destruct (maintain_connection now c) as [ok c1]. cbn [snd] in *.
  destruct ok.
  - destruct (IH c1) as (A2 & s2 & E2 & F2).
    split; [congruence|].
    exists (s1 ++ s2)%list. rewrite E2, E1, <- app_assoc.
    split; [reflexivity|]. apply Forall_app. now split.
  - split; [exact A|]. exists s1. now split.
Qed.

Lemma disconnect_effect c :
  sock (disconnect c) = false /\ connected (disconnect c) = false
  /\ exists bye, (bye = [] \/ bye = ["QUIT"])
       /\ outgoing (net (disconnect c)) = (outgoing (net c) ++ bye)%list.
Proof.
  unfold disconnect. destruct (sock c) eqn:Hs.
  - destruct (send_command_effect "QUIT" c) as (_ & _ & _ & _ & E & _).
    cbn. split; [reflexivity|]. split; [reflexivity|].
    destruct E as [E|E]; [exists [] | exists ["QUIT"]]; rewrite E.
    + split; [now left | now rewrite app_nil_r].
    + split; [now right | reflexivity].
  - cbn. split; [exact Hs|]. split; [reflexivity|].
    exists []. split; [now left | now rewrite app_nil_r].
Qed.


End RelayTraffic.

(** ** Relay client: the status reply *)

Section RelayStatus.
Import Py Relay Lines.

Lemma prefix_OK s : String.prefix "OK" ("OK" ++ s) = true.
Proof. cbn. now destruct s. Qed.

Lemma rstrip_cons c s :
  is_space c = false -> rstrip (String c s) = String c (rstrip s).
Proof.
  intros H. cbn [rstrip]. rewrite H. now destruct (rstrip s).
Qed.

Lemma words_rstrip s : words (rstrip s) = words s.
Proof.
  induction s as [|c s IH]; [reflexivity|].
  cbn [rstrip]. destruct (rstrip s) as [|x r] eqn:E.
  - cbn [words]. rewrite <- IH. cbn [words].
    destruct (is_space c) eqn:Hc; cbn [words]; now rewrite ?Hc.
  - cbn [words]. rewrite <- IH. reflexivity.
Qed.

Lemma words_no_space w s :
  no_space w = true ->
  words (w ++ s) = (w ++ fst (words s), snd (words s)).
Proof.
  induction w as [|c w IH]; cbn [no_space append]; intros H.
  - now destruct (words s).
  - apply andb_prop in H. destruct H as [Hc Hw].
    apply negb_true_iff in Hc. cbn [words]. rewrite (IH Hw), Hc.
    reflexivity.
Qed.

Lemma entry_words pairs :
  well_worded pairs = true ->
  words (Store.join (map (fun kv => " " ++ fst kv ++ "=" ++ snd kv) pairs))
  = ("", map entry pairs).
Proof.
  induction pairs as [|kv pairs IH]; cbn [well_worded forallb map];
    [reflexivity|].
  intros H. apply andb_prop in H. destruct H as [Hkv Hrest].
  apply andb_prop in Hkv. destruct Hkv as [Hk Hv].
  unfold is_key in Hk. apply andb_prop in Hk. destruct Hk as [Hk _].
  unfold Store.join. cbn [fold_right]. fold (Store.join
    (map (fun kv => " " ++ fst kv ++ "=" ++ snd kv) pairs)).
  rewrite append_assoc. fold (entry kv).
  change (" " ++ ?a) with (String " " a). cbn [words].
  change (is_space " ") with true. cbv iota.
  rewrite words_no_space, (IH Hrest).
  - cbn [fst snd]. rewrite append_empty_r.
    unfold entry at 1. destruct (fst kv); reflexivity.
  - unfold entry. rewrite no_space_app, Hk. cbn [no_space andb].
    exact Hv.
Qed.

Lemma split_once_entry k v :
  Buffers.contains "="%char k = false ->
  split_once "="%char (k ++ String "="%char v) = (k, Some v).
Proof.
  induction k as [|c k IH]; cbn [Buffers.contains append]; intros H.
  - reflexivity.
  - apply orb_false_iff in H. destruct H as [Hc Hk].
    cbn [split_once]. rewrite Hc, (IH Hk). reflexivity.
Qed.

Lemma status_of_entries pairs :
  well_worded pairs = true ->
  forall d,
    status_of (map entry pairs) d
    = fold_left (fun d kv => Dict.set d (fst kv) (snd kv)) pairs d.
Proof.
  induction pairs as [|kv pairs IH]; cbn [well_worded forallb map];
    intros H d; [reflexivity|].
  apply andb_prop in H. destruct H as [Hkv Hrest].
  apply andb_prop in Hkv. destruct Hkv as [Hk _].
  unfold is_key in Hk. apply andb_prop in Hk. destruct Hk as [_ Hk].
  apply negb_true_iff in Hk.
  cbn [status_of fold_left].
  change (entry kv) with (fst kv ++ String "="%char (snd kv)).
  rewrite split_once_entry by exact Hk. now apply IH.
Qed.

Lemma no_space_no_newline s :
  no_space s = true -> Buffers.contains newline s = false.
Proof.
  induction s as [|c s IH]; cbn [no_space Buffers.contains];
    [reflexivity|].
  intros H. apply andb_prop in H. destruct H as [Hc Hs].
  rewrite (IH Hs), orb_false_r.
  destruct (Ascii.eqb c newline) eqn:E; [|reflexivity].
  apply Ascii.eqb_eq in E. subst c. discriminate.
Qed.

Lemma contains_app c a b :
  Buffers.contains c (a ++ b) = Buffers.contains c a || Buffers.contains c b.
Proof.
  induction a as [|x a IH]; cbn [append Buffers.contains]; [reflexivity|].
  now rewrite IH, orb_assoc.
Qed.

Lemma status_line_one_line pairs :
  well_worded pairs = true ->
  Buffers.contains newline (status_line pairs) = false.
Proof.
  unfold status_line. rewrite contains_app. cbn [orb].
  change (Buffers.contains newline "OK") with false. cbn [orb].
  induction pairs as [|kv pairs IH]; cbn [well_worded forallb map];
    [reflexivity|].
  intros H. apply andb_prop in H. destruct H as [Hkv Hrest].
  apply andb_prop in Hkv. destruct Hkv as [Hk Hv].
  unfold is_key in Hk. apply andb_prop in Hk. destruct Hk as [Hk _].
  unfold Store.join. cbn [fold_right]. fold (Store.join
    (map (fun kv => " " ++ fst kv ++ "=" ++ snd kv) pairs)).
  rewrite !contains_app, (IH Hrest).
  rewrite (no_space_no_newline _ Hk), (no_space_no_newline _ Hv).
  reflexivity.
Qed.

(** X29.  The status reply reads back.  On an open connection whose next
    [sendall] goes through, if the server answers STATUS with the line
    [OK k1=v1 k2=v2 ...], the keys being texts without white space and
    without an equals sign and the values texts without white space, then
    [get_status] returns the dictionary that assigning the pairs in order
    gives (a repeated key keeps its first position and takes its last
    value), and has read no byte past the line. *)
Theorem status_reads_back (pairs : list (string * string))
    (rest : list recv1) (c : controller) :
  connected c = true -> sock c = true ->
  hd Sent (sends (net c)) = Sent ->
  well_worded pairs = true ->
  is_ascii (status_line pairs) = true ->
  incoming (net c)
  = (arriving (status_line pairs) ++ Got newline :: rest)%list ->
  fst (get_status c) = Some (Dict.of_pairs pairs)
  /\ incoming (net (snd (get_status c))) = rest.
Proof.
  intros Hup Hsock Hsend Hw Hascii Hin. unfold get_status.
  destruct (line_heard (status_line pairs) rest Hascii
              (status_line_one_line pairs Hw)) as (Hread & Hline & Hsame).
  rewrite <- Hin in Hread.
  rewrite (send_command_heard "STATUS" _ rest c Hup Hsock eq_refl Hsend
             Hread Hline), Hsame.
  assert (Hstrip : strip (status_line pairs)
                   = "OK" ++ rstrip (Store.join
                       (map (fun kv => " " ++ fst kv ++ "=" ++ snd kv)
                            pairs))).
  { unfold strip, status_line.
    change ("OK" ++ ?s) with (String "O" (String "K" s)).
    cbn [lstrip]. change (is_space "O") with false. cbv iota.
    now rewrite !rstrip_cons by reflexivity. }
  rewrite Hstrip.
  rewrite prefix_OK.
  cbn [fst snd with_net net incoming]. split; [|reflexivity].
  unfold str_split. rewrite words_no_space by reflexivity.
  rewrite words_rstrip, entry_words by exact Hw.
  cbn [fst snd append tl]. f_equal.
  now apply status_of_entries.
Qed.

Lemma status_reads_back_witness :
  let c := online {| incoming :=
                       (arriving "OK FREQ=10000000 ANT=HIZ FREQ=5"
                        ++ [Got newline])%list;
                     sends := []; outgoing := [] |} in
  fst (get_status c) = Some [("FREQ", "5"); ("ANT", "HIZ")].
Proof.
  intros c.
  destruct (status_reads_back
              [("FREQ", "10000000"); ("ANT", "HIZ"); ("FREQ", "5")] [] c)
    as [H _]; [reflexivity.. | exact H].
Defined.

(** *** Whatever the reply, the dictionary is made of words *)

Lemma words_are_words s :
  no_space (fst (words s)) = true
  /\ Forall (fun w => no_space w = true) (snd (words s)).
Proof.
  induction s as [|c s [IH1 IH2]]; cbn [words]; [now split|].
  destruct (words s) as [w ws]. cbn [fst snd] in *.
  destruct (is_space c) eqn:Hc; cbn [fst snd no_space].
  - split; [reflexivity|]. destruct w; [exact IH2|].
    constructor; assumption.
  - rewrite Hc, IH1. now split.
Qed.

Lemma str_split_words s : Forall (fun w => no_space w = true) (str_split s).
Proof.
  unfold str_split. destruct (words_are_words s) as [H1 H2].
  destruct (words s) as [w ws]. cbn [fst snd] in *.
  destruct w; [exact H2|]. now constructor.
Qed.

Lemma split_once_parts sep s k v :
  split_once sep s = (k, Some v) ->
  no_space s = true ->
  Buffers.contains sep k = false /\ no_space k = true /\ no_space v = true.
Proof.
  revert k. induction s as [|c s IH]; cbn [split_once no_space];
    intros k H Hs; [discriminate|].
  apply andb_prop in Hs. destruct Hs as [Hc Hs].
  destruct (Ascii.eqb c sep) eqn:E.
  - injection H as <- <-. now repeat split.
  - destruct (split_once sep s) as [h r]. injection H as <- ->.
    destruct (IH h eq_refl Hs) as (I1 & I2 & I3).
    cbn [Buffers.contains no_space]. rewrite E, I1, I2, Hc.
    now repeat split.
Qed.

Lemma set_keys (d : Dict.t string) k v x :
  In x (map fst (Dict.set d k v)) -> x = k \/ In x (map fst d).
Proof.
  induction d as [|[k' v'] d IH]; cbn [Dict.set map fst In].
  - intros [<-|[]]. now left.
  - destruct (String.eqb k k') eqn:E; cbn [map fst In].
    + intros [<-|H]; right; [now left | now right].
    + intros [<-|H]; [right; now left|].
      destruct (IH H) as [->|H']; [now left | right; now right].
Qed.

Lemma set_tidy d k v :
  tidy d -> is_key k = true -> no_space v = true -> tidy (Dict.set d k v).
Proof.
  intros [Hn Hf] Hk Hv. unfold tidy.
  induction d as [|[k' v'] d IH]; cbn [Dict.set map fst].
  - split; [constructor; [intros []|constructor]|].
    constructor; [now split | constructor].
  - inversion Hn as [|? ? Hnot Hn']. subst.
    inversion Hf as [|? ? Hkv Hf']. subst. cbn [fst snd] in *.
    destruct (String.eqb k k') eqn:E; cbn [map fst].
    + split; [exact Hn|]. constructor; [|exact Hf'].
      cbn [fst snd]. destruct Hkv as [Hk' _]. now split.
    + destruct (IH Hn' Hf') as [I1 I2].
      split; [|constructor; assumption].
      constructor; [|exact I1].
      intros Hin. apply set_keys in Hin. destruct Hin as [->|Hin].
      * now rewrite String.eqb_refl in E.
      * contradiction.
Qed.

Lemma status_of_tidy parts :
  Forall (fun w => no_space w = true) parts ->
  forall d, tidy d -> tidy (status_of parts d).
Proof.
  induction 1 as [|part parts Hp _ IH]; intros d Hd; cbn [status_of];
    [exact Hd|].
  destruct (split_once "="%char part) as [k [v|]] eqn:E; [|now apply IH].
  destruct (split_once_parts _ _ _ _ E Hp) as (K1 & K2 & K3).
  apply IH. apply set_tidy; auto.
  unfold is_key. now rewrite K2, K1.
Qed.

(** X30.  Whatever arrives, a status is made of words.  Whenever
    [get_status] returns a dictionary, its keys are distinct, no key holds
    white space or an equals sign, no value holds white space, and the
    connection is still up. *)
Theorem status_is_made_of_words (c : controller) (d : Dict.t string) :
  fst (get_status c) = Some d ->
  NoDup (map fst d)
  /\ Forall (fun kv => is_key (fst kv) = true /\ no_space (snd kv) = true) d
  /\ connected (snd (get_status c)) = true.
Proof.
  unfold get_status.
  destruct (send_command_effect "STATUS" c) as (_ & _ & _ & _ & _ & Hsome).
  destruct (send_command "STATUS" c) as [[r|] c1]; cbn [fst snd] in *;
    [|discriminate].
  destruct (String.prefix "OK" r); cbn [fst snd]; [|discriminate].
  intros H. injection H as <-.
  destruct (Hsome r eq_refl) as [_ Hup].
  destruct (status_of_tidy (tl (str_split r))) with (d := @nil (string * string))
    as [T1 T2].
  - pose proof (str_split_words r) as F.
    destruct (str_split r); [constructor|]. now inversion F.
  - split; constructor.
  - now repeat split.
Qed.

Lemma status_is_made_of_words_witness :
  let c := online {| incoming :=
                       (arriving "OKAY =1 A==2 junk A=3"
                        ++ [Got newline])%list;
                     sends := []; outgoing := [] |} in
  fst (get_status c) = Some [("", "1"); ("A", "3")]
  /\ connected (snd (get_status c)) = true.
Proof.
  intros c.
  destruct (status_is_made_of_words c [("", "1"); ("A", "3")])
    as (_ & _ & H); [reflexivity|].
  split; [reflexivity | exact H].
Defined.

End RelayStatus.
